(** * number-types: MatrixSquare and Percentage

    A shallow embedding of [src/class/MatrixSquare.class.ts] and of the
    [Percentage] class, with the properties of their specification.

    - A JavaScript [number] is an IEEE 754 binary64 value: Rocq's primitive
      [float], whose operations the kernel evaluates and [FloatAxioms] relates
      to [SpecFloat].
    - A [bigint] is a [Z]; an array index handed to a [map] callback is a [nat].
    - A [throw] is the [Throw] branch of [result]; its argument names the class
      of the thrown error.
    - An array is a list of slots: a slot is empty (a hole of a sparse array),
      holds [undefined], or holds a number.
    - A Matrix or MatrixSquare is the grid it stores.  Inside a method of
      MatrixSquare [this] is an instance of MatrixSquare; where the source
      only asserts the type of a value (the result of [transposition]), the
      value is an object that carries its class, and a call on it is resolved
      by that class, as at run time.
    - [Matrix.class.ts] and [Vector.class.ts] are not under src/, and extrajs
      is an external package: what the code uses of them is modelled from the
      specification, and marked so.
    - [Math.max] and [Math.min] are the loops of ECMAScript.
    - [Percentage.toString], [Percentage.fromString] and [REGEXP] print and
      parse decimal numerals and are not modelled. *)

From Stdlib Require Import ZArith List Bool Lia Floats.
From stdpp Require Import base tactics option list gmap.

Local Open Scope Z_scope.

(** ** Errors *)

(** The classes of error the code throws.  [TypeError] and [RangeError] are
    JavaScript's own; [DomainError] stands for the failure of extrajs's
    [xjs.Number.assertType] (the specification's domain error), and
    [DimensionError] for the specification's dimension-mismatch error.
    [OutOfFuel] is no error of the program: a recursive function of the model
    gives it when its bound on the depth of the recursion is reached. *)
Inductive error : Set :=
| TypeError
| RangeError
| DomainError
| DimensionError
| OutOfFuel.

Inductive result (A : Type) : Type :=
| Ok (a : A)
| Throw (e : error).
Arguments Ok {A} a.
Arguments Throw {A} e.

Definition bind {A B : Type} (r : result A) (k : A -> result B) : result B :=
  match r with
  | Ok a => k a
  | Throw e => Throw e
  end.

Notation "'let*' x ':=' r 'in' k" := (bind r (fun x => k))
  (at level 10, x name, r at level 100, k at level 200).
Notation "'check' r 'in' k" := (bind r (fun _ => k))
  (at level 10, r at level 100, k at level 200).

(** ** JavaScript numbers *)

Module JSNumber.

(** [x === 0] on numbers: IEEE equality, true of both zeros. *)
Definition is_zero (x : float) : bool := (x =? 0)%float.

(** [Number.isFinite]. *)
Definition isFinite (x : float) : bool := is_finite x.

(** The kinds of [xjs.Number.assertType] the code asks for. *)
Inductive numeric_type : Set := NonNegative | Finite.

(** Modelled from the spec: extrajs's [xjs.Number.assertType] is an external
    package, not under src/.  The specification gives its effect in the
    Percentage constructor: a domain error when the value is negative,
    respectively not finite ([NaN] is neither non-negative nor finite). *)
Definition assertType (p : float) (ty : numeric_type) : result unit :=
  match ty with
  | NonNegative => if (0 <=? p)%float then Ok tt else Throw DomainError
  | Finite => if isFinite p then Ok tt else Throw DomainError
  end.

End JSNumber.

(** ** [Math.max] and [Math.min] *)

Module JSMath.

(** [x] is [+0]. *)
Definition is_pos_zero (x : float) : bool :=
  match classify x with
  | PZero => true
  | _ => false
  end.

(** [x] is [-0]. *)
Definition is_neg_zero (x : float) : bool :=
  match classify x with
  | NZero => true
  | _ => false
  end.

(** The loop of [Math.max] over its arguments, as ECMAScript defines it, with
    [highest] the highest value so far: a [NaN] ends it with [NaN]; [+0] takes
    the place of [-0]; a value above [highest] takes its place. *)
Fixpoint max_from (highest : float) (coerced : list float) : float :=
  match coerced with
  | [] => highest
  | number :: rest =>
      if is_nan number then nan
      else if is_pos_zero number && is_neg_zero highest then max_from number rest
      else if (highest <? number)%float then max_from number rest
      else max_from highest rest
  end.

(** [Math.max(...values)]: the loop starts from [-Infinity]. *)
Definition max (values : list float) : float := max_from neg_infinity values.

(** The loop of [Math.min], with [lowest] the lowest value so far: a [NaN] ends
    it with [NaN]; [-0] takes the place of [+0]; a value below [lowest] takes
    its place. *)
Fixpoint min_from (lowest : float) (coerced : list float) : float :=
  match coerced with
  | [] => lowest
  | number :: rest =>
      if is_nan number then nan
      else if is_neg_zero number && is_pos_zero lowest then min_from number rest
      else if (number <? lowest)%float then min_from number rest
      else min_from lowest rest
  end.

(** [Math.min(...values)]: the loop starts from [+Infinity]. *)
Definition min (values : list float) : float := min_from infinity values.

End JSMath.

(** ** Percentage *)

Module Percentage.

(** [class Percentage extends Number]: the object boxes one number, which
    [valueOf] returns. *)
Record t : Set := Box { valueOf : float }.

(** [constructor(p = 0)]: [p = p.valueOf()], the two assertions, [super(p)]. *)
Definition new (p : float) : result t :=
  check JSNumber.assertType p JSNumber.NonNegative in
  check JSNumber.assertType p JSNumber.Finite in
  Ok (Box p).

(** [static readonly MULT_IDEN = new Percentage(1)]. *)
Definition MULT_IDEN : t := Box 1%float.
(** [static readonly MULT_ABSORB = new Percentage()]. *)
Definition MULT_ABSORB : t := Box 0%float.

(** [get conjugate()]. *)
Definition conjugate (this : t) : result t :=
  if ((valueOf this <? 0)%float || (1 <? valueOf this)%float)%bool
  then Throw RangeError
  else new (1 - valueOf this)%float.

(** [get reciprocal()]. *)
Definition reciprocal (this : t) : result t :=
  new (valueOf MULT_IDEN / valueOf this)%float.

(** A Percentage that a program can hold: the result of a constructor call. *)
Definition constructed (p : t) : Prop := new (valueOf p) = Ok p.

(** An argument of type [Percentage|number]. *)
Inductive arg : Set :=
| Pct (p : t)
| Number (x : float).

(** [new Percentage(p)] for [p : Percentage|number]: the constructor takes
    [p.valueOf()], the number itself or the number in the box. *)
Definition of_arg (p : arg) : result t :=
  match p with
  | Pct q => new (valueOf q)
  | Number x => new x
  end.

(** [static max(...pcts)]. *)
Definition max (pcts : list t) : result t :=
  new (JSMath.max (List.map valueOf pcts)).

(** [static min(...pcts)]. *)
Definition min (pcts : list t) : result t :=
  new (JSMath.min (List.map valueOf pcts)).

(** [equals(pct)]: [===] on the two values for a Percentage, and for a number
    the same on a new Percentage of it.  The first disjunct of the source,
    [this === pct], holds only when [pct] is this very object; the second one
    then compares a value with itself, which gives [true] as well, the value of
    a Percentage never being [NaN] (proved below for every constructed
    Percentage). *)
Definition equals (this : t) (pct : arg) : result bool :=
  match pct with
  | Pct q => Ok (valueOf this =? valueOf q)%float
  | Number x =>
      let* q := new x in
      Ok (valueOf this =? valueOf q)%float
  end.

(** [lessThan(pct)]. *)
Definition lessThan (this : t) (pct : arg) : result bool :=
  match pct with
  | Pct q => Ok (valueOf this <? valueOf q)%float
  | Number x =>
      let* q := new x in
      Ok (valueOf this <? valueOf q)%float
  end.

(** [clamp(min, max)], with the depth of the recursion bounded by [fuel].
    When both bounds are Percentages and in order, the result is
    [Percentage.min(Percentage.max(min, this), max)]; when they are not in
    order the call is repeated with the bounds exchanged; when one of them is
    a number the call is repeated with new Percentages of both, made from left
    to right. *)
Fixpoint clamp_fuel (fuel : nat) (this : t) (min max : arg) : result t :=
  match fuel with
  | O => Throw OutOfFuel
  | S fuel' =>
      match min, max with
      | Pct lo, Pct hi =>
          let* lt := lessThan lo (Pct hi) in
          let* in_order := if lt : bool then Ok true else equals lo (Pct hi) in
          if in_order : bool then
            let* m := Percentage.max [lo; this] in
            Percentage.min [m; hi]
          else clamp_fuel fuel' this (Pct hi) (Pct lo)
      | _, _ =>
          let* lo := of_arg min in
          let* hi := of_arg max in
          clamp_fuel fuel' this (Pct lo) (Pct hi)
      end
  end.

(** [clamp(min, max)].  A call with numbers repeats itself once with
    Percentages, and a call with Percentages out of order repeats itself once
    with them in order, so three levels are enough for bounds that hold
    numbers, as those of every constructed Percentage do (proved below). *)
Definition clamp (this : t) (min max : arg) : result t :=
  clamp_fuel 3 this min max.

(** [clamp()], with the default bounds [min = 0] and [max = 1]. *)
Definition clamp_default (this : t) : result t :=
  clamp this (Number 0%float) (Number 1%float).

(** [times(multiplier)]. *)
Definition times (this : t) (multiplier : arg) : result t :=
  match multiplier with
  | Pct m => new (valueOf this * valueOf m)%float
  | Number x =>
      let* m := new x in
      new (valueOf this * valueOf m)%float
  end.

(** [times()], with the default multiplier 1. *)
Definition times_default (this : t) : result t := times this (Number 1%float).

(** [of(x)]; [of] is a keyword here. *)
Definition of_ (this : t) (x : float) : float := (valueOf this * x)%float.

End Percentage.

(** ** Arrays *)

(** A slot of an array: empty (a hole, as [row.length = n] leaves behind when it
    lengthens [row]), the value [undefined], or a number. *)
Inductive slot : Set :=
| Hole
| Undef
| Cell (x : float).

(** What reading a slot or a getter gives: a number or [undefined]. *)
Inductive value : Set :=
| VUndef
| VNum (x : float).

(** [a[i]] for a slot that exists: a hole reads as [undefined]. *)
Definition read (s : slot) : value :=
  match s with
  | Cell x => VNum x
  | Hole | Undef => VUndef
  end.

(** The conversion that [*], [/] and [+] apply to an operand:
    [undefined] becomes [NaN]. *)
Definition ToNumber (v : value) : float :=
  match v with
  | VNum x => x
  | VUndef => nan
  end.

(** [v === 0]: false of [undefined] and of [NaN], true of both zeros. *)
Definition strict_eq_zero (v : value) : bool :=
  match v with
  | VNum x => JSNumber.is_zero x
  | VUndef => false
  end.

(** [(k % 2 === 0) ? 1 : -1]. *)
Definition sign (k : nat) : float := if Nat.even k then 1%float else (-1)%float.

Module JSArray.

(** [a.length = n]: drops the slots from [n] on, or appends holes up to [n]. *)
Definition set_length (n : nat) (a : list slot) : list slot :=
  take n a ++ replicate (n - length a) Hole.

(** [[...a]]: the iterator yields [undefined] for a hole, so the copy has none. *)
Definition spread (a : list slot) : list slot :=
  List.map (fun s => match s with Hole => Undef | _ => s end) a.

(** [a[i]]. *)
Definition get (a : list slot) (i : nat) : value :=
  match a !! i with
  | Some s => read s
  | None => VUndef
  end.

(** Modelled from the spec: extrajs's [xjs.Array.fillHoles(arr, value)], an
    external package that is not under src/: a copy of [arr] in which every
    hole and every [undefined] is [value]; [arr] itself is left as it is. *)
Definition fillHoles (a : list slot) (v : float) : list slot :=
  List.map (fun s => match s with Cell x => Cell x | Hole | Undef => Cell v end) a.

(** [a.map((x, i) => f(x, i))] from index [i] on, for a callback that returns a
    number or throws: a hole is skipped and stays a hole. *)
Fixpoint map_from (i : nat) (f : value -> nat -> result float) (a : list slot)
  : result (list slot) :=
  match a with
  | [] => Ok []
  | Hole :: a' =>
      let* r := map_from (S i) f a' in Ok (Hole :: r)
  | s :: a' =>
      let* y := f (read s) i in
      let* r := map_from (S i) f a' in Ok (Cell y :: r)
  end.

Definition map (f : value -> nat -> result float) (a : list slot) : result (list slot) :=
  map_from 0 f a.

(** The values of the slots that are not holes, in order. *)
Fixpoint present (a : list slot) : list value :=
  match a with
  | [] => []
  | Hole :: a' => present a'
  | s :: a' => read s :: present a'
  end.

(** [a.reduce((x, y) => x + y)], with no initial value: holes are skipped, the
    first value present starts the sum, and an array with none throws a
    TypeError. *)
Definition reduce_add (a : list slot) : result value :=
  match present a with
  | [] => Throw TypeError
  | v :: vs => Ok (fold_left (fun x y => VNum (ToNumber x + ToNumber y)%float) vs v)
  end.

(** [rows.map((row, i) => f(row, i))] over an array of rows, from index [i]. *)
Fixpoint map_rows_from {A B : Type} (i : nat) (f : A -> nat -> result B) (rows : list A)
  : result (list B) :=
  match rows with
  | [] => Ok []
  | row :: rows' =>
      let* y := f row i in
      let* r := map_rows_from (S i) f rows' in Ok (y :: r)
  end.

End JSArray.

(** ** Objects

    The class of an object decides which method a call finds, whatever the type
    that the source declares or asserts for it. *)

(** The two classes. *)
Inductive class : Set :=
| ClassMatrix
| ClassMatrixSquare.

(** An object: its class, and the grid it stores in [_DATA]. *)
Record object : Set := Object { class_of : class; data_of : list (list slot) }.

(** ** Matrix

    [Matrix.class.ts] is not under src/: the class is modelled from section 4.1
    of the specification.  A matrix is the grid it stores ([_DATA]), one array
    of slots per row. *)

Module Matrix.

Abbreviation t := (list (list slot)).

(** Modelled from the spec: the constructor of Matrix, missing from src/, called
    as [super(rawdata)]: in the general case the grid is the construction data
    as the caller left it. *)
Definition new (rawdata : list (list slot)) : t := rawdata.

(** Modelled from the spec: the accessor [raw] of Matrix, missing from src/:
    the stored grid. *)
Definition raw (this : t) : list (list slot) := this.

(** Modelled from the spec: [height] of Matrix, missing from src/: the number of
    rows of the stored grid. *)
Definition height (this : t) : Z := Z.of_nat (length this).

(** Modelled from the spec: [width] of Matrix, missing from src/: the number of
    columns of the stored grid, every row having as many (0 without rows). *)
Definition width (this : t) : Z :=
  match this with
  | [] => 0
  | row :: _ => Z.of_nat (length row)
  end.

(** Modelled from the spec: [at(row, col)] of Matrix, missing from src/: the
    cell value, and an out-of-range error if an index is negative, [row >=
    height] or [col >= width]. *)
Definition at_ (this : t) (row col : Z) : result value :=
  if (row <? 0) || (height this <=? row) || (col <? 0) || (width this <=? col)
  then Throw RangeError
  else Ok (match this !! Z.to_nat row with
           | Some r => JSArray.get r (Z.to_nat col)
           | None => VUndef
           end).

(** Modelled from the spec: [transposition] of Matrix, missing from src/: a
    matrix of dimensions width x height whose cell [i][j] is cell [j][i] of the
    source. *)
Definition transposition (this : t) : t :=
  List.map (fun i => List.map (fun row => default Hole (row !! i)) this)
           (seq 0 (Z.to_nat (width this))).

(** Modelled from the spec: what [transposition] and [minor] of Matrix, missing
    from src/, return is "a new Matrix": an instance of Matrix with the given
    grid, whatever the class of [this]. *)
Definition instance (grid : t) : object := Object ClassMatrix grid.

(** Modelled from the spec: the contract of Matrix, missing from src/, has
    [height], [width], [at], [transposition], [minor], [scale] and [times], and
    no [det]: reading [det] of an instance of Matrix gives [undefined]. *)
Definition det (this : t) : value := VUndef.

(** Modelled from the spec: [minor(row, col)] of Matrix, missing from src/: the
    given row and the given column deleted; fails without rows or without
    columns (the undefined-operation error, a TypeError as in [det]) and on an
    index out of range. *)
Definition minor (this : t) (row col : Z) : result t :=
  if (height this =? 0) || (width this =? 0) then Throw TypeError
  else if (row <? 0) || (height this <=? row) || (col <? 0) || (width this <=? col)
  then Throw RangeError
  else Ok (List.map (delete (Z.to_nat col)) (delete (Z.to_nat row) this)).

(** Modelled from the spec: [scale(scalar = 1)] of Matrix, missing from src/:
    every cell multiplied by [scalar], dimensions unchanged. *)
Definition scale (this : t) (scalar : float) : t :=
  List.map (List.map (fun s => match s with
                               | Hole => Hole
                               | _ => Cell (ToNumber (read s) * scalar)%float
                               end)) this.

(** Modelled from the spec: [times(other)] of Matrix, missing from src/: requires
    [this.width === other.height], else a dimension-mismatch error; the result
    is this.height x other.width with cell [i][j] the sum over k of
    [this[i][k] * other[k][j]]. *)
Definition times (this other : t) : result t :=
  if width this =? height other
  then Ok (List.map (fun row =>
             List.map (fun j =>
               Cell (fold_left (fun acc k =>
                       acc + ToNumber (JSArray.get row k)
                             * ToNumber (match other !! k with
                                         | Some r => JSArray.get r j
                                         | None => VUndef
                                         end))%float
                     (seq 0 (length other)) 0%float))
               (seq 0 (Z.to_nat (width other))))
             this)
  else Throw DimensionError.

End Matrix.

(** ** MatrixSquare *)

Module MatrixSquare.

(** [class MatrixSquare extends Matrix]: the same stored grid. *)
Abbreviation t := (list (list slot)).

(** A row of the construction data: a Vector (of which only [raw], its numbers,
    is used) or an array of numbers. *)
Inductive row_data : Set :=
| RowVector (raw : list float)
| RowArray (a : list slot).

(** The argument of the constructor: [Matrix | readonly (Vector|number[])[]]. *)
Inductive data : Set :=
| FromMatrix (m : Matrix.t)
| FromRows (rows : list row_data).

(** [(row instanceof Vector) ? [...row.raw] : row]. *)
Definition full_row (row : row_data) : list slot :=
  match row with
  | RowVector raw => JSArray.spread (List.map Cell raw)
  | RowArray a => a
  end.

(** The first statement of the constructor: the rows as full arrays. *)
Definition rawdata_of (d : data) : list (list slot) :=
  match d with
  | FromMatrix m => List.map (fun row => JSArray.spread row) (Matrix.raw m)
  | FromRows rows => List.map full_row rows
  end.

(** The body of the [forEach] callback, as a function of the array that [row]
    names on entry.  [row.length = rawdata.length] changes that array.
    [row = xjs.Array.fillHoles(row, 0)] then binds the callback's parameter to
    the filled copy, which nothing reads: the array of [rawdata] keeps its
    holes. *)
Definition forEach_body (n : nat) (row : list slot) : list slot :=
  let row1 := JSArray.set_length n row in
  let row2 := JSArray.fillHoles row1 0%float in
  row1.

(** [constructor(data = [])], on the values of the arrays. *)
Definition new (d : data) : t :=
  let rawdata := rawdata_of d in
  Matrix.new (List.map (forEach_body (length rawdata)) rawdata).

(** [static multIden(size = 0n)]: [new Array(nsize)] throws a RangeError unless
    [nsize] is an array length. *)
Definition multIden (size : Z) : result t :=
  if (size <? 0) || (4294967295 <? size) then Throw RangeError
  else
    let nsize := Z.to_nat size in
    Ok (new (FromRows
         (List.map (fun i =>
            RowArray (List.map (fun j => Cell (if Nat.eqb i j then 1%float else 0%float))
                               (seq 0 nsize)))
            (seq 0 nsize)))).

(** [new MatrixSquare(...)]: an instance of MatrixSquare with the given grid. *)
Definition instance (grid : t) : object := Object ClassMatrixSquare grid.

(** [get transposition()]: [super.transposition as MatrixSquare].  The type
    assertion is erased and no constructor runs: the result is the object that
    the getter of Matrix built. *)
Definition transposition (this : t) : object :=
  Matrix.instance (Matrix.transposition this).

(** [get size()]. *)
Definition size (this : t) : Z := Matrix.height this.

(** [minor(row, col)]. *)
Definition minor (this : t) (row col : Z) : result t :=
  let* m := Matrix.minor this row col in
  Ok (new (FromMatrix m)).

(** [scale(scalar = 1)]. *)
Definition scale (this : t) (scalar : float) : t :=
  new (FromMatrix (Matrix.scale this scalar)).

(** [times(multiplier)]. *)
Definition times (this : t) (multiplier : Matrix.t) : result t :=
  let* m := Matrix.times this multiplier in
  Ok (new (FromMatrix m)).

(** [get det()], with the depth of the recursion bounded by [fuel]. *)
Fixpoint det_fuel (fuel : nat) (this : t) : result value :=
  match fuel with
  | O => Throw OutOfFuel
  | S fuel' =>
      if size this =? 0 then Throw TypeError
      else if size this =? 1 then Matrix.at_ this 0 0
      else
        let* terms :=
          JSArray.map (fun cell j =>
            let* m := minor this 0 (Z.of_nat j) in
            let* d := det_fuel fuel' m in
            Ok (sign j * ToNumber cell * ToNumber d)%float)
            (default [] (this !! 0%nat)) in
        JSArray.reduce_add terms
  end.

(** [get det()].  Each recursive call is on a minor, which has one row less,
    so one more than the number of rows bounds the depth: [det] never gives
    [OutOfFuel], and more fuel gives the same result (proved below). *)
Definition det (this : t) : result value :=
  det_fuel (S (length this)) this.

(** [o.minor(row, col)] for an object [o] that the source takes for a
    MatrixSquare: the method of the class of [o].  That of MatrixSquare returns
    a new MatrixSquare, that of Matrix a new Matrix. *)
Definition invoke_minor (o : object) (row col : Z) : result object :=
  match class_of o with
  | ClassMatrixSquare =>
      let* m := minor (data_of o) row col in
      Ok (instance m)
  | ClassMatrix =>
      let* m := Matrix.minor (data_of o) row col in
      Ok (Matrix.instance m)
  end.

(** [o.det] for an object [o] that the source takes for a MatrixSquare: the
    getter of MatrixSquare, or for an instance of Matrix, which has no such
    property, [undefined]. *)
Definition invoke_det (o : object) : result value :=
  match class_of o with
  | ClassMatrixSquare => det (data_of o)
  | ClassMatrix => Ok (Matrix.det (data_of o))
  end.

(** [get reciprocal()].  In the general case the minors are those of
    [this.transposition], an object typed MatrixSquare by assertion only. *)
Definition reciprocal (this : t) : result t :=
  let* d := det this in
  if strict_eq_zero d then Throw TypeError
  else if size this =? 0 then Ok (new (FromRows []))
  else if size this =? 1 then
    let* d := det this in
    Ok (new (FromRows [RowArray [Cell (1 / ToNumber d)%float]]))
  else
    let* cofactors :=
      JSArray.map_rows_from 0 (fun row i =>
        JSArray.map (fun _cell j =>
          let* m := invoke_minor (transposition this) (Z.of_nat i) (Z.of_nat j) in
          let* d := invoke_det m in
          Ok (sign (i + j) * ToNumber d)%float) row) this in
    let* d := det this in
    Ok (scale (new (FromRows (List.map RowArray cofactors))) (1 / ToNumber d)%float).

(** The invariant of the class: as many slots in every row as there are rows. *)
Definition square (m : list (list slot)) : Prop :=
  Forall (fun row => length row = length m) m.

(** Every slot holds a number. *)
Definition dense (m : list (list slot)) : Prop :=
  Forall (Forall (fun s => exists x, s = Cell x)) m.

End MatrixSquare.

(** ** The constructor of MatrixSquare on a store of arrays

    The constructor writes to arrays that its caller may hold, so here arrays
    live in a store and a row is the address of its array. *)

Module Store.

(** The arrays of the program, by address. *)
Abbreviation store := (gmap nat (list slot)).

(** A new array: an address the store does not use yet. *)
Definition alloc (a : list slot) (h : store) : store * nat :=
  let l := fresh (dom h) in (<[l := a]> h, l).

(** A row of the construction data: a Vector, or the address of an array of
    numbers. *)
Inductive row_ref : Set :=
| RefVector (raw : list float)
| RefArray (l : nat).

(** The construction data: a Matrix, given by the addresses of the rows of its
    [raw], or an array of rows. *)
Inductive data_ref : Set :=
| RefMatrix (rows : list nat)
| RefRows (rows : list row_ref).

(** [data.raw.map((row) => [...row])]: a new array per row. *)
Fixpoint copy_rows (rows : list nat) (h : store) : store * list nat :=
  match rows with
  | [] => (h, [])
  | row :: rows' =>
      let '(h1, l) := alloc (JSArray.spread (h !!! row)) h in
      let '(h2, ls) := copy_rows rows' h1 in
      (h2, l :: ls)
  end.

(** [data.map((row) => (row instanceof Vector) ? [...row.raw] : row)]: a new
    array for a Vector, the caller's own array for an array. *)
Fixpoint full_rows (rows : list row_ref) (h : store) : store * list nat :=
  match rows with
  | [] => (h, [])
  | RefVector raw :: rows' =>
      let '(h1, l) := alloc (JSArray.spread (List.map Cell raw)) h in
      let '(h2, ls) := full_rows rows' h1 in
      (h2, l :: ls)
  | RefArray l :: rows' =>
      let '(h2, ls) := full_rows rows' h in
      (h2, l :: ls)
  end.

Definition rawdata_of (d : data_ref) (h : store) : store * list nat :=
  match d with
  | RefMatrix rows => copy_rows rows h
  | RefRows rows => full_rows rows h
  end.

(** The callback of [rawdata.forEach], for the row at address [row]. *)
Definition forEach_body (n : nat) (h : store) (row : nat) : store :=
  (* row.length = rawdata.length *)
  let h1 := <[row := JSArray.set_length n (h !!! row)]> h in
  (* row = xjs.Array.fillHoles(row, 0): the copy is a new array, and [row], the
     parameter, is the only name it gets *)
  let '(h2, row') := alloc (JSArray.fillHoles (h1 !!! row) 0%float) h1 in
  h2.

(** [constructor(data = [])]: the store it leaves, and the rows of the new
    instance ([super(rawdata)] keeps them as [_DATA]). *)
Definition constructor (d : data_ref) (h : store) : store * list nat :=
  let '(h1, rawdata) := rawdata_of d h in
  let h2 := foldl (forEach_body (length rawdata)) h1 rawdata in
  (h2, rawdata).

(** The grid that the rows at [rows] hold in [h]. *)
Definition grid (h : store) (rows : list nat) : list (list slot) :=
  List.map (fun l => h !!! l) rows.

(** A row of the construction data, read in [h]. *)
Definition row_at (h : store) (row : row_ref) : MatrixSquare.row_data :=
  match row with
  | RefVector raw => MatrixSquare.RowVector raw
  | RefArray l => MatrixSquare.RowArray (h !!! l)
  end.

(** The construction data, read in [h]. *)
Definition data_at (h : store) (d : data_ref) : MatrixSquare.data :=
  match d with
  | RefMatrix rows => MatrixSquare.FromMatrix (grid h rows)
  | RefRows rows => MatrixSquare.FromRows (List.map (row_at h) rows)
  end.

(** The addresses of the construction data are arrays of the store. *)
Definition valid (h : store) (d : data_ref) : Prop :=
  match d with
  | RefMatrix rows => Forall (fun l => l ∈ dom h) rows
  | RefRows rows =>
      Forall (fun row => match row with
                         | RefVector _ => True
                         | RefArray l => l ∈ dom h
                         end) rows
  end.

(** [h1] has the arrays of [h], unchanged (and maybe more). *)
Definition extends (h h1 : store) : Prop :=
  forall l, l ∈ dom h -> h1 !! l = h !! l.

End Store.

(** ** The determinant, in the words of the specification

    The second definition of the determinant, for grids of numbers: what
    section 4.2 of the specification says, to compare [MatrixSquare.det]
    with. *)

Module Spec.

(** A sum of terms, taken from the left (the order in which [reduce] adds). *)
Definition reduce_sum (ts : list float) : float :=
  match ts with
  | [] => nan
  | t :: ts' => fold_left (fun x y => (x + y)%float) ts' t
  end.

(** [(-1)^j]: the sign alternates, starting positive at [j = 0]. *)
Fixpoint neg_one_pow (j : nat) : float :=
  match j with
  | O => 1%float
  | S j' => (-1 * neg_one_pow j')%float
  end.

(** [minor(0, j)]: row 0 and column [j] deleted. *)
Definition minor0 (g : list (list float)) (j : nat) : list (list float) :=
  List.map (delete j) (tail g).

(** The determinant of a grid of [S k] rows.  Base case, size 1: the single
    cell's value.  Recursive case: the cofactor expansion along row 0, the sum
    over [j] of [(-1)^j * cell[0][j] * minor(0, j).det]. *)
Fixpoint det (k : nat) (g : list (list float)) : float :=
  match k with
  | O => default nan (head (default [] (head g)))
  | S k' =>
      reduce_sum (imap (fun j cell => (neg_one_pow j * cell * det k' (minor0 g j))%float)
                       (default [] (head g)))
  end.

(** The identity matrix of size [n]: 1 on the main diagonal, 0 elsewhere. *)
Definition identity (n : nat) : list (list float) :=
  List.map (fun i => List.map (fun j => if Nat.eqb i j then 1%float else 0%float) (seq 0 n))
           (seq 0 n).

(** A grid of numbers as a stored grid. *)
Definition cells (g : list (list float)) : list (list slot) :=
  List.map (List.map Cell) g.

(** [n] rows of [n] numbers. *)
Definition square (n : nat) (g : list (list float)) : Prop :=
  length g = n /\ Forall (fun row => length row = n) g.

End Spec.

(** ** Grids of zeros and ones

    What the determinant of an identity matrix goes through: rows with at most
    one 1 among zeros, and sums with at most one term that is not a zero. *)

Module ZeroOne.

(** A zero of either sign. *)
Definition zero (x : float) : Prop := x = 0%float \/ x = (-0)%float.

(** A zero, 1 or -1. *)
Definition unit (x : float) : Prop := zero x \/ x = 1%float \/ x = (-1)%float.

(** [one_hot b row]: the cells of [row] are 0, but for one cell 1 when [b]. *)
Inductive one_hot : bool -> list float -> Prop :=
| one_hot_nil : one_hot false []
| one_hot_zero b row : one_hot b row -> one_hot b (0%float :: row)
| one_hot_one row : one_hot false row -> one_hot true (1%float :: row).

(** [one_term b ts]: the terms [ts] are zeros, but for one term zero, 1 or -1
    when [b]. *)
Inductive one_term : bool -> list float -> Prop :=
| one_term_nil : one_term false []
| one_term_zero b t ts : zero t -> one_term b ts -> one_term b (t :: ts)
| one_term_one t ts : unit t -> one_term false ts -> one_term true (t :: ts).

End ZeroOne.

(** ** Rounding in binary64

    The predicates that follow a value through the rounding of [SpecFloat]. *)

(** [r] is [mx] shifted right by [k] bits and rounded down; its round bit is
    set only if something was lost. *)
Definition shr_inv (mx k : Z) (r : shr_record) : Prop :=
  0 <= shr_m r /\ shr_m r * 2 ^ k <= mx /\ (shr_r r = true -> shr_m r * 2 ^ k < mx).

(** A mantissa and an exponent whose value is at most 1. *)
Definition le_one (m e : Z) : Prop :=
  -1074 <= e /\ m * 2 ^ (e + 1074) <= 2 ^ 1074.

(** The same for exponents down to [- K], as the product of two mantissas
    needs. *)
Definition le_pow (K m e : Z) : Prop :=
  - K <= e /\ m * 2 ^ (e + K) <= 2 ^ K.

(** ** The order of binary64 numbers

    The comparisons of numbers other than [NaN], brought down to the order of
    three integers. *)

(** The rank of a number: its sign and class first, then its exponent, then its
    mantissa, the last two counted downwards for a negative number. *)
Definition rank (x : spec_float) : Z * Z * Z :=
  match x with
  | S754_nan => (0, 0, 0)
  | S754_infinity true => (-2, 0, 0)
  | S754_finite true m e => (-1, - e, - Zpos m)
  | S754_zero _ => (0, 0, 0)
  | S754_finite false m e => (1, e, Zpos m)
  | S754_infinity false => (2, 0, 0)
  end.

(** The comparison of ranks, first component first. *)
Definition lex (a b : Z * Z * Z) : comparison :=
  match a, b with
  | (a1, a2, a3), (b1, b2, b3) =>
      match a1 ?= b1 with
      | Eq => match a2 ?= b2 with
              | Eq => a3 ?= b3
              | c => c
              end
      | c => c
      end
  end.

(** The same as a proposition on the integers. *)
Definition lex_lt (a b : Z * Z * Z) : Prop :=
  match a, b with
  | (a1, a2, a3), (b1, b2, b3) =>
      a1 < b1 \/ (a1 = b1 /\ (a2 < b2 \/ (a2 = b2 /\ a3 < b3)))
  end.

(** Equality of ranks, on the integers. *)
Definition lex_eq (a b : Z * Z * Z) : Prop :=
  match a, b with
  | (a1, a2, a3), (b1, b2, b3) => a1 = b1 /\ a2 = b2 /\ a3 = b3
  end.

(** The rank of a number. *)
Definition rk (x : float) : Z * Z * Z := rank (Prim2SF x).

(** A number that is not [NaN]. *)
Definition not_nan (x : float) : Prop := Prim2SF x <> S754_nan.

Example MULT_IDEN_constructed : Percentage.new 1%float = Ok Percentage.MULT_IDEN.
Proof. reflexivity. Qed.

Example MULT_ABSORB_constructed : Percentage.new 0%float = Ok Percentage.MULT_ABSORB.
Proof. reflexivity. Qed.

(** The identity of size 2, as [multIden] builds it. *)
Example multIden_2 :
  MatrixSquare.multIden 2 = Ok [[Cell 1; Cell 0]; [Cell 0; Cell 1]].
Proof. reflexivity. Qed.


(** ** Facts on binary64 comparisons *)

Section FloatFacts.

Lemma Prim2SF_0 : Prim2SF 0 = S754_zero false.
Proof. reflexivity. Qed.

Lemma Prim2SF_1 : Prim2SF 1 = S754_finite false 4503599627370496 (-52).
Proof. reflexivity. Qed.

Lemma eqb_zero_inv (x : float) :
  (x =? 0)%float = true -> x = 0%float \/ x = (-0)%float.
Proof.
  rewrite FloatAxioms.eqb_spec, Prim2SF_0. intros H.
  rewrite <- (SF2Prim_Prim2SF x).
  destruct (Prim2SF x) as [[|]|[|]| |[|] m e]; try discriminate H; cbn; auto.
Qed.

Lemma leb_zero_not_ltb (x : float) :
  (0 <=? x)%float = true -> (x <? 0)%float = false.
Proof.
  rewrite FloatAxioms.leb_spec, FloatAxioms.ltb_spec, Prim2SF_0.
  destruct (Prim2SF x) as [[|]|[|]| |[|] m e]; cbn; congruence.
Qed.

End FloatFacts.

(** ** Rounding in binary64: properties

    [1 - p], for a number [p] of [0, 1], is a number of [0, 1] again: the
    constructor of Percentage accepts it.  The proof follows the subtraction of
    [SpecFloat] (align, subtract, shift right, round to nearest even, shift
    again) with the value of the mantissa bounded by 1 at every step. *)

Section Rounding.

(** A mantissa lies between the powers of 2 that its number of digits gives. *)
Lemma digits2_pos_bounds (m : positive) :
  2 ^ (Zpos (digits2_pos m) - 1) <= Zpos m < 2 ^ Zpos (digits2_pos m).
Proof.
  induction m as [m IH|m IH|]; cbn [digits2_pos]; [| | cbn; lia].
  - rewrite Pos2Z.inj_succ, Z.pow_succ_r by lia.
    replace (Z.succ (Zpos (digits2_pos m)) - 1) with (Z.succ (Zpos (digits2_pos m) - 1)) by lia.
    rewrite Z.pow_succ_r by lia. lia.
  - rewrite Pos2Z.inj_succ, Z.pow_succ_r by lia.
    replace (Z.succ (Zpos (digits2_pos m)) - 1) with (Z.succ (Zpos (digits2_pos m) - 1)) by lia.
    rewrite Z.pow_succ_r by lia. lia.
Qed.

(** Shifting a mantissa left by [d] bits. *)
Lemma iter_xO (m d : positive) : Zpos (Pos.iter xO m d) = Zpos m * 2 ^ Zpos d.
Proof.
  induction d as [|d IH] using Pos.peano_ind.
  - cbn. lia.
  - rewrite Pos.iter_succ, Pos2Z.inj_xO, IH, Pos2Z.inj_succ, Z.pow_succ_r by lia. lia.
Qed.

(** Aligning to a lower exponent keeps the value. *)
Lemma shl_align_spec (mx : positive) (ex ex' : Z) :
  snd (shl_align mx ex ex') = Z.min ex ex'
  /\ Zpos (fst (shl_align mx ex ex')) = Zpos mx * 2 ^ (ex - Z.min ex ex').
Proof.
  unfold shl_align. destruct (ex' - ex) as [|d|d] eqn:E; cbn [fst snd].
  - replace (Z.min ex ex') with ex by lia. rewrite Z.sub_diag. cbn. lia.
  - replace (Z.min ex ex') with ex by lia. rewrite Z.sub_diag. cbn. lia.
  - replace (Z.min ex ex') with ex' by lia. rewrite iter_xO.
    replace (ex - ex') with (Zpos d) by lia. split; reflexivity.
Qed.

(** One more bit shifted out. *)
Lemma shr_1_inv (mx k : Z) (r : shr_record) :
  0 <= k -> shr_inv mx k r -> shr_inv mx (k + 1) (shr_1 r).
Proof.
  intros Hk (H0 & Hle & Hlt). unfold shr_inv.
  rewrite Z.pow_add_r, Z.pow_1_r by lia.
  assert (Hp : 0 < 2 ^ k) by (apply Z.pow_pos_nonneg; lia).
  destruct r as [m r s]. cbn [shr_m shr_r] in *.
  destruct m as [|[p|p|]|p]; cbn [shr_1 shr_m shr_r]; [| | | | lia].
  - clear Hlt. split; [lia |]. split; [lia | discriminate].
  - clear Hlt. rewrite Pos2Z.inj_xI in Hle.
    replace ((2 * Zpos p + 1) * 2 ^ k) with (2 * (Zpos p * 2 ^ k) + 2 ^ k) in Hle by ring.
    replace (Zpos p * (2 ^ k * 2)) with (2 * (Zpos p * 2 ^ k)) by ring.
    split; [lia |]. split; [lia | intros _; lia].
  - clear Hlt. rewrite Pos2Z.inj_xO in Hle.
    replace (2 * Zpos p * 2 ^ k) with (2 * (Zpos p * 2 ^ k)) in Hle by ring.
    replace (Zpos p * (2 ^ k * 2)) with (2 * (Zpos p * 2 ^ k)) by ring.
    split; [lia |]. split; [lia | discriminate].
  - clear Hlt. split; [lia |]. split; [lia | intros _; lia].
Qed.

Lemma iter_pos_shr_inv (mx : Z) (n : positive) :
  forall k r, 0 <= k -> shr_inv mx k r -> shr_inv mx (k + Zpos n) (SpecFloat.iter_pos shr_1 n r).
Proof.
  induction n as [n IH|n IH|]; intros k r Hk H; cbn [SpecFloat.iter_pos].
  - replace (k + Zpos n~1) with (k + 1 + Zpos n + Zpos n) by lia.
    apply IH; [lia |]. apply IH; [lia |]. now apply shr_1_inv.
  - replace (k + Zpos n~0) with (k + Zpos n + Zpos n) by lia.
    apply IH; [lia |]. now apply IH.
  - now apply shr_1_inv.
Qed.

(** [shr] shifts by [n] bits when [n] is positive, and not at all otherwise. *)
Lemma shr_spec (mx : Z) (r : shr_record) (e n : Z) :
  shr_inv mx 0 r ->
  snd (shr r e n) = e + Z.max n 0
  /\ shr_inv mx (Z.max n 0) (fst (shr r e n))
  /\ (n <= 0 -> fst (shr r e n) = r).
Proof.
  intros H. unfold shr. destruct n as [|p|p]; cbn [fst snd].
  - rewrite Z.add_0_r. auto.
  - replace (Z.max (Zpos p) 0) with (0 + Zpos p) by lia.
    split; [lia |]. split; [now apply iter_pos_shr_inv | lia].
  - replace (Z.max (Zneg p) 0) with 0 by lia. rewrite Z.add_0_r. auto.
Qed.

(** Rounding adds at most 1, and nothing unless the round bit is set. *)
Lemma round_nearest_even_bounds (r : shr_record) :
  shr_m r <= round_nearest_even (shr_m r) (loc_of_shr_record r) <= shr_m r + 1
  /\ (shr_r r = false -> round_nearest_even (shr_m r) (loc_of_shr_record r) = shr_m r).
Proof.
  destruct r as [m [|] [|]]; cbn [shr_m shr_r loc_of_shr_record round_nearest_even];
    try destruct (Z.even m); split; try lia; try discriminate; auto.
Qed.

Lemma le_one_exp (m e : Z) : 0 < m -> le_one m e -> e <= 0.
Proof.
  intros Hm [He Hv].
  assert (Hp : 0 < 2 ^ (e + 1074)) by (apply Z.pow_pos_nonneg; lia).
  assert (H : 2 ^ (e + 1074) <= 2 ^ 1074) by nia.
  apply Z.pow_le_mono_r_iff in H; lia.
Qed.

Lemma le_one_digits (p : positive) (e : Z) :
  le_one (Zpos p) e -> Zpos (digits2_pos p) + e <= 1.
Proof.
  intros [He Hv]. pose proof (digits2_pos_bounds p) as [Hd _].
  assert (Hp : 0 < 2 ^ (e + 1074)) by (apply Z.pow_pos_nonneg; lia).
  assert (H : 2 ^ (Zpos (digits2_pos p) - 1 + (e + 1074)) <= 2 ^ 1074).
  { rewrite Z.pow_add_r by lia. nia. }
  apply Z.pow_le_mono_r_iff in H; lia.
Qed.

(** Shifting right and rounding down keeps a value at most 1. *)
Lemma le_one_shift (m' mx k e : Z) :
  0 <= k -> 0 <= m' -> m' * 2 ^ k <= mx -> le_one mx e -> le_one m' (e + k).
Proof.
  intros Hk Hm' Hle [He Hv]. split; [lia |].
  replace (e + k + 1074) with (k + (e + 1074)) by lia.
  rewrite Z.pow_add_r by lia.
  assert (Hp : 0 < 2 ^ (e + 1074)) by (apply Z.pow_pos_nonneg; lia).
  nia.
Qed.

(** So does rounding up, when bits were lost: 1 is a multiple of the unit of
    the last place kept. *)
Lemma le_one_round_up (m' mx k e : Z) :
  0 <= k -> e + k <= 0 -> 0 <= m' -> m' * 2 ^ k < mx -> le_one mx e ->
  le_one (m' + 1) (e + k).
Proof.
  intros Hk He' Hm' Hlt [He Hv]. split; [lia |].
  assert (HB : 2 ^ 1074 = 2 ^ (e + 1074) * (2 ^ k * 2 ^ (- (e + k)))).
  { rewrite <- !Z.pow_add_r by lia. f_equal. lia. }
  replace (e + k + 1074) with ((e + 1074) + k) by lia.
  rewrite Z.pow_add_r by lia. rewrite HB in Hv |- *.
  assert (HA : 0 < 2 ^ (e + 1074)) by (apply Z.pow_pos_nonneg; lia).
  assert (HK : 0 < 2 ^ k) by (apply Z.pow_pos_nonneg; lia).
  assert (HC : 0 < 2 ^ (- (e + k))) by (apply Z.pow_pos_nonneg; lia).
  assert (H1 : mx <= 2 ^ k * 2 ^ (- (e + k))).
  { apply (Z.mul_le_mono_pos_r _ _ (2 ^ (e + 1074)) HA). lia. }
  assert (H2 : m' < 2 ^ (- (e + k))).
  { apply (Z.mul_lt_mono_pos_r (2 ^ k) _ _ HK). lia. }
  assert (H3 : (m' + 1) * 2 ^ k <= 2 ^ (- (e + k)) * 2 ^ k).
  { apply Z.mul_le_mono_nonneg_r; lia. }
  nia.
Qed.

Lemma shr_fexp_exact (mx ex : Z) :
  0 <= mx ->
  let n := fexp prec emax (Zdigits2 mx + ex) - ex in
  snd (shr_fexp prec emax mx ex loc_Exact) = ex + Z.max n 0
  /\ shr_inv mx (Z.max n 0) (fst (shr_fexp prec emax mx ex loc_Exact))
  /\ (n <= 0 -> fst (shr_fexp prec emax mx ex loc_Exact) = Build_shr_record mx false false).
Proof.
  intros Hmx n. unfold shr_fexp. cbn [shr_record_of_loc].
  apply shr_spec. unfold shr_inv. cbn [shr_m shr_r].
  rewrite Z.pow_0_r. split; [lia |]. split; [lia | discriminate].
Qed.

(** Rounding a positive value that is at most 1 gives a zero or a positive
    number that is at most 1: no overflow, and the sign stays. *)
Lemma binary_round_aux_le_one (mx ex : Z) :
  0 < mx -> le_one mx ex ->
  binary_round_aux prec emax false mx ex loc_Exact = S754_zero false
  \/ exists m e,
       binary_round_aux prec emax false mx ex loc_Exact = S754_finite false m e
       /\ le_one (Zpos m) e.
Proof.
  intros Hpos Hone. unfold binary_round_aux.
  destruct (shr_fexp_exact mx ex ltac:(lia)) as (E1 & I1 & X1).
  destruct (shr_fexp prec emax mx ex loc_Exact) as [r1 e1]. cbn [fst snd] in *.
  set (n1 := fexp prec emax (Zdigits2 mx + ex) - ex) in *.
  destruct I1 as (I1a & I1b & I1c).
  pose proof (round_nearest_even_bounds r1) as [Hr Hrx].
  set (m1 := round_nearest_even (shr_m r1) (loc_of_shr_record r1)) in *.
  assert (Hm1 : le_one m1 e1).
  { destruct (shr_r r1) eqn:Er.
    - assert (Hn1 : 0 < n1).
      { destruct (Z_lt_le_dec 0 n1) as [H|H]; [exact H |].
        rewrite (X1 H) in Er. discriminate. }
      assert (He1 : e1 <= 0).
      { destruct mx as [|p|p]; try lia. cbn [Zdigits2] in n1.
        pose proof (le_one_digits p ex Hone). unfold n1, fexp, SpecFloat.emin, prec, emax in *. lia. }
      destruct (Z.eq_dec m1 (shr_m r1)) as [-> | Hne].
      + rewrite E1. apply (le_one_shift _ mx); auto; lia.
      + replace m1 with (shr_m r1 + 1) by lia. rewrite E1.
        apply (le_one_round_up _ mx); auto; lia.
    - rewrite (Hrx eq_refl). rewrite E1. apply (le_one_shift _ mx); auto; lia. }
  assert (H0m1 : 0 <= m1) by lia.
  destruct (shr_fexp_exact m1 e1 H0m1) as (E2 & I2 & _).
  destruct (shr_fexp prec emax m1 e1 loc_Exact) as [r2 e2]. cbn [fst snd] in *.
  set (n2 := fexp prec emax (Zdigits2 m1 + e1) - e1) in *.
  destruct I2 as (I2a & I2b & _).
  assert (Hm2 : le_one (shr_m r2) e2).
  { rewrite E2. apply (le_one_shift _ m1); auto; lia. }
  destruct (shr_m r2) as [|m|m] eqn:Em; [now left | | lia].
  right. exists m, e2.
  pose proof (le_one_exp _ _ (Pos2Z.is_pos m) Hm2) as He2.
  replace (e2 <=? emax - prec) with true; [auto |].
  symmetry. apply Z.leb_le. unfold emax, prec. lia.
Qed.

Lemma binary_round_le_one (d : positive) (e : Z) :
  le_one (Zpos d) e ->
  binary_round prec emax false d e = S754_zero false
  \/ exists m e',
       binary_round prec emax false d e = S754_finite false m e'
       /\ le_one (Zpos m) e'.
Proof.
  intros [He Hv]. unfold binary_round.
  pose proof (shl_align_spec d e (fexp prec emax (Zpos (digits2_pos d) + e))) as [Hs Hf].
  destruct (shl_align d e _) as [mz ez]. cbn [fst snd] in *.
  apply binary_round_aux_le_one; [lia |].
  assert (Hez : -1074 <= ez /\ ez <= e).
  { unfold fexp, SpecFloat.emin, prec, emax in Hs. lia. }
  split; [lia |]. rewrite Hf, <- Hs, <- Z.mul_assoc, <- Z.pow_add_r by lia.
  now replace (e - ez + (ez + 1074)) with (e + 1074) by lia.
Qed.

(** What a valid finite binary64 number is made of. *)
Lemma bounded_inv (m : positive) (e : Z) :
  bounded prec emax m e = true -> -1074 <= e /\ Zpos m < 2 ^ 53.
Proof.
  unfold bounded, canonical_mantissa. intros H.
  apply andb_prop in H as [H _]. apply Z.eqb_eq in H.
  pose proof (digits2_pos_bounds m) as [_ Hd].
  unfold fexp, SpecFloat.emin, prec, emax in H. split; [lia |].
  eapply Z.lt_le_trans; [exact Hd |]. apply Z.pow_le_mono_r; lia.
Qed.

(** A positive number that is not above 1, by exponent and mantissa. *)
Lemma not_above_one_inv (m : positive) (e : Z) :
  SFltb (S754_finite false 4503599627370496 (-52)) (S754_finite false m e) = false ->
  e <= -52 /\ (e = -52 -> Zpos m <= 2 ^ 52).
Proof.
  unfold SFltb, SFcompare. destruct (Z.compare_spec (-52) e) as [<- | H | H].
  - intros Hc. split; [lia |]. intros _.
    change (Pos.compare_cont Eq 4503599627370496 m) with (4503599627370496 ?= m)%positive in Hc.
    change (2 ^ 52) with (Zpos 4503599627370496).
    destruct (4503599627370496 ?= m)%positive eqn:E; try discriminate.
    + apply Pos.compare_eq in E. rewrite <- E. apply Z.le_refl.
    + apply Pos.compare_gt_iff, Pos2Z.pos_lt_pos in E. now apply Z.lt_le_incl.
  - discriminate.
  - intros _. split; [lia | intros ->; lia].
Qed.

(** [1 - x], for a positive number [x] that is at most 1: a zero or a
    positive number that is at most 1. *)
Lemma SFsub_one_le_one (m : positive) (e : Z) :
  bounded prec emax m e = true ->
  SFltb (S754_finite false 4503599627370496 (-52)) (S754_finite false m e) = false ->
  SF64sub (S754_finite false 4503599627370496 (-52)) (S754_finite false m e)
  = S754_zero false
  \/ exists m' e',
       SF64sub (S754_finite false 4503599627370496 (-52)) (S754_finite false m e)
       = S754_finite false m' e'
       /\ le_one (Zpos m') e'.
Proof.
  intros Hb Hlt. apply bounded_inv in Hb as [Hemin Hm].
  apply not_above_one_inv in Hlt as [He He52].
  unfold SF64sub, SFsub. cbn [cond_Zopp].
  replace (Z.min (-52) e) with e by lia.
  pose proof (shl_align_spec 4503599627370496 (-52) e) as [_ H1].
  pose proof (shl_align_spec m e e) as [_ H2].
  replace (Z.min (-52) e) with e in H1 by lia.
  replace (Z.min e e) with e in H2 by lia.
  rewrite Z.sub_diag, Z.pow_0_r, Z.mul_1_r in H2. rewrite H1, H2.
  change (Zpos 4503599627370496) with (2 ^ 52).
  assert (Hp : 0 < 2 ^ (-52 - e)) by (apply Z.pow_pos_nonneg; lia).
  assert (HD : 0 <= 2 ^ 52 * 2 ^ (-52 - e) - Zpos m).
  { destruct (Z.eq_dec e (-52)) as [-> | Hne].
    - specialize (He52 eq_refl). cbn [Z.sub Z.opp Z.add Z.pos_sub Z.pow Z.pow_pos Pos.iter Z.mul Pos.mul] in *. lia.
    - assert (2 ^ 1 <= 2 ^ (-52 - e)) by (apply Z.pow_le_mono_r; lia).
      change (2 ^ 53) with (2 ^ 52 * 2 ^ 1) in Hm. nia. }
  assert (Hone : le_one (2 ^ 52 * 2 ^ (-52 - e) - Zpos m) e).
  { split; [lia |].
    assert (HB : 2 ^ 1074 = (2 ^ 52 * 2 ^ (-52 - e)) * 2 ^ (e + 1074)).
    { rewrite <- !Z.pow_add_r by lia. f_equal. lia. }
    rewrite HB. apply Z.mul_le_mono_nonneg_r; [apply Z.pow_nonneg |]; lia. }
  destruct (2 ^ 52 * 2 ^ (-52 - e) - Zpos m) as [|d|d]; cbn [binary_normalize].
  - now left.
  - now apply binary_round_le_one.
  - lia.
Qed.

Lemma Prim2SF_infinity : Prim2SF infinity = S754_infinity false.
Proof. reflexivity. Qed.

Lemma SFeqb_refl_finite (s : bool) (m : positive) (e : Z) :
  SFeqb (S754_finite s m e) (S754_finite s m e) = true.
Proof.
  unfold SFeqb, SFcompare. rewrite Z.compare_refl.
  change (Pos.compare_cont Eq m m) with (m ?= m)%positive.
  rewrite Pos.compare_refl. now destruct s.
Qed.

(** [Number.isFinite], on the specification side. *)
Lemma is_finite_spec (x : float) :
  is_finite x = match Prim2SF x with
                | S754_nan | S754_infinity _ => false
                | _ => true
                end.
Proof.
  unfold is_finite, is_nan, is_infinity.
  rewrite !FloatAxioms.eqb_spec, abs_spec, Prim2SF_infinity.
  destruct (Prim2SF x) as [[|]|[|]| |s m e]; try reflexivity.
  rewrite SFeqb_refl_finite. reflexivity.
Qed.

(** A positive number at most 1 compares so with 1. *)
Lemma le_one_not_above (m : positive) (e : Z) :
  bounded prec emax m e = true -> le_one (Zpos m) e ->
  SFltb (S754_finite false 4503599627370496 (-52)) (S754_finite false m e) = false.
Proof.
  intros Hb [He Hv]. unfold SFltb, SFcompare.
  destruct (Z.compare_spec (-52) e) as [<- | H | H]; [| | reflexivity].
  - change (Pos.compare_cont Eq 4503599627370496 m) with (4503599627370496 ?= m)%positive.
    destruct (4503599627370496 ?= m)%positive eqn:E; try reflexivity.
    apply Pos.compare_lt_iff, Pos2Z.pos_lt_pos in E.
    exfalso. change (Zpos 4503599627370496) with (2 ^ 52) in E.
    replace (2 ^ 1074) with (2 ^ 52 * 2 ^ (-52 + 1074)) in Hv
      by (rewrite <- Z.pow_add_r by lia; reflexivity).
    assert (0 < 2 ^ (-52 + 1074)) by (apply Z.pow_pos_nonneg; lia).
    generalize dependent (2 ^ (-52 + 1074)). generalize dependent (2 ^ 52).
    intros. nia.
  - exfalso. unfold bounded, canonical_mantissa in Hb.
    apply andb_prop in Hb as [Hb _]. apply Z.eqb_eq in Hb.
    pose proof (digits2_pos_bounds m) as [Hd _].
    unfold fexp, SpecFloat.emin, prec, emax in Hb.
    assert (Hdig : Zpos (digits2_pos m) = 53) by lia.
    rewrite Hdig in Hd. change (2 ^ (53 - 1)) with (2 ^ 52) in Hd.
    assert (Hpw : 2 ^ 1023 <= 2 ^ (e + 1074)) by (apply Z.pow_le_mono_r; lia).
    assert (HB : 2 ^ 1074 < 2 ^ 52 * 2 ^ 1023).
    { rewrite <- Z.pow_add_r by lia. apply Z.pow_lt_mono_r; lia. }
    assert (0 < 2 ^ 1023) by (apply Z.pow_pos_nonneg; lia).
    assert (0 < 2 ^ 52) by (apply Z.pow_pos_nonneg; lia).
    assert (2 ^ 52 * 2 ^ 1023 <= Zpos m * 2 ^ (e + 1074)).
    { apply Z.mul_le_mono_nonneg; lia. }
    lia.
Qed.

(** The conjugate of a number of [0, 1] is a number of [0, 1]. *)
Lemma sub_one_unit_interval (p : float) :
  (0 <=? p)%float = true -> is_finite p = true -> (1 <? p)%float = false ->
  (0 <=? 1 - p)%float = true
  /\ is_finite (1 - p)%float = true
  /\ (1 <? 1 - p)%float = false.
Proof.
  rewrite !FloatAxioms.leb_spec, !FloatAxioms.ltb_spec, !is_finite_spec, sub_spec.
  pose proof (Prim2SF_valid (1 - p)%float) as Hvalid. rewrite sub_spec in Hvalid.
  change (Prim2SF 1) with (S754_finite false 4503599627370496 (-52)) in *.
  change (Prim2SF 0) with (S754_zero false) in *.
  pose proof (Prim2SF_valid p) as Hp.
  destruct (Prim2SF p) as [s|s| |[|] m e]; try discriminate.
  - intros _ _ _. destruct s; repeat split; reflexivity.
  - intros _ _ Hlt. cbn [SpecFloat.valid_binary] in Hp.
    destruct (SFsub_one_le_one m e Hp Hlt) as [-> | (m' & e' & E & Hone)].
    + repeat split; reflexivity.
    + rewrite E in *. cbn [SpecFloat.valid_binary] in Hvalid.
      split; [reflexivity |]. split; [reflexivity |].
      now apply le_one_not_above.
Qed.

End Rounding.

(** ** Percentage: properties *)

Lemma constructed_nonneg (p : Percentage.t) :
  Percentage.constructed p -> (0 <=? Percentage.valueOf p)%float = true.
Proof.
  unfold Percentage.constructed, Percentage.new, JSNumber.assertType.
  destruct (0 <=? Percentage.valueOf p)%float; [reflexivity | discriminate].
Qed.

Lemma constructed_finite (p : Percentage.t) :
  Percentage.constructed p -> JSNumber.isFinite (Percentage.valueOf p) = true.
Proof.
  unfold Percentage.constructed, Percentage.new, JSNumber.assertType.
  destruct (0 <=? Percentage.valueOf p)%float; [cbn | discriminate].
  destruct (JSNumber.isFinite (Percentage.valueOf p)); [reflexivity | discriminate].
Qed.

Lemma SFleb_not_SFltb (x y : spec_float) :
  SFleb x y = true -> SFltb y x = false.
Proof.
  unfold SFleb, SFltb.
  destruct x as [[|]|[|]| |[|] m e], y as [[|]|[|]| |[|] m' e'];
    cbn [SFcompare]; try reflexivity; try discriminate;
    rewrite (Z.compare_antisym e e');
    change (Pos.compare_cont Eq m' m) with (m' ?= m)%positive;
    change (Pos.compare_cont Eq m m') with (m ?= m')%positive;
    rewrite (Pos.compare_antisym m m');
    destruct (e ?= e'); cbn [CompOpp]; try reflexivity; try discriminate;
    destruct (m ?= m')%positive; cbn [CompOpp]; try reflexivity; discriminate.
Qed.

Lemma leb_one_not_ltb (x : float) :
  (x <=? 1)%float = true -> (1 <? x)%float = false.
Proof.
  rewrite FloatAxioms.leb_spec, FloatAxioms.ltb_spec. apply SFleb_not_SFltb.
Qed.

(** The conjugate of a Percentage that is not above 1: the range check passes,
    the constructor accepts [1 - p], and the conjugate is not above 1 either. *)
Lemma conjugate_in_range (p : Percentage.t) :
  Percentage.constructed p ->
  (1 <? Percentage.valueOf p)%float = false ->
  Percentage.conjugate p = Ok (Percentage.Box (1 - Percentage.valueOf p)%float)
  /\ Percentage.constructed (Percentage.Box (1 - Percentage.valueOf p)%float)
  /\ (1 <? 1 - Percentage.valueOf p)%float = false.
Proof.
  intros Hp H1.
  pose proof (constructed_nonneg p Hp) as H0.
  pose proof (constructed_finite p Hp) as Hf.
  destruct (sub_one_unit_interval _ H0 Hf H1) as (Ha & Hb & Hc).
  assert (Hnew : Percentage.new (1 - Percentage.valueOf p)%float
                 = Ok (Percentage.Box (1 - Percentage.valueOf p)%float)).
  { unfold Percentage.new, JSNumber.assertType, JSNumber.isFinite.
    now rewrite Ha, Hb. }
  split; [| split; [exact Hnew | exact Hc]].
  unfold Percentage.conjugate. now rewrite (leb_zero_not_ltb _ H0), H1.
Qed.

(** C2, as the code has it: the reciprocal of a Percentage whose value is zero
    ([p === 0], either sign) throws.  [MULT_IDEN / p] is an infinity, and the
    constructor that [reciprocal] hands it to rejects it with its domain
    error. *)
Theorem reciprocal_zero_throws (p : Percentage.t) :
  Percentage.constructed p ->
  JSNumber.is_zero (Percentage.valueOf p) = true ->
  JSNumber.isFinite (Percentage.valueOf Percentage.MULT_IDEN / Percentage.valueOf p)%float = false
  /\ Percentage.reciprocal p = Throw DomainError.
Proof.
  intros _ Hz. unfold Percentage.reciprocal.
  destruct (eqb_zero_inv _ Hz) as [-> | ->]; split; reflexivity.
Qed.

Lemma reciprocal_zero_throws_witness :
  Percentage.constructed Percentage.MULT_ABSORB /\
  Percentage.reciprocal Percentage.MULT_ABSORB = Throw DomainError.
Proof.
  split; [reflexivity |].
  apply (reciprocal_zero_throws Percentage.MULT_ABSORB); reflexivity.
Defined.

(** C2, as the specification words it, fails at the zero Percentage: no
    Percentage is returned. *)
Lemma reciprocal_zero_no_value :
  ~ exists q, Percentage.reciprocal Percentage.MULT_ABSORB = Ok q.
Proof. intros [q Hq]. vm_compute in Hq. discriminate. Qed.



(** Decides the integer comparisons of the goal that [lia] can settle. *)
Ltac zcompare :=
  repeat match goal with
    | |- context [Z.eqb ?a ?b] =>
        first [ rewrite (proj2 (Z.eqb_neq a b)) by lia
              | rewrite (proj2 (Z.eqb_eq a b)) by lia ]
    | |- context [Z.ltb ?a ?b] =>
        first [ rewrite (proj2 (Z.ltb_ge a b)) by lia
              | rewrite (proj2 (Z.ltb_lt a b)) by lia ]
    | |- context [Z.leb ?a ?b] =>
        first [ rewrite (proj2 (Z.leb_gt a b)) by lia
              | rewrite (proj2 (Z.leb_le a b)) by lia ]
    end.

(** ** Arrays: properties *)

Section ArrayFacts.

Lemma set_length_length (n : nat) (a : list slot) :
  length (JSArray.set_length n a) = n.
Proof.
  unfold JSArray.set_length.
  rewrite length_app, length_take, length_replicate. lia.
Qed.

Lemma set_length_same (a : list slot) :
  JSArray.set_length (length a) a = a.
Proof.
  unfold JSArray.set_length.
  rewrite firstn_all, Nat.sub_diag. apply app_nil_r.
Qed.

Lemma set_length_idemp (n : nat) (a : list slot) :
  JSArray.set_length n (JSArray.set_length n a) = JSArray.set_length n a.
Proof.
  rewrite <- (set_length_length n a) at 1. apply set_length_same.
Qed.

Lemma spread_length (a : list slot) : length (JSArray.spread a) = length a.
Proof. apply length_map. Qed.

Lemma spread_cells (r : list float) :
  JSArray.spread (List.map Cell r) = List.map Cell r.
Proof.
  unfold JSArray.spread. rewrite map_map. reflexivity.
Qed.

Lemma get_cells (r : list float) (j : nat) (x : float) :
  r !! j = Some x -> JSArray.get (List.map Cell r) j = VNum x.
Proof.
  revert j. induction r as [|y r IH]; intros [|j] H; try discriminate.
  - injection H as ->. reflexivity.
  - apply (IH j H).
Qed.

(** [map] over an array without holes or [undefined]: the callback runs on
    every number, in order. *)
Lemma map_from_cells (f : value -> nat -> result float) (g : nat -> float -> float)
      (r : list float) (i : nat) :
  (forall j x, r !! j = Some x -> f (VNum x) (i + j)%nat = Ok (g (i + j)%nat x)) ->
  JSArray.map_from i f (List.map Cell r)
  = Ok (List.map Cell (imap (fun j => g (i + j)%nat) r)).
Proof.
  revert i g. induction r as [|x r IH]; intros i g H; [reflexivity |].
  cbn [List.map JSArray.map_from read imap].
  rewrite <- (Nat.add_0_r i) at 1. rewrite (H 0%nat x eq_refl). cbn [bind].
  rewrite (IH (S i) g).
  - cbn [bind List.map]. do 3 f_equal.
    apply imap_ext. intros j y _. cbn. f_equal. lia.
  - intros j y Hj. replace (S i + j)%nat with (i + S j)%nat by lia.
    apply H. exact Hj.
Qed.

(** The callback is all that [map] looks at. *)
Lemma map_from_ext (f f' : value -> nat -> result float) (a : list slot) (i : nat) :
  (forall v j, f v j = f' v j) ->
  JSArray.map_from i f a = JSArray.map_from i f' a.
Proof.
  intros H. revert i. induction a as [|s a IH]; intros i; [reflexivity |].
  destruct s; cbn [JSArray.map_from]; rewrite ?H, (IH (S i)); reflexivity.
Qed.

Lemma fold_add_cells (ts : list float) (x : float) :
  fold_left (fun x y => VNum (ToNumber x + ToNumber y)%float)
            (JSArray.present (List.map Cell ts)) (VNum x)
  = VNum (fold_left (fun x y => (x + y)%float) ts x).
Proof.
  revert x. induction ts as [|t ts IH]; intros x; [reflexivity |].
  cbn. apply IH.
Qed.

Lemma reduce_add_cells (ts : list float) :
  ts <> [] ->
  JSArray.reduce_add (List.map Cell ts) = Ok (VNum (Spec.reduce_sum ts)).
Proof.
  destruct ts as [|t ts]; [congruence | intros _].
  unfold JSArray.reduce_add. cbn [List.map JSArray.present read].
  rewrite fold_add_cells. reflexivity.
Qed.

End ArrayFacts.

(** ** The constructor of MatrixSquare: properties *)

Section ConstructorFacts.

Lemma new_length (d : MatrixSquare.data) :
  length (MatrixSquare.new d) = length (MatrixSquare.rawdata_of d).
Proof. unfold MatrixSquare.new, Matrix.new. apply length_map. Qed.

(** Every row of a constructed MatrixSquare has as many slots as there are
    rows. *)
Lemma new_square (d : MatrixSquare.data) : MatrixSquare.square (MatrixSquare.new d).
Proof.
  unfold MatrixSquare.square. rewrite new_length.
  unfold MatrixSquare.new, Matrix.new.
  apply Forall_forall. intros row Hrow.
  apply list_elem_of_In, in_map_iff in Hrow as (a & <- & _).
  apply set_length_length.
Qed.

Lemma size_length (this : MatrixSquare.t) :
  MatrixSquare.size this = Z.of_nat (length this).
Proof. reflexivity. Qed.

Lemma square_width (this : MatrixSquare.t) :
  MatrixSquare.square this -> Matrix.width this = Z.of_nat (length this).
Proof.
  destruct this as [|row rows]; [reflexivity |].
  intros H. apply Forall_inv in H. cbn [Matrix.width]. now rewrite H.
Qed.

(** Wrapping a grid that is square already changes no length. *)
Lemma forEach_body_square (m : list (list slot)) :
  MatrixSquare.square m ->
  List.map (MatrixSquare.forEach_body (length m)) m = m.
Proof.
  unfold MatrixSquare.square. generalize (length m) as n. intros n H.
  induction H as [|row rows Hrow _ IH]; [reflexivity |].
  cbn [List.map]. rewrite IH. unfold MatrixSquare.forEach_body.
  rewrite <- Hrow, set_length_same. reflexivity.
Qed.

Lemma cells_square (n : nat) (g : list (list float)) :
  Spec.square n g -> MatrixSquare.square (Spec.cells g) /\ length (Spec.cells g) = n.
Proof.
  intros [Hn Hrows]. unfold MatrixSquare.square, Spec.cells.
  rewrite length_map, Hn. split; [| reflexivity].
  apply Forall_forall. intros row Hrow.
  apply list_elem_of_In, in_map_iff in Hrow as (r & <- & Hr).
  rewrite length_map.
  exact (proj1 (Forall_forall _ _) Hrows r (proj2 (list_elem_of_In _ _) Hr)).
Qed.

Lemma spread_all_cells (g : list (list float)) :
  List.map (fun row => JSArray.spread row) (Spec.cells g) = Spec.cells g.
Proof.
  unfold Spec.cells. rewrite map_map. apply map_ext. intros r. apply spread_cells.
Qed.

(** The constructor, given a Matrix or rows that hold a square grid of
    numbers, stores that grid. *)
Lemma new_FromMatrix_cells (n : nat) (g : list (list float)) :
  Spec.square n g ->
  MatrixSquare.new (MatrixSquare.FromMatrix (Spec.cells g)) = Spec.cells g.
Proof.
  intros H. unfold MatrixSquare.new, Matrix.new, MatrixSquare.rawdata_of, Matrix.raw.
  rewrite spread_all_cells.
  apply forEach_body_square. exact (proj1 (cells_square n g H)).
Qed.

Lemma rawdata_of_arrays (m : list (list slot)) :
  MatrixSquare.rawdata_of (MatrixSquare.FromRows (List.map MatrixSquare.RowArray m)) = m.
Proof.
  cbn [MatrixSquare.rawdata_of]. induction m as [|row m IH]; [reflexivity |].
  cbn [List.map]. now rewrite IH.
Qed.

Lemma new_FromRows_cells (n : nat) (g : list (list float)) :
  Spec.square n g ->
  MatrixSquare.new (MatrixSquare.FromRows (List.map MatrixSquare.RowArray (Spec.cells g)))
  = Spec.cells g.
Proof.
  intros H. unfold MatrixSquare.new, Matrix.new.
  rewrite rawdata_of_arrays.
  apply forEach_body_square. exact (proj1 (cells_square n g H)).
Qed.

End ConstructorFacts.

(** ** The determinant: properties *)

Section DetFacts.

Lemma Matrix_minor_length (this m : Matrix.t) (row col : Z) :
  Matrix.minor this row col = Ok m -> S (length m) = length this.
Proof.
  unfold Matrix.minor, Matrix.height.
  destruct (_ || _)%bool; [discriminate |].
  destruct (_ || _)%bool eqn:E; [discriminate |].
  intros [= <-]. rewrite length_map.
  apply orb_false_elim in E as [E _]. apply orb_false_elim in E as [E _].
  apply orb_false_elim in E as [E1 E2].
  rewrite length_delete; [lia |].
  apply lookup_lt_is_Some. lia.
Qed.

(** A minor of a MatrixSquare is a MatrixSquare with one row less. *)
Lemma minor_length (this m : MatrixSquare.t) (row col : Z) :
  MatrixSquare.minor this row col = Ok m ->
  S (length m) = length this /\ MatrixSquare.square m.
Proof.
  unfold MatrixSquare.minor.
  destruct (Matrix.minor this row col) as [m'|] eqn:E; [| discriminate].
  intros [= <-]. split; [| apply new_square].
  rewrite new_length. cbn [MatrixSquare.rawdata_of]. rewrite length_map.
  exact (Matrix_minor_length _ _ _ _ E).
Qed.

(** The bound on the depth only has to exceed the number of rows. *)
Lemma det_fuel_enough (f1 f2 : nat) (this : MatrixSquare.t) :
  (length this < f1)%nat -> (length this < f2)%nat ->
  MatrixSquare.det_fuel f1 this = MatrixSquare.det_fuel f2 this.
Proof.
  revert f2 this. induction f1 as [|f1 IH]; intros f2 this H1 H2; [lia |].
  destruct f2 as [|f2]; [lia |].
  cbn [MatrixSquare.det_fuel].
  destruct (MatrixSquare.size this =? 0); [reflexivity |].
  destruct (MatrixSquare.size this =? 1); [reflexivity |].
  f_equal. apply map_from_ext. intros v j.
  destruct (MatrixSquare.minor this 0 (Z.of_nat j)) as [m|e] eqn:E; [| reflexivity].
  cbn [bind]. apply minor_length in E as [E _].
  rewrite (IH f2 m); [reflexivity | lia | lia].
Qed.

(** The equation of [det]: the body of the getter, the recursive calls being
    [det] itself. *)
Lemma det_unfold (this : MatrixSquare.t) :
  MatrixSquare.det this =
  if MatrixSquare.size this =? 0 then Throw TypeError
  else if MatrixSquare.size this =? 1 then Matrix.at_ this 0 0
  else
    let* terms :=
      JSArray.map (fun cell j =>
        let* m := MatrixSquare.minor this 0 (Z.of_nat j) in
        let* d := MatrixSquare.det m in
        Ok (sign j * ToNumber cell * ToNumber d)%float)
        (default [] (this !! 0%nat)) in
    JSArray.reduce_add terms.
Proof.
  unfold MatrixSquare.det at 1. cbn [MatrixSquare.det_fuel].
  destruct (MatrixSquare.size this =? 0); [reflexivity |].
  destruct (MatrixSquare.size this =? 1); [reflexivity |].
  f_equal. apply map_from_ext. intros v j.
  destruct (MatrixSquare.minor this 0 (Z.of_nat j)) as [m|e] eqn:E; [| reflexivity].
  cbn [bind]. apply minor_length in E as [E _].
  unfold MatrixSquare.det. rewrite (det_fuel_enough (length this) (S (length m))); [reflexivity | lia | lia].
Qed.

(** [det] always returns or throws: the bound of the model is never reached. *)
Lemma det_fuel_total (fuel : nat) (this : MatrixSquare.t) :
  (length this < fuel)%nat -> MatrixSquare.det_fuel fuel this <> Throw OutOfFuel.
Proof.
  revert this. induction fuel as [|fuel IH]; intros this H; [lia |].
  cbn [MatrixSquare.det_fuel].
  destruct (MatrixSquare.size this =? 0); [discriminate |].
  destruct (MatrixSquare.size this =? 1).
  { unfold Matrix.at_. destruct (_ || _)%bool; discriminate. }
  unfold JSArray.map.
  assert (Hcb : forall cell j,
    (let* m := MatrixSquare.minor this 0 (Z.of_nat j) in
     let* d := MatrixSquare.det_fuel fuel m in
     Ok (sign j * ToNumber cell * ToNumber d)%float) <> Throw OutOfFuel).
  { intros cell j.
    destruct (MatrixSquare.minor this 0 (Z.of_nat j)) as [m|e] eqn:E.
    - cbn [bind]. apply minor_length in E as [E _].
      specialize (IH m ltac:(lia)).
      destruct (MatrixSquare.det_fuel fuel m) as [d|e]; cbn [bind]; congruence.
    - cbn [bind]. revert E. unfold MatrixSquare.minor, Matrix.minor.
      destruct (_ || _)%bool; [cbn; congruence |].
      destruct (_ || _)%bool; cbn; congruence. }
  assert (Hmap : forall a i,
    JSArray.map_from i (fun cell j =>
       let* m := MatrixSquare.minor this 0 (Z.of_nat j) in
       let* d := MatrixSquare.det_fuel fuel m in
       Ok (sign j * ToNumber cell * ToNumber d)%float) a <> Throw OutOfFuel).
  { induction a as [|s a IHa]; intros i; [discriminate |].
    specialize (IHa (S i)).
    destruct s; cbn [JSArray.map_from].
    - destruct (JSArray.map_from _ _ a); cbn [bind]; congruence.
    - specialize (Hcb (read Undef) i).
      destruct (bind (MatrixSquare.minor this 0 (Z.of_nat i)) _); cbn [bind]; [| congruence].
      destruct (JSArray.map_from _ _ a); cbn [bind]; congruence.
    - specialize (Hcb (read (Cell x)) i).
      destruct (bind (MatrixSquare.minor this 0 (Z.of_nat i)) _); cbn [bind]; [| congruence].
      destruct (JSArray.map_from _ _ a); cbn [bind]; congruence. }
  specialize (Hmap (default [] (this !! 0%nat)) 0%nat).
  destruct (JSArray.map_from _ _ _) as [terms|e]; cbn [bind]; [| congruence].
  unfold JSArray.reduce_add. destruct (JSArray.present terms); discriminate.
Qed.

Lemma det_total (this : MatrixSquare.t) : MatrixSquare.det this <> Throw OutOfFuel.
Proof. apply det_fuel_total. lia. Qed.

Lemma sign_neg_one_pow (j : nat) : sign j = Spec.neg_one_pow j.
Proof.
  unfold sign. induction j as [|j IH]; [reflexivity |].
  cbn [Spec.neg_one_pow]. rewrite <- IH, Nat.even_succ, <- Nat.negb_even.
  destruct (Nat.even j); reflexivity.
Qed.

Lemma delete_cells (r : list float) (j : nat) :
  delete j (List.map Cell r) = List.map Cell (delete j r).
Proof.
  revert j. induction r as [|x r IH]; intros [|j]; try reflexivity.
  cbn. now rewrite <- IH.
Qed.

Lemma minor0_square (k : nat) (g : list (list float)) (j : nat) :
  Spec.square (S k) g -> (j < S k)%nat -> Spec.square k (Spec.minor0 g j).
Proof.
  intros [Hn Hrows] Hj. destruct g as [|r0 g]; [discriminate |].
  unfold Spec.minor0, Spec.square. cbn [tail]. rewrite length_map.
  split; [cbn in Hn; lia |].
  apply Forall_inv_tail in Hrows.
  apply List.Forall_map. revert Hrows. apply List.Forall_impl. intros r Hr.
  rewrite length_delete; [lia |]. apply lookup_lt_is_Some. lia.
Qed.

(** On a square grid of numbers, [minor(0, j)] is the grid without row 0 and
    column [j], a MatrixSquare again. *)
Lemma minor_cells (k : nat) (g : list (list float)) (j : nat) :
  Spec.square (S k) g -> (j < S k)%nat ->
  MatrixSquare.minor (Spec.cells g) 0 (Z.of_nat j) = Ok (Spec.cells (Spec.minor0 g j)).
Proof.
  intros Hsq Hj. pose proof (minor0_square k g j Hsq Hj) as Hm.
  pose proof (cells_square _ _ Hsq) as [Hc Hlen].
  unfold MatrixSquare.minor, Matrix.minor, Matrix.height.
  rewrite (square_width _ Hc), Hlen.
  zcompare. cbn [orb bind]. rewrite Nat2Z.id. f_equal.
  replace (List.map (delete j) (delete (Z.to_nat 0) (Spec.cells g)))
    with (Spec.cells (Spec.minor0 g j)).
  - exact (new_FromMatrix_cells k _ Hm).
  - destruct g as [|r0 g]; [destruct Hsq; discriminate |].
    unfold Spec.cells, Spec.minor0. change (Z.to_nat 0) with 0%nat.
    cbn [tail List.map delete list_delete].
    rewrite !map_map. apply map_ext. intros r. symmetry. apply delete_cells.
Qed.

(** [MatrixSquare.det] refines the determinant of the specification: on a
    square grid of numbers it returns the cofactor expansion. *)
Lemma det_refines (k : nat) (g : list (list float)) :
  Spec.square (S k) g ->
  MatrixSquare.det (Spec.cells g) = Ok (VNum (Spec.det k g)).
Proof.
  revert g. induction k as [|k IH]; intros g Hsq.
  - destruct Hsq as [Hn Hrows].
    destruct g as [|r0 [|r1 g]]; try discriminate.
    apply Forall_inv in Hrows. destruct r0 as [|x [|y r0]]; try discriminate.
    reflexivity.
  - rewrite det_unfold, size_length.
    pose proof (cells_square _ _ Hsq) as [_ Hlen]. rewrite Hlen.
    zcompare.
    destruct Hsq as [Hn Hrows].
    destruct g as [|r0 g]; [discriminate |].
    pose proof (Forall_inv Hrows) as Hr0.
    cbn [Spec.cells List.map lookup list_lookup default from_option]. unfold id.
    unfold JSArray.map.
    rewrite (map_from_cells _
      (fun j x => (Spec.neg_one_pow j * x * Spec.det k (Spec.minor0 (r0 :: g) j))%float)).
    + cbn [bind]. rewrite reduce_add_cells.
      * cbn [Spec.det head default from_option]. unfold id. reflexivity.
      * destruct r0; [discriminate | discriminate].
    + intros j x Hx. cbn [Nat.add].
      assert (Hj : (j < S (S k))%nat).
      { rewrite <- Hr0. apply lookup_lt_is_Some. eauto. }
      change (List.map Cell r0 :: List.map (List.map Cell) g) with (Spec.cells (r0 :: g)).
      rewrite (minor_cells (S k) (r0 :: g) j (conj Hn Hrows) Hj). cbn [bind].
      rewrite (IH _ (minor0_square (S k) (r0 :: g) j (conj Hn Hrows) Hj)). cbn [bind ToNumber].
      rewrite sign_neg_one_pow. reflexivity.
Qed.

End DetFacts.

(** ** Operations on square matrices: properties *)

Section ClosureFacts.

Lemma transposition_length (this : MatrixSquare.t) :
  MatrixSquare.square this ->
  length (Matrix.transposition this) = length this.
Proof.
  intros H. unfold Matrix.transposition.
  rewrite length_map, length_seq, (square_width _ H). apply Nat2Z.id.
Qed.

Lemma transposition_square (this : MatrixSquare.t) :
  MatrixSquare.square this ->
  MatrixSquare.square (Matrix.transposition this).
Proof.
  intros H. unfold MatrixSquare.square. rewrite (transposition_length _ H).
  unfold Matrix.transposition. apply List.Forall_map, Forall_forall.
  intros i _. apply length_map.
Qed.

Lemma scale_length (this : Matrix.t) (scalar : float) :
  length (MatrixSquare.scale this scalar) = length this.
Proof.
  unfold MatrixSquare.scale. rewrite new_length. cbn [MatrixSquare.rawdata_of].
  unfold Matrix.raw, Matrix.scale. now rewrite !length_map.
Qed.

Lemma times_square (this B : MatrixSquare.t) :
  MatrixSquare.square this ->
  MatrixSquare.size B = MatrixSquare.size this ->
  exists m, Matrix.times this B = Ok m /\ length m = length this.
Proof.
  intros H HB. unfold Matrix.times.
  rewrite (square_width _ H). unfold MatrixSquare.size in HB. rewrite HB.
  unfold Matrix.height. rewrite Z.eqb_refl.
  eexists. split; [reflexivity |]. apply length_map.
Qed.

Lemma spread_dense (row : list slot) :
  Forall (fun s => exists x, s = Cell x) row -> JSArray.spread row = row.
Proof.
  induction 1 as [|s row [x ->] _ IH]; [reflexivity |].
  cbn [JSArray.spread List.map]. f_equal. exact IH.
Qed.

(** Handing a square grid of numbers to the constructor gives that grid. *)
Lemma new_FromMatrix_dense (m : Matrix.t) :
  MatrixSquare.square m -> MatrixSquare.dense m ->
  MatrixSquare.new (MatrixSquare.FromMatrix m) = m.
Proof.
  intros Hsq Hd. unfold MatrixSquare.new, Matrix.new, MatrixSquare.rawdata_of, Matrix.raw.
  assert (E : List.map (fun row => JSArray.spread row) m = m).
  { unfold MatrixSquare.dense in Hd. clear Hsq.
    induction Hd as [|row m Hrow _ IH]; [reflexivity |].
    cbn [List.map]. now rewrite IH, (spread_dense row Hrow). }
  rewrite E. now apply forEach_body_square.
Qed.

Lemma transposition_dense (this : MatrixSquare.t) :
  MatrixSquare.square this -> MatrixSquare.dense this ->
  MatrixSquare.dense (Matrix.transposition this).
Proof.
  intros Hsq Hd. unfold MatrixSquare.dense, Matrix.transposition.
  rewrite (square_width _ Hsq), Nat2Z.id.
  apply List.Forall_map, Forall_forall. intros i Hi.
  apply list_elem_of_In, in_seq in Hi.
  apply List.Forall_map, Forall_forall. intros row Hrow.
  pose proof (proj1 (Forall_forall _ _) Hsq row Hrow) as Hlen. cbn beta in Hlen.
  pose proof (proj1 (Forall_forall _ _) Hd row Hrow) as Hcells.
  destruct (row !! i) as [s|] eqn:E.
  - cbn. apply (proj1 (Forall_forall _ _) Hcells s).
    apply list_elem_of_lookup. eauto.
  - apply lookup_ge_None in E. lia.
Qed.

End ClosureFacts.

(** ** The claims on MatrixSquare *)

(** C1, as the code has it: [reciprocal] fails with a TypeError when the
    determinant is zero, and also for the matrix of size 0, for which the
    getter [det], read first, throws: the branch that would return the empty
    MatrixSquare is never reached. *)
Theorem reciprocal_throws (this : MatrixSquare.t) :
  (forall d, MatrixSquare.det this = Ok d -> strict_eq_zero d = true ->
             MatrixSquare.reciprocal this = Throw TypeError)
  /\ (MatrixSquare.size this = 0 ->
      MatrixSquare.det this = Throw TypeError
      /\ MatrixSquare.reciprocal this = Throw TypeError).
Proof.
  split.
  - intros d Hd Hz. unfold MatrixSquare.reciprocal. rewrite Hd. cbn [bind].
    now rewrite Hz.
  - intros H0.
    assert (Hd : MatrixSquare.det this = Throw TypeError).
    { rewrite det_unfold, H0. reflexivity. }
    split; [exact Hd |].
    unfold MatrixSquare.reciprocal. rewrite Hd. reflexivity.
Qed.

Lemma reciprocal_throws_witness :
  MatrixSquare.reciprocal [[Cell 1; Cell 2]; [Cell 2; Cell 4]] = Throw TypeError
  /\ MatrixSquare.reciprocal [] = Throw TypeError.
Proof.
  split.
  - apply (proj1 (reciprocal_throws [[Cell 1; Cell 2]; [Cell 2; Cell 4]]) (VNum 0));
      reflexivity.
  - apply (proj2 (reciprocal_throws [])). reflexivity.
Defined.

(** C1, as the specification words it, fails at the empty MatrixSquare: its
    reciprocal is no matrix. *)
Lemma reciprocal_empty_no_value :
  ~ exists m, MatrixSquare.reciprocal (MatrixSquare.new (MatrixSquare.FromRows [])) = Ok m.
Proof. intros [m Hm]. vm_compute in Hm. discriminate. Qed.

(** C3: the matrix [[1,2],[3,4]] has determinant -2.  Its reciprocal is not
    [[-2,1],[1.5,-0.5]]: [this.transposition] is the instance of Matrix that
    the getter of Matrix built, each of its minors is an instance of Matrix,
    reading [det] of one gives [undefined], and every cell of the result is
    [NaN].  With the transposition handed to the constructor of MatrixSquare,
    as [minor], [scale] and [times] hand their results, the cofactors are those
    of the claimed matrix. *)
Theorem reciprocal_1234_not_a_number :
  let A := MatrixSquare.new (MatrixSquare.FromRows
             [MatrixSquare.RowArray [Cell 1; Cell 2];
              MatrixSquare.RowArray [Cell 3; Cell 4]]) in
  let T := MatrixSquare.instance
             (MatrixSquare.new (MatrixSquare.FromMatrix (Matrix.transposition A))) in
  MatrixSquare.det A = Ok (VNum (-2))
  /\ class_of (MatrixSquare.transposition A) = ClassMatrix
  /\ (let* m := MatrixSquare.invoke_minor (MatrixSquare.transposition A) 0 0 in
      MatrixSquare.invoke_det m) = Ok VUndef
  /\ (let* m := MatrixSquare.invoke_minor (MatrixSquare.transposition A) 0 1 in
      MatrixSquare.invoke_det m) = Ok VUndef
  /\ (let* m := MatrixSquare.invoke_minor (MatrixSquare.transposition A) 1 0 in
      MatrixSquare.invoke_det m) = Ok VUndef
  /\ (let* m := MatrixSquare.invoke_minor (MatrixSquare.transposition A) 1 1 in
      MatrixSquare.invoke_det m) = Ok VUndef
  /\ MatrixSquare.reciprocal A = Ok [[Cell nan; Cell nan]; [Cell nan; Cell nan]]
  /\ MatrixSquare.reciprocal A <> Ok [[Cell (-2); Cell 1]; [Cell 1.5; Cell (-0.5)]]
  /\ (let* m := MatrixSquare.invoke_minor T 0 0 in MatrixSquare.invoke_det m) = Ok (VNum 4)
  /\ (let* m := MatrixSquare.invoke_minor T 0 1 in MatrixSquare.invoke_det m) = Ok (VNum 2)
  /\ (let* m := MatrixSquare.invoke_minor T 1 0 in MatrixSquare.invoke_det m) = Ok (VNum 3)
  /\ (let* m := MatrixSquare.invoke_minor T 1 1 in MatrixSquare.invoke_det m) = Ok (VNum 1).
Proof.
  cbv zeta. split; [vm_compute; reflexivity |]. split; [reflexivity |].
  do 4 (split; [reflexivity |]).
  split; [vm_compute; reflexivity |].
  split; [vm_compute; discriminate |].
  repeat split; vm_compute; reflexivity.
Qed.

(** The determinant where every cell is a number: [det] fails with a TypeError
    on the matrix of size 0; on a matrix of size 1 it is the value of the
    single cell; on a larger matrix every [minor(0, j)] is a MatrixSquare of
    size one less, and on a grid of numbers [det] is the sum over [j], from the
    left, of [(-1)^j * cell[0][j] * minor(0, j).det]. *)
Theorem det_cofactor_expansion (this : MatrixSquare.t) :
  MatrixSquare.square this ->
  (MatrixSquare.size this = 0 -> MatrixSquare.det this = Throw TypeError)
  /\ (MatrixSquare.size this = 1 ->
      exists s, this = [[s]] /\ MatrixSquare.det this = Ok (read s))
  /\ (2 <= MatrixSquare.size this ->
      (forall j, (j < length this)%nat ->
         exists m, MatrixSquare.minor this 0 (Z.of_nat j) = Ok m
                   /\ MatrixSquare.square m
                   /\ MatrixSquare.size m = MatrixSquare.size this - 1)
      /\ forall g, this = Spec.cells g ->
         exists (row0 : list float) (d : nat -> float),
           head g = Some row0
           /\ Z.of_nat (length row0) = MatrixSquare.size this
           /\ (forall j, (j < length row0)%nat ->
                 exists m, MatrixSquare.minor this 0 (Z.of_nat j) = Ok m
                           /\ MatrixSquare.det m = Ok (VNum (d j)))
           /\ MatrixSquare.det this
              = Ok (VNum (Spec.reduce_sum
                            (imap (fun j cell => (Spec.neg_one_pow j * cell * d j)%float)
                                  row0)))).
Proof.
  intros Hsq. split; [| split].
  - intros H0. rewrite det_unfold, H0. reflexivity.
  - intros H1. rewrite det_unfold, H1. cbn [Z.eqb Pos.eqb].
    rewrite size_length in H1.
    destruct this as [|r0 [|r1 this]]; cbn [length] in H1; try lia.
    apply Forall_inv in Hsq. destruct r0 as [|s [|s' r0]]; try discriminate.
    exists s. split; reflexivity.
  - intros H2. rewrite size_length in H2.
    assert (Hminor : forall j, (j < length this)%nat ->
              exists m, MatrixSquare.minor this 0 (Z.of_nat j) = Ok m
                        /\ MatrixSquare.square m
                        /\ MatrixSquare.size m = MatrixSquare.size this - 1).
    { intros j Hj.
      destruct (MatrixSquare.minor this 0 (Z.of_nat j)) as [m|e] eqn:E.
      - exists m. split; [reflexivity |].
        apply minor_length in E as [E Hm]. split; [exact Hm |].
        rewrite !size_length. lia.
      - exfalso. revert E. unfold MatrixSquare.minor, Matrix.minor, Matrix.height.
        rewrite (square_width _ Hsq). zcompare. discriminate. }
    split; [exact Hminor |].
    intros g ->.
    assert (Hg : Spec.square (length g) g).
    { split; [reflexivity |]. unfold MatrixSquare.square, Spec.cells in Hsq.
      rewrite length_map in Hsq. apply List.Forall_map in Hsq.
      revert Hsq. apply List.Forall_impl. intros r. now rewrite length_map. }
    unfold Spec.cells in H2. rewrite length_map in H2.
    destruct (length g) as [|[|k]] eqn:Hlen; try lia.
    destruct g as [|r0 g']; [discriminate |].
    exists r0, (fun j => Spec.det k (Spec.minor0 (r0 :: g') j)).
    pose proof (Forall_inv (proj2 Hg)) as Hr0. cbn beta in Hr0.
    split; [reflexivity |]. split.
    { rewrite size_length. unfold Spec.cells. rewrite length_map, Hr0.
      cbn [length] in Hlen |- *. now rewrite Hlen. }
    split.
    + intros j Hj. rewrite Hr0 in Hj.
      exists (Spec.cells (Spec.minor0 (r0 :: g') j)).
      split; [exact (minor_cells (S k) _ j Hg Hj) |].
      exact (det_refines k _ (minor0_square (S k) _ j Hg Hj)).
    + rewrite (det_refines (S k) _ Hg). reflexivity.
Qed.

Lemma det_cofactor_expansion_witness :
  MatrixSquare.det [] = Throw TypeError
  /\ (exists s, [[Cell 5]] = [[s]] /\ MatrixSquare.det [[Cell 5]] = Ok (read s))
  /\ (forall j, (j < 2)%nat ->
        exists m, MatrixSquare.minor [[Cell 1; Cell 2]; [Cell 3; Cell 4]] 0 (Z.of_nat j) = Ok m
                  /\ MatrixSquare.square m
                  /\ MatrixSquare.size m = 1)
  /\ (exists (row0 : list float) (d : nat -> float),
        head [[1; 2]; [3; 4]]%float = Some row0
        /\ Z.of_nat (length row0) = 2
        /\ (forall j, (j < length row0)%nat ->
              exists m, MatrixSquare.minor [[Cell 1; Cell 2]; [Cell 3; Cell 4]] 0 (Z.of_nat j)
                        = Ok m
                        /\ MatrixSquare.det m = Ok (VNum (d j)))
        /\ MatrixSquare.det [[Cell 1; Cell 2]; [Cell 3; Cell 4]]
           = Ok (VNum (Spec.reduce_sum
                         (imap (fun j cell => (Spec.neg_one_pow j * cell * d j)%float)
                               row0)))).
Proof.
  assert (Hsq : MatrixSquare.square [[Cell 1; Cell 2]; [Cell 3; Cell 4]])
    by (repeat constructor).
  assert (H2 : 2 <= MatrixSquare.size [[Cell 1; Cell 2]; [Cell 3; Cell 4]])
    by (unfold MatrixSquare.size, Matrix.height; simpl; lia).
  split; [| split; [| split]].
  - apply (proj1 (det_cofactor_expansion [] ltac:(constructor))). reflexivity.
  - apply (proj1 (proj2 (det_cofactor_expansion [[Cell 5]]
             ltac:(repeat constructor)))). reflexivity.
  - apply (proj1 (proj2 (proj2 (det_cofactor_expansion _ Hsq)) H2)).
  - apply (proj2 (proj2 (proj2 (det_cofactor_expansion _ Hsq)) H2)
             [[1; 2]; [3; 4]]%float eq_refl).
Defined.

(** C4, on a MatrixSquare with empty slots: [new MatrixSquare([[], [1, 1]])]
    has size 2, and its row 0 is two empty slots, which the constructor adds
    and does not fill.  Both minors along row 0 are the MatrixSquare [[1]], of
    determinant 1, so the sum of the claim has its two terms; but [map] calls
    its callback for no empty slot and [reduce] receives no term: [det] throws
    a TypeError.  With row 0 filled by 0 [det] is the sum, 0. *)
Theorem det_skips_holes :
  let A := MatrixSquare.new (MatrixSquare.FromRows
             [MatrixSquare.RowArray []; MatrixSquare.RowArray [Cell 1; Cell 1]]) in
  A = [[Hole; Hole]; [Cell 1; Cell 1]]
  /\ MatrixSquare.size A = 2
  /\ MatrixSquare.minor A 0 0 = Ok [[Cell 1]]
  /\ MatrixSquare.minor A 0 1 = Ok [[Cell 1]]
  /\ MatrixSquare.det [[Cell 1]] = Ok (VNum 1)
  /\ MatrixSquare.det A = Throw TypeError
  /\ MatrixSquare.det [[Cell 0; Cell 0]; [Cell 1; Cell 1]] = Ok (VNum 0).
Proof. cbv zeta. repeat split; vm_compute; reflexivity. Qed.

(** C6, at [[1,2],[3,4]]: [minor], [scale] and [times] hand the result of
    Matrix to the constructor of MatrixSquare, and [transposition] does not.
    Its result is the instance of Matrix that the getter of Matrix built, not
    the MatrixSquare that the constructor makes of the same grid: reading [det]
    of it gives [undefined], where the MatrixSquare has the determinant -2. *)
Theorem transposition_not_wrapped :
  let A := [[Cell 1; Cell 2]; [Cell 3; Cell 4]] in
  let T := MatrixSquare.instance
             (MatrixSquare.new (MatrixSquare.FromMatrix (Matrix.transposition A))) in
  MatrixSquare.transposition A = Matrix.instance [[Cell 1; Cell 3]; [Cell 2; Cell 4]]
  /\ class_of (MatrixSquare.transposition A) = ClassMatrix
  /\ T = MatrixSquare.instance [[Cell 1; Cell 3]; [Cell 2; Cell 4]]
  /\ MatrixSquare.transposition A <> T
  /\ MatrixSquare.invoke_det (MatrixSquare.transposition A) = Ok VUndef
  /\ MatrixSquare.invoke_det T = Ok (VNum (-2))
  /\ MatrixSquare.minor A 1 0
     = Ok (MatrixSquare.new (MatrixSquare.FromMatrix [[Cell 2]]))
  /\ MatrixSquare.scale A 2
     = MatrixSquare.new (MatrixSquare.FromMatrix [[Cell 2; Cell 4]; [Cell 6; Cell 8]])
  /\ MatrixSquare.times A [[Cell 0; Cell 1]; [Cell 1; Cell 0]]
     = Ok (MatrixSquare.new (MatrixSquare.FromMatrix [[Cell 2; Cell 1]; [Cell 4; Cell 3]])).
Proof.
  cbv zeta. split; [reflexivity |]. split; [reflexivity |]. split; [reflexivity |].
  split; [discriminate |].
  repeat split; vm_compute; reflexivity.
Qed.

(** ** The determinant of an identity matrix *)

Section IdentityFacts.

Import ZeroOne.

Ltac float_cases :=
  unfold unit, zero in *; intuition subst;
  first [ left; left; reflexivity | left; right; reflexivity
        | right; left; reflexivity | right; right; reflexivity
        | left; reflexivity | right; reflexivity | reflexivity ].

Lemma neg_one_pow_cases (j : nat) :
  Spec.neg_one_pow j = 1%float \/ Spec.neg_one_pow j = (-1)%float.
Proof.
  rewrite <- sign_neg_one_pow. unfold sign. destruct (Nat.even j); auto.
Qed.

Lemma zero_unit (x : float) : zero x -> unit x.
Proof. intros H. now left. Qed.

(** A term of the expansion whose cell is 0 is a zero. *)
Lemma term_zero (j : nat) (d : float) :
  unit d -> zero (Spec.neg_one_pow j * 0 * d)%float.
Proof.
  intros Hd. destruct (neg_one_pow_cases j) as [-> | ->]; float_cases.
Qed.

(** A term of the expansion whose cell is 1 is a zero, 1 or -1. *)
Lemma term_one (j : nat) (d : float) :
  unit d -> unit (Spec.neg_one_pow j * 1 * d)%float.
Proof.
  intros Hd. destruct (neg_one_pow_cases j) as [-> | ->]; float_cases.
Qed.

Lemma add_zero_zero (x t : float) : zero x -> zero t -> zero (x + t)%float.
Proof. intros Hx Ht. float_cases. Qed.

Lemma add_unit_zero (x t : float) : unit x -> zero t -> unit (x + t)%float.
Proof. intros Hx Ht. float_cases. Qed.

Lemma add_zero_unit (x t : float) : zero x -> unit t -> unit (x + t)%float.
Proof. intros Hx Ht. float_cases. Qed.

Lemma add_one_zero (t : float) : zero t -> (1 + t)%float = 1%float.
Proof. intros Ht. float_cases. Qed.

Lemma one_term_false_inv (t : float) (ts : list float) :
  one_term false (t :: ts) -> zero t /\ one_term false ts.
Proof. intros H. inversion H; subst. auto. Qed.

(** Adding zeros changes neither a 1 nor the kind of the sum. *)
Lemma fold_zeros (ts : list float) :
  one_term false ts ->
  forall x,
    (zero x -> zero (fold_left (fun x y => (x + y)%float) ts x))
    /\ (unit x -> unit (fold_left (fun x y => (x + y)%float) ts x))
    /\ (x = 1%float -> fold_left (fun x y => (x + y)%float) ts x = 1%float).
Proof.
  induction ts as [|t ts IH]; intros Hts x; [cbn; auto |].
  apply one_term_false_inv in Hts as [Ht Hts]. specialize (IH Hts (x + t)%float).
  destruct IH as (IH0 & IH1 & IH2). cbn [fold_left]. repeat split.
  - intros Hx. apply IH0. now apply add_zero_zero.
  - intros Hx. apply IH1. now apply add_unit_zero.
  - intros ->. apply IH2. now apply add_one_zero.
Qed.

Lemma fold_one_term (b : bool) (ts : list float) :
  one_term b ts ->
  forall x, zero x -> unit (fold_left (fun x y => (x + y)%float) ts x).
Proof.
  induction 1 as [|b t ts Ht Hts IH|t ts Ht Hts IH]; intros x Hx.
  - cbn. now apply zero_unit.
  - cbn [fold_left]. apply IH. now apply add_zero_zero.
  - cbn [fold_left]. apply (fold_zeros ts Hts). now apply add_zero_unit.
Qed.

Lemma reduce_sum_one_term (b : bool) (ts : list float) :
  one_term b ts -> ts <> [] -> unit (Spec.reduce_sum ts).
Proof.
  intros H Hne. destruct H as [|b t ts Ht Hts|t ts Ht Hts]; [congruence | |].
  - cbn [Spec.reduce_sum]. now apply (fold_one_term b ts Hts).
  - cbn [Spec.reduce_sum]. now apply (fold_zeros ts Hts).
Qed.

(** The terms of the expansion along a row with at most one 1. *)
Lemma terms_one_hot (b : bool) (row : list float) :
  one_hot b row ->
  forall F : nat -> float -> float,
    (forall j, (j < length row)%nat ->
       zero (F j 0%float) /\ unit (F j 1%float)) ->
    one_term b (imap F row).
Proof.
  induction 1 as [|b row Hrow IH|row Hrow IH]; intros F HF.
  - constructor.
  - cbn [imap]. apply one_term_zero.
    + apply (HF 0%nat). cbn. lia.
    + apply IH. intros j Hj. apply (HF (S j)). cbn. lia.
  - cbn [imap]. apply one_term_one.
    + apply (HF 0%nat). cbn. lia.
    + apply IH. intros j Hj. apply (HF (S j)). cbn. lia.
Qed.

Lemma zeros_delete (row : list float) (j : nat) :
  one_hot false row -> one_hot false (delete j row).
Proof.
  revert j. induction row as [|x row IH]; intros j H.
  - destruct j; exact H.
  - inversion H; subst. destruct j as [|j]; [assumption |].
    cbn [delete list_delete]. constructor. now apply IH.
Qed.

(** Deleting a cell leaves at most one 1. *)
Lemma one_hot_delete (b : bool) (row : list float) (j : nat) :
  one_hot b row -> exists b', one_hot b' (delete j row).
Proof.
  intros H. revert j. induction H as [|b row Hrow IH|row Hrow IH]; intros j.
  - exists false. destruct j; constructor.
  - destruct j as [|j]; [now exists b |].
    destruct (IH j) as [b' Hb']. exists b'. now constructor.
  - destruct j as [|j]; [now exists false |].
    exists true. cbn [delete list_delete]. constructor. now apply zeros_delete.
Qed.

(** The determinant of a grid whose rows each have at most one 1 among zeros
    is a zero, 1 or -1. *)
Lemma det_one_hot (k : nat) (g : list (list float)) :
  Spec.square (S k) g ->
  Forall (fun row => exists b, one_hot b row) g ->
  unit (Spec.det k g).
Proof.
  revert g. induction k as [|k IH]; intros g Hsq Hg.
  - destruct Hsq as [Hn Hrows].
    destruct g as [|r0 [|r1 g]]; try discriminate.
    apply Forall_inv in Hrows. destruct r0 as [|x [|y r0]]; try discriminate.
    apply Forall_inv in Hg as [b Hb]. cbn.
    inversion Hb; subst; float_cases.
  - pose proof Hsq as [Hn Hrows].
    destruct g as [|r0 g]; [discriminate |].
    pose proof (Forall_inv Hrows) as Hr0. cbn beta in Hr0.
    pose proof (Forall_inv Hg) as [b Hb].
    cbn [Spec.det head default from_option]. unfold id.
    apply (reduce_sum_one_term b).
    + apply (terms_one_hot b r0 Hb). intros j Hj. rewrite Hr0 in Hj.
      assert (Hd : unit (Spec.det k (Spec.minor0 (r0 :: g) j))).
      { apply IH; [exact (minor0_square (S k) _ j Hsq Hj) |].
        unfold Spec.minor0. cbn [tail]. apply List.Forall_map.
        apply Forall_inv_tail in Hg. revert Hg. apply List.Forall_impl.
        intros row [b' Hb']. exact (one_hot_delete b' row j Hb'). }
      split; [now apply term_zero | now apply term_one].
    + destruct r0; discriminate.
Qed.

(** Row [i] of an identity matrix, from column [s] on. *)
Lemma identity_row_zeros (i s n : nat) :
  (i < s)%nat ->
  one_hot false (List.map (fun j => if Nat.eqb i j then 1%float else 0%float) (seq s n)).
Proof.
  revert s. induction n as [|n IH]; intros s Hs; [constructor |].
  cbn [seq List.map]. replace (Nat.eqb i s) with false.
  - constructor. apply IH. lia.
  - symmetry. apply Nat.eqb_neq. lia.
Qed.

Lemma identity_row_one_hot (i s n : nat) :
  exists b,
    one_hot b (List.map (fun j => if Nat.eqb i j then 1%float else 0%float) (seq s n)).
Proof.
  revert s. induction n as [|n IH]; intros s; [exists false; constructor |].
  cbn [seq List.map]. destruct (Nat.eqb i s) eqn:E.
  - exists true. constructor. apply identity_row_zeros.
    apply Nat.eqb_eq in E. lia.
  - destruct (IH (S s)) as [b Hb]. exists b. now constructor.
Qed.

Lemma identity_rows (n : nat) :
  Forall (fun row => exists b, one_hot b row) (Spec.identity n).
Proof.
  unfold Spec.identity. apply List.Forall_map, Forall_forall.
  intros i _. apply identity_row_one_hot.
Qed.

Lemma identity_square (n : nat) : Spec.square n (Spec.identity n).
Proof.
  unfold Spec.square, Spec.identity. rewrite length_map, length_seq.
  split; [reflexivity |]. apply List.Forall_map, Forall_forall.
  intros i _. now rewrite length_map, length_seq.
Qed.

(** Without its row 0 and its column 0, an identity matrix is the identity
    matrix of the size below. *)
Lemma minor0_identity (n : nat) :
  Spec.minor0 (Spec.identity (S n)) 0 = Spec.identity n.
Proof.
  unfold Spec.minor0, Spec.identity. cbn [seq List.map tail].
  rewrite <- seq_shift, !map_map. apply map_ext. intros i.
  cbn [delete list_delete]. now rewrite map_map.
Qed.

(** The cofactor expansion of an identity matrix is 1. *)
Lemma det_identity (k : nat) : Spec.det k (Spec.identity (S k)) = 1%float.
Proof.
  induction k as [|k IH]; [reflexivity |].
  pose proof (identity_square (S (S k))) as Hsq.
  pose proof (identity_rows (S (S k))) as Hrows.
  remember (Spec.identity (S (S k))) as g eqn:Hg.
  cbn [Spec.det]. rewrite Hg at 1. unfold Spec.identity at 1.
  cbn [seq List.map head default from_option]. unfold id.
  cbn [imap Spec.reduce_sum Nat.eqb].
  assert (H0 : (Spec.neg_one_pow 0 * 1 * Spec.det k (Spec.minor0 g 0))%float = 1%float).
  { rewrite Hg, minor0_identity, IH. reflexivity. }
  rewrite H0.
  refine (proj2 (proj2 (fold_zeros _ (terms_one_hot false _
            (identity_row_zeros 0 1 (S k) ltac:(lia)) _ _) _)) eq_refl).
  intros j Hj. rewrite length_map, length_seq in Hj. unfold compose.
  assert (Hd : unit (Spec.det k (Spec.minor0 g (S j)))).
  { apply det_one_hot; [apply (minor0_square (S k) g (S j) Hsq); lia |].
    unfold Spec.minor0. apply List.Forall_map.
    assert (Ht : Forall (fun row => exists b, one_hot b row) (tail g)).
    { destruct g; [constructor | exact (Forall_inv_tail Hrows)]. }
    revert Ht. apply List.Forall_impl.
    intros row [b' Hb']. exact (one_hot_delete b' row (S j) Hb'). }
  split; [now apply term_zero | now apply term_one].
Qed.

(** [multIden(size)] is the identity matrix, for a [size] that is an array
    length. *)
Lemma multIden_identity (size : Z) :
  0 <= size <= 4294967295 ->
  MatrixSquare.multIden size = Ok (Spec.cells (Spec.identity (Z.to_nat size))).
Proof.
  intros Hsize. unfold MatrixSquare.multIden. zcompare. cbn [orb]. f_equal.
  rewrite <- (new_FromRows_cells _ _ (identity_square (Z.to_nat size))).
  do 2 f_equal. unfold Spec.cells, Spec.identity.
  rewrite !map_map. apply map_ext. intros i. now rewrite map_map.
Qed.

End IdentityFacts.

(** C8: whenever [multIden(n)] builds a matrix of a size other than 0, the
    determinant of that matrix is 1; [multIden(0)] is the matrix of size 0, and
    its determinant throws the TypeError of the undefined operation. *)
Theorem det_multIden :
  (forall (n : Z) (I : MatrixSquare.t),
      n <> 0 -> MatrixSquare.multIden n = Ok I ->
      MatrixSquare.det I = Ok (VNum 1))
  /\ (forall n, 1 <= n <= 4294967295 -> exists I, MatrixSquare.multIden n = Ok I)
  /\ MatrixSquare.multIden 0 = Ok []
  /\ MatrixSquare.det [] = Throw TypeError.
Proof.
  split; [| split; [| split; reflexivity]].
  - intros n I Hn HI.
    assert (Hsize : 1 <= n <= 4294967295).
    { revert HI. unfold MatrixSquare.multIden.
      destruct (n <? 0) eqn:E1; [discriminate |].
      destruct (4294967295 <? n) eqn:E2; [discriminate |]. lia. }
    rewrite multIden_identity in HI by lia. injection HI as <-.
    destruct (Z.to_nat n) as [|k] eqn:Ek; [lia |].
    rewrite (det_refines k _ (identity_square (S k))), det_identity. reflexivity.
  - intros n Hn. rewrite multIden_identity by lia. eauto.
Qed.

Lemma det_multIden_witness :
  (exists I, MatrixSquare.multIden 3 = Ok I /\ MatrixSquare.det I = Ok (VNum 1))
  /\ (exists I, MatrixSquare.multIden 2 = Ok I).
Proof.
  split.
  - eexists. split; [reflexivity |].
    apply (proj1 det_multIden 3); [discriminate | reflexivity].
  - apply (proj1 (proj2 det_multIden) 2). lia.
Defined.

(** C5, on a ragged grid: the row that is too short is lengthened to the number
    of rows, and its new slot is left empty; it is not 0.  The lengths are as
    claimed: every row of a constructed MatrixSquare is as long as the grid is
    high. *)
Theorem constructor_leaves_holes :
  MatrixSquare.new (MatrixSquare.FromRows
    [MatrixSquare.RowArray [Cell 1]; MatrixSquare.RowArray [Cell 2; Cell 3]])
  = [[Cell 1; Hole]; [Cell 2; Cell 3]]
  /\ MatrixSquare.new (MatrixSquare.FromRows
       [MatrixSquare.RowArray [Cell 1]; MatrixSquare.RowArray [Cell 2; Cell 3]])
     <> [[Cell 1; Cell 0]; [Cell 2; Cell 3]]
  /\ (forall d, MatrixSquare.square (MatrixSquare.new d)).
Proof. split; [reflexivity | split; [discriminate | exact new_square]]. Qed.

(** ** The constructor on the store: properties *)

Section StoreFacts.

Lemma extends_refl (h : Store.store) : Store.extends h h.
Proof. intros l _. reflexivity. Qed.

Lemma extends_dom (h h1 : Store.store) (l : nat) :
  Store.extends h h1 -> l ∈ dom h -> l ∈ dom h1.
Proof.
  intros He Hl. apply elem_of_dom. rewrite (He l Hl). now apply elem_of_dom.
Qed.

Lemma extends_trans (h h1 h2 : Store.store) :
  Store.extends h h1 -> Store.extends h1 h2 -> Store.extends h h2.
Proof.
  intros H1 H2 l Hl. rewrite (H2 l (extends_dom _ _ _ H1 Hl)). now apply H1.
Qed.

Lemma extends_total (h h1 : Store.store) (l : nat) :
  Store.extends h h1 -> l ∈ dom h -> h1 !!! l = h !!! l.
Proof. intros He Hl. rewrite !lookup_total_alt. now rewrite (He l Hl). Qed.

Lemma extends_grid (h h1 : Store.store) (rows : list nat) :
  Store.extends h h1 -> Forall (fun l => l ∈ dom h) rows ->
  Store.grid h1 rows = Store.grid h rows.
Proof.
  intros He Hrows. unfold Store.grid.
  induction Hrows as [|l rows Hl _ IH]; [reflexivity |].
  cbn [List.map]. now rewrite IH, (extends_total _ _ _ He Hl).
Qed.

Lemma alloc_spec (a : list slot) (h h1 : Store.store) (l : nat) :
  Store.alloc a h = (h1, l) ->
  (l ∉ dom h) /\ h1 !!! l = a /\ (l ∈ dom h1) /\ Store.extends h h1.
Proof.
  unfold Store.alloc. intros [= <- <-].
  pose proof (is_fresh (dom h)) as Hf.
  split; [exact Hf |]. split; [apply lookup_total_insert_eq |].
  split; [apply elem_of_dom; rewrite lookup_insert_eq; eauto |].
  intros l0 Hl0. apply lookup_insert_ne. intros E. apply Hf. now rewrite E.
Qed.

Lemma grid_cons (h : Store.store) (l : nat) (ls : list nat) :
  Store.grid h (l :: ls) = h !!! l :: Store.grid h ls.
Proof. reflexivity. Qed.

Lemma copy_rows_spec (rows : list nat) (h h1 : Store.store) (ls : list nat) :
  Forall (fun l => l ∈ dom h) rows ->
  Store.copy_rows rows h = (h1, ls) ->
  Store.extends h h1
  /\ Store.grid h1 ls = List.map (fun row => JSArray.spread row) (Store.grid h rows)
  /\ Forall (fun l => l ∈ dom h1) ls
  /\ Forall (fun l => l ∉ dom h) ls.
Proof.
  revert h h1 ls. induction rows as [|row rows IH]; intros h h1 ls Hrows.
  - intros [= <- <-]. repeat split; auto using extends_refl.
  - cbn [Store.copy_rows].
    destruct (Store.alloc _ h) as [h' l] eqn:Ea.
    destruct (Store.copy_rows rows h') as [h2 ls'] eqn:Ec.
    intros [= <- <-].
    apply alloc_spec in Ea as (Hfresh & Hl & Hdom & He).
    pose proof (Forall_inv Hrows) as Hrow. apply Forall_inv_tail in Hrows.
    assert (Hrows' : Forall (fun l => l ∈ dom h') rows).
    { revert Hrows. apply List.Forall_impl. intros l0. apply extends_dom, He. }
    destruct (IH h' h2 ls' Hrows' Ec) as (He2 & Hg & Hin & Hout).
    split; [exact (extends_trans _ _ _ He He2) |]. split; [| split].
    + rewrite !grid_cons, Hg, (extends_grid _ _ _ He Hrows).
      now rewrite (extends_total _ _ _ He2 Hdom), Hl.
    + constructor; [exact (extends_dom _ _ _ He2 Hdom) | exact Hin].
    + constructor; [exact Hfresh |].
      revert Hout. apply List.Forall_impl. intros l0 Hl0 Hl0'.
      apply Hl0. exact (extends_dom _ _ _ He Hl0').
Qed.

Lemma full_rows_spec (rows : list Store.row_ref) (h h1 : Store.store) (ls : list nat) :
  Store.valid h (Store.RefRows rows) ->
  Store.full_rows rows h = (h1, ls) ->
  Store.extends h h1
  /\ Store.grid h1 ls = List.map MatrixSquare.full_row (List.map (Store.row_at h) rows)
  /\ Forall (fun l => l ∈ dom h1) ls
  /\ (forall l, l ∈ ls -> l ∈ dom h -> In (Store.RefArray l) rows).
Proof.
  cbn [Store.valid].
  revert h h1 ls. induction rows as [|row rows IH]; intros h h1 ls Hrows.
  - intros [= <- <-]. repeat split; auto using extends_refl.
    intros l Hl. inversion Hl.
  - pose proof (Forall_inv Hrows) as Hrow. apply Forall_inv_tail in Hrows.
    destruct row as [raw|l]; cbn [Store.full_rows].
    + destruct (Store.alloc _ h) as [h' l] eqn:Ea.
      destruct (Store.full_rows rows h') as [h2 ls'] eqn:Ec.
      intros [= <- <-].
      apply alloc_spec in Ea as (Hfresh & Hl & Hdom & He).
      assert (Hrows' : Forall (fun row => match row with
                                          | Store.RefVector _ => True
                                          | Store.RefArray l => l ∈ dom h'
                                          end) rows).
      { revert Hrows. apply List.Forall_impl. intros [raw0|l0]; [trivial |].
        apply extends_dom, He. }
      destruct (IH h' h2 ls' Hrows' Ec) as (He2 & Hg & Hin & Hal).
      split; [exact (extends_trans _ _ _ He He2) |]. split; [| split].
      * rewrite grid_cons, Hg, (extends_total _ _ _ He2 Hdom), Hl.
        cbn [List.map Store.row_at MatrixSquare.full_row]. f_equal. f_equal.
        apply map_ext_in. intros [raw0|l0] Hin0; [reflexivity |].
        cbn [Store.row_at]. f_equal. apply (extends_total _ _ _ He).
        exact (proj1 (Forall_forall _ _) Hrows _ (proj2 (list_elem_of_In _ _) Hin0)).
      * constructor; [exact (extends_dom _ _ _ He2 Hdom) | exact Hin].
      * intros l0 Hl0 Hd0. right.
        apply elem_of_cons in Hl0 as [-> | Hl0]; [contradiction |].
        exact (Hal l0 Hl0 (extends_dom _ _ _ He Hd0)).
    + destruct (Store.full_rows rows h) as [h2 ls'] eqn:Ec.
      intros [= <- <-].
      destruct (IH h h2 ls' Hrows Ec) as (He2 & Hg & Hin & Hal).
      split; [exact He2 |]. split; [| split].
      * rewrite grid_cons, Hg, (extends_total _ _ _ He2 Hrow). reflexivity.
      * constructor; [exact (extends_dom _ _ _ He2 Hrow) | exact Hin].
      * intros l0 Hl0 Hd0.
        apply elem_of_cons in Hl0 as [-> | Hl0]; [now left | right].
        exact (Hal l0 Hl0 Hd0).
Qed.

(** The [forEach] loop: an array among the rows gets the length [n], any other
    array of the store stays as it is. *)
Lemma forEach_spec (n : nat) (rows : list nat) (h : Store.store) :
  Forall (fun l => l ∈ dom h) rows ->
  forall l, l ∈ dom h ->
    (l ∈ rows ->
     foldl (Store.forEach_body n) h rows !!! l = JSArray.set_length n (h !!! l))
    /\ (l ∉ rows -> foldl (Store.forEach_body n) h rows !! l = h !! l).
Proof.
  revert h. induction rows as [|row rows IH]; intros h Hrows l Hl.
  - split; [intros H; inversion H | reflexivity].
  - pose proof (Forall_inv Hrows) as Hrow. apply Forall_inv_tail in Hrows.
    cbn [foldl].
    set (h1 := Store.forEach_body n h row).
    assert (Hfresh : forall l0, l0 ∈ dom h ->
              h1 !! l0 = <[row := JSArray.set_length n (h !!! row)]> h !! l0).
    { intros l0 Hl0. unfold h1, Store.forEach_body, Store.alloc.
      apply lookup_insert_ne. intros E.
      apply (is_fresh (dom (<[row := JSArray.set_length n (h !!! row)]> h))).
      rewrite E. apply dom_insert_subseteq, Hl0. }
    assert (Hdom : forall l0, l0 ∈ dom h -> l0 ∈ dom h1).
    { intros l0 Hl0. apply elem_of_dom. rewrite (Hfresh l0 Hl0).
      apply elem_of_dom, dom_insert_subseteq, Hl0. }
    assert (Hrows1 : Forall (fun l0 => l0 ∈ dom h1) rows).
    { revert Hrows. apply List.Forall_impl. exact Hdom. }
    destruct (IH h1 Hrows1 l (Hdom l Hl)) as [IHin IHout].
    destruct (decide (l = row)) as [-> | Hne].
    + assert (Hh1 : h1 !!! row = JSArray.set_length n (h !!! row)).
      { rewrite lookup_total_alt, (Hfresh row Hrow), lookup_insert_eq. reflexivity. }
      split; [| intros Hnot; exfalso; apply Hnot; left].
      intros _. destruct (decide (row ∈ rows)) as [Hin | Hnin].
      * rewrite (IHin Hin), Hh1. apply set_length_idemp.
      * rewrite lookup_total_alt, (IHout Hnin), <- lookup_total_alt. exact Hh1.
    + assert (Hh1 : h1 !! l = h !! l).
      { rewrite (Hfresh l Hl). apply lookup_insert_ne. congruence. }
      split.
      * intros Hin. apply elem_of_cons in Hin as [? | Hin]; [contradiction |].
        rewrite (IHin Hin), !lookup_total_alt. now rewrite Hh1.
      * intros Hnin. rewrite IHout; [exact Hh1 |].
        intros Hin. apply Hnin. now right.
Qed.

Lemma rawdata_of_spec (d : Store.data_ref) (h h1 : Store.store) (ls : list nat) :
  Store.valid h d ->
  Store.rawdata_of d h = (h1, ls) ->
  Store.extends h h1
  /\ Store.grid h1 ls = MatrixSquare.rawdata_of (Store.data_at h d)
  /\ Forall (fun l => l ∈ dom h1) ls.
Proof.
  destruct d as [rows|rows]; cbn [Store.rawdata_of Store.data_at MatrixSquare.rawdata_of].
  - intros Hv E. destruct (copy_rows_spec rows h h1 ls Hv E) as (He & Hg & Hin & _).
    auto.
  - intros Hv E. destruct (full_rows_spec rows h h1 ls Hv E) as (He & Hg & Hin & _).
    auto.
Qed.

(** The constructor on the store computes the constructor on values: the rows
    of the new instance hold [MatrixSquare.new] of the construction data, and an
    array of the caller that is not one of these rows is left as it was. *)
Lemma constructor_refines (d : Store.data_ref) (h h' : Store.store) (rows : list nat) :
  Store.valid h d ->
  Store.constructor d h = (h', rows) ->
  Store.grid h' rows = MatrixSquare.new (Store.data_at h d)
  /\ (forall l, l ∈ dom h -> l ∉ rows -> h' !! l = h !! l).
Proof.
  intros Hv. unfold Store.constructor.
  destruct (Store.rawdata_of d h) as [h1 rawdata] eqn:E. intros [= <- <-].
  destruct (rawdata_of_spec d h h1 rawdata Hv E) as (He & Hg & Hin).
  split.
  - unfold MatrixSquare.new, Matrix.new. rewrite <- Hg.
    unfold Store.grid at 2. rewrite length_map.
    unfold Store.grid. rewrite map_map. apply map_ext_in. intros l Hl.
    apply list_elem_of_In in Hl.
    assert (Hd : l ∈ dom h1) by exact (proj1 (Forall_forall _ _) Hin l Hl).
    exact (proj1 (forEach_spec (length rawdata) rawdata h1 Hin l Hd) Hl).
  - intros l Hl Hnot.
    rewrite (proj2 (forEach_spec (length rawdata) rawdata h1 Hin l
                      (extends_dom _ _ _ He Hl)) Hnot).
    exact (He l Hl).
Qed.

End StoreFacts.

(** C7, on two rows of three numbers each: the constructor shortens the
    caller's own arrays to length 2, and the new instance has these very arrays
    as its rows. *)
Theorem constructor_writes_to_caller_rows :
  let h : gmap nat (list slot) :=
    <[0%nat := [Cell 1; Cell 2; Cell 3]]> (<[1%nat := [Cell 4; Cell 5; Cell 6]]> ∅) in
  let r := Store.constructor (Store.RefRows [Store.RefArray 0; Store.RefArray 1]) h in
  h !! 0%nat = Some [Cell 1; Cell 2; Cell 3]
  /\ r.1 !! 0%nat = Some [Cell 1; Cell 2]
  /\ r.1 !! 1%nat = Some [Cell 4; Cell 5]
  /\ r.2 = [0%nat; 1%nat].
Proof. vm_compute. repeat split; reflexivity. Qed.

(** ** The claims on Percentage.conjugate *)

(** C9, as the code has it: for a Percentage [p] of [0, 1], both conjugates
    are taken without error and [p.conjugate.conjugate] has the value
    [1 - (1 - p)] of binary64 arithmetic, which is [p] whenever that
    subtraction gives [p] back; a Percentage above 1 has no conjugate, a
    RangeError. *)
Theorem conjugate_conjugate (p : Percentage.t) :
  Percentage.constructed p ->
  ((Percentage.valueOf p <=? 1)%float = true ->
     (let* q := Percentage.conjugate p in Percentage.conjugate q)
     = Ok (Percentage.Box (1 - (1 - Percentage.valueOf p))%float)
     /\ ((1 - (1 - Percentage.valueOf p))%float = Percentage.valueOf p ->
         (let* q := Percentage.conjugate p in Percentage.conjugate q) = Ok p))
  /\ ((1 <? Percentage.valueOf p)%float = true ->
      Percentage.conjugate p = Throw RangeError).
Proof.
  intros Hp. split.
  - intros Hle. apply leb_one_not_ltb in Hle.
    destruct (conjugate_in_range p Hp Hle) as (E1 & Hq & Hq1).
    destruct (conjugate_in_range _ Hq Hq1) as (E2 & _ & _).
    cbn [Percentage.valueOf] in E2.
    assert (E : (let* q := Percentage.conjugate p in Percentage.conjugate q)
                = Ok (Percentage.Box (1 - (1 - Percentage.valueOf p))%float)).
    { rewrite E1. exact E2. }
    split; [exact E |]. intros Hexact. rewrite E, Hexact. now destruct p.
  - intros Hgt. unfold Percentage.conjugate. rewrite Hgt.
    now rewrite orb_true_r.
Qed.

Lemma conjugate_conjugate_witness :
  (let* q := Percentage.conjugate (Percentage.Box 0.25) in Percentage.conjugate q)
  = Ok (Percentage.Box 0.25)
  /\ Percentage.conjugate (Percentage.Box 1.5) = Throw RangeError.
Proof.
  split.
  - apply (proj1 (conjugate_conjugate (Percentage.Box 0.25) eq_refl)); reflexivity.
  - apply (proj2 (conjugate_conjugate (Percentage.Box 1.5) eq_refl)). reflexivity.
Defined.

(** C9, as the specification words it, fails at 10%: the conjugate of the
    conjugate of 0.1 is 0.09999999999999998. *)
Lemma conjugate_conjugate_tenth :
  Percentage.constructed (Percentage.Box 0x1.999999999999ap-4)
  /\ (0 <=? 0x1.999999999999ap-4)%float = true
  /\ (0x1.999999999999ap-4 <=? 1)%float = true
  /\ (let* q := Percentage.conjugate (Percentage.Box 0x1.999999999999ap-4) in
      Percentage.conjugate q)
     = Ok (Percentage.Box 0x1.9999999999998p-4)
  /\ (0x1.9999999999998p-4 =? 0x1.999999999999ap-4)%float = false
  /\ (let* q := Percentage.conjugate (Percentage.Box 0x1.999999999999ap-4) in
      Percentage.conjugate q)
     <> Ok (Percentage.Box 0x1.999999999999ap-4).
Proof.
  repeat split; try (vm_compute; reflexivity).
  vm_compute. intros H. discriminate H.
Qed.

(** C10: no Percentage has a value below 0, so of the two tests of the range
    check only [1 < p] can hold: [conjugate] throws, its RangeError, when the
    value is above 1, and returns the Percentage [1 - p] when it is not. *)
Theorem conjugate_throws_iff (p : Percentage.t) :
  Percentage.constructed p ->
  (Percentage.valueOf p <? 0)%float = false
  /\ JSNumber.isFinite (Percentage.valueOf p) = true
  /\ ((1 <? Percentage.valueOf p)%float = true ->
      Percentage.conjugate p = Throw RangeError)
  /\ ((1 <? Percentage.valueOf p)%float = false ->
      Percentage.conjugate p = Ok (Percentage.Box (1 - Percentage.valueOf p)%float))
  /\ ((exists e, Percentage.conjugate p = Throw e)
      <-> (1 <? Percentage.valueOf p)%float = true).
Proof.
  intros Hp.
  assert (Hgt : (1 <? Percentage.valueOf p)%float = true ->
                Percentage.conjugate p = Throw RangeError).
  { intros H. unfold Percentage.conjugate. rewrite H. now rewrite orb_true_r. }
  assert (Hle : (1 <? Percentage.valueOf p)%float = false ->
                Percentage.conjugate p
                = Ok (Percentage.Box (1 - Percentage.valueOf p)%float)).
  { intros H. exact (proj1 (conjugate_in_range p Hp H)). }
  split; [exact (leb_zero_not_ltb _ (constructed_nonneg p Hp)) |].
  split; [exact (constructed_finite p Hp) |].
  split; [exact Hgt |]. split; [exact Hle |]. split.
  - intros [e He]. destruct (1 <? Percentage.valueOf p)%float; [reflexivity |].
    rewrite (Hle eq_refl) in He. discriminate.
  - intros H. exists RangeError. exact (Hgt H).
Qed.

Lemma conjugate_throws_iff_witness :
  Percentage.conjugate (Percentage.Box 1.5) = Throw RangeError
  /\ Percentage.conjugate (Percentage.Box 0.25) = Ok (Percentage.Box 0.75).
Proof.
  split.
  - apply (proj1 (proj2 (proj2 (conjugate_throws_iff (Percentage.Box 1.5) eq_refl)))).
    reflexivity.
  - apply (proj1 (proj2 (proj2 (proj2
             (conjugate_throws_iff (Percentage.Box 0.25) eq_refl))))).
    reflexivity.
Defined.

(** * The rest of the two classes

    ** The order of binary64 numbers: properties *)

Section Order.

Lemma SFcompare_rank (x y : spec_float) :
  x <> S754_nan -> y <> S754_nan -> SFcompare x y = Some (lex (rank x) (rank y)).
Proof.
  intros Hx Hy.
  destruct x as [[|]|[|]| |[|] m e], y as [[|]|[|]| |[|] m' e']; try congruence;
    cbn [SFcompare rank lex Z.compare Pos.compare Pos.compare_cont CompOpp]; try reflexivity.
  rewrite Z.compare_opp, (Z.compare_antisym e e').
  change (- Zpos m ?= - Zpos m') with (CompOpp (m ?= m')%positive).
  change (PosDef.Pos.compare_cont Eq m m') with (m ?= m')%positive.
  destruct (e ?= e'); reflexivity.
Qed.

Lemma lex_Lt (a b : Z * Z * Z) : lex a b = Lt <-> lex_lt a b.
Proof.
  destruct a as [[a1 a2] a3], b as [[b1 b2] b3]. unfold lex, lex_lt.
  destruct (Z.compare_spec a1 b1), (Z.compare_spec a2 b2), (Z.compare_spec a3 b3);
    split; intros; try discriminate; try reflexivity; lia.
Qed.

Lemma lex_Eq (a b : Z * Z * Z) : lex a b = Eq <-> lex_eq a b.
Proof.
  destruct a as [[a1 a2] a3], b as [[b1 b2] b3]. unfold lex, lex_eq.
  destruct (Z.compare_spec a1 b1), (Z.compare_spec a2 b2), (Z.compare_spec a3 b3);
    split; intros; try discriminate; try reflexivity; lia.
Qed.

Lemma lex_Gt (a b : Z * Z * Z) : lex a b = Gt <-> lex_lt b a.
Proof.
  destruct a as [[a1 a2] a3], b as [[b1 b2] b3]. unfold lex, lex_lt.
  destruct (Z.compare_spec a1 b1), (Z.compare_spec a2 b2), (Z.compare_spec a3 b3);
    split; intros; try discriminate; try reflexivity; lia.
Qed.

Lemma ltb_rk (x y : float) :
  not_nan x -> not_nan y -> ((x <? y)%float = true <-> lex_lt (rk x) (rk y)).
Proof.
  intros Hx Hy. rewrite FloatAxioms.ltb_spec. unfold SFltb.
  rewrite (SFcompare_rank _ _ Hx Hy), <- lex_Lt. unfold rk.
  destruct (lex _ _); split; congruence.
Qed.

Lemma ltb_rk_false (x y : float) :
  not_nan x -> not_nan y -> ((x <? y)%float = false <-> ~ lex_lt (rk x) (rk y)).
Proof.
  intros Hx Hy. rewrite <- (ltb_rk x y Hx Hy). destruct (x <? y)%float; split; congruence.
Qed.

Lemma eqb_rk (x y : float) :
  not_nan x -> not_nan y -> ((x =? y)%float = true <-> lex_eq (rk x) (rk y)).
Proof.
  intros Hx Hy. rewrite FloatAxioms.eqb_spec. unfold SFeqb.
  rewrite (SFcompare_rank _ _ Hx Hy), <- lex_Eq. unfold rk.
  destruct (lex _ _); split; congruence.
Qed.

Lemma eqb_rk_false (x y : float) :
  not_nan x -> not_nan y -> ((x =? y)%float = false <-> ~ lex_eq (rk x) (rk y)).
Proof.
  intros Hx Hy. rewrite <- (eqb_rk x y Hx Hy). destruct (x =? y)%float; split; congruence.
Qed.

Lemma leb_rk (x y : float) :
  not_nan x -> not_nan y -> ((x <=? y)%float = true <-> ~ lex_lt (rk y) (rk x)).
Proof.
  intros Hx Hy. rewrite FloatAxioms.leb_spec. unfold SFleb.
  rewrite (SFcompare_rank _ _ Hx Hy), <- lex_Gt. unfold rk.
  destruct (lex _ _); split; congruence.
Qed.

Lemma leb_not_nan (x y : float) : (x <=? y)%float = true -> not_nan x /\ not_nan y.
Proof.
  rewrite FloatAxioms.leb_spec. unfold not_nan.
  destruct (Prim2SF x) as [[|]|[|]| |[|] m e], (Prim2SF y) as [[|]|[|]| |[|] m' e'];
    cbn; intros; try discriminate; split; congruence.
Qed.

Lemma leb_rk_false (x y : float) :
  not_nan x -> not_nan y -> ((x <=? y)%float = false <-> lex_lt (rk y) (rk x)).
Proof.
  intros Hx Hy. rewrite FloatAxioms.leb_spec. unfold SFleb.
  rewrite (SFcompare_rank _ _ Hx Hy), <- lex_Gt. unfold rk.
  destruct (lex _ _); split; congruence.
Qed.

Lemma is_nan_false (x : float) : is_nan x = false <-> not_nan x.
Proof.
  unfold is_nan, not_nan. rewrite FloatAxioms.eqb_spec. unfold SFeqb.
  destruct (Prim2SF x) as [[|]|[|]| |[|] m e] eqn:E; cbn; try (split; congruence).
  - rewrite Z.compare_refl, Pos.compare_cont_refl. cbn. split; congruence.
  - rewrite Z.compare_refl, Pos.compare_cont_refl. cbn. split; congruence.
Qed.

Lemma rk_zero : rk 0 = (0, 0, 0).
Proof. reflexivity. Qed.

Lemma rk_one : rk 1 = (1, -52, 4503599627370496).
Proof. reflexivity. Qed.

Lemma rk_infinity : rk infinity = (2, 0, 0).
Proof. reflexivity. Qed.

Lemma rk_neg_infinity : rk neg_infinity = (-2, 0, 0).
Proof. reflexivity. Qed.

Lemma not_nan_zero : not_nan 0.
Proof. discriminate. Qed.

Lemma not_nan_one : not_nan 1.
Proof. discriminate. Qed.

Lemma not_nan_infinity : not_nan infinity.
Proof. discriminate. Qed.

Lemma not_nan_neg_infinity : not_nan neg_infinity.
Proof. discriminate. Qed.

End Order.

#[local] Hint Resolve not_nan_zero not_nan_one not_nan_infinity not_nan_neg_infinity : core.

(** Turns the comparisons of numbers, in the goal and in the hypotheses, into
    the order of their ranks, and decides it on the integers. *)
Ltac rank_hyp H :=
  first [ rewrite ltb_rk in H by auto
        | rewrite ltb_rk_false in H by auto
        | rewrite eqb_rk in H by auto
        | rewrite eqb_rk_false in H by auto
        | rewrite leb_rk in H by auto
        | rewrite leb_rk_false in H by auto ].

Ltac rank_goal :=
  first [ rewrite ltb_rk by auto
        | rewrite ltb_rk_false by auto
        | rewrite eqb_rk by auto
        | rewrite eqb_rk_false by auto
        | rewrite leb_rk by auto
        | rewrite leb_rk_false by auto ].

Ltac by_rank :=
  repeat match goal with
    | H : (_ <? _)%float = _ |- _ => rank_hyp H
    | H : (_ =? _)%float = _ |- _ => rank_hyp H
    | H : (_ <=? _)%float = _ |- _ => rank_hyp H
    end;
  try rank_goal;
  rewrite ?rk_zero, ?rk_one, ?rk_infinity, ?rk_neg_infinity in *;
  repeat match goal with
    | |- context [rk ?x] =>
        let a := fresh "a" in let b := fresh "b" in let c := fresh "c" in
        destruct (rk x) as [[a b] c]
    | H : context [rk ?x] |- _ =>
        let a := fresh "a" in let b := fresh "b" in let c := fresh "c" in
        destruct (rk x) as [[a b] c]
    end;
  unfold lex_lt, lex_eq in *; lia.


(** ** [Math.max] and [Math.min]: properties *)

Section MathFacts.

Lemma is_neg_zero_rk (x : float) : JSMath.is_neg_zero x = true -> rk x = (0, 0, 0).
Proof.
  unfold JSMath.is_neg_zero, rk. rewrite classify_spec.
  destruct (Prim2SF x) as [[|]|[|]| |[|] m e];
    cbn [SF64classify SFclassify rank]; try discriminate; try reflexivity;
    destruct (Z.eqb _ _); discriminate.
Qed.

Lemma is_pos_zero_rk (x : float) : JSMath.is_pos_zero x = true -> rk x = (0, 0, 0).
Proof.
  unfold JSMath.is_pos_zero, rk. rewrite classify_spec.
  destruct (Prim2SF x) as [[|]|[|]| |[|] m e];
    cbn [SF64classify SFclassify rank]; try discriminate; try reflexivity;
    destruct (Z.eqb _ _); discriminate.
Qed.

(** The loop of [Math.max] on numbers: the result is the start value or one of
    the values, and none of them is above it. *)
Lemma max_from_spec (coerced : list float) :
  Forall not_nan coerced ->
  forall highest, not_nan highest ->
    let r := JSMath.max_from highest coerced in
    (r = highest \/ In r coerced)
    /\ not_nan r
    /\ (r <? highest)%float = false
    /\ Forall (fun x => (r <? x)%float = false) coerced.
Proof.
  induction 1 as [|x l Hx Hl IH]; intros h Hh; cbn [JSMath.max_from].
  - repeat split; auto. by_rank.
  - rewrite (proj2 (is_nan_false x) Hx).
    assert (Hstep : forall h', not_nan h' -> (h' = x \/ h' = h) ->
              (h' <? h)%float = false -> (h' <? x)%float = false ->
              let r := JSMath.max_from h' l in
              (r = h \/ In r (x :: l)) /\ not_nan r /\ (r <? h)%float = false
              /\ Forall (fun x => (r <? x)%float = false) (x :: l)).
    { intros h' Hh' Hor H1 H2. destruct (IH h' Hh') as (Hin & Hr & Hle & Hall).
      cbn zeta. repeat split.
      - destruct Hin as [-> | Hin]; [destruct Hor as [-> | ->] |]; cbn; auto.
      - exact Hr.
      - by_rank.
      - constructor; [by_rank | exact Hall]. }
    destruct (JSMath.is_pos_zero x && JSMath.is_neg_zero h) eqn:Ez.
    + apply andb_prop in Ez as [Ex Eh].
      apply is_pos_zero_rk in Ex. apply is_neg_zero_rk in Eh.
      apply Hstep; auto.
      * rewrite ltb_rk_false by auto. rewrite Ex, Eh. unfold lex_lt. lia.
      * by_rank.
    + destruct (h <? x)%float eqn:Elt.
      * apply Hstep; auto; by_rank.
      * apply Hstep; auto; by_rank.
Qed.

Lemma min_from_spec (coerced : list float) :
  Forall not_nan coerced ->
  forall lowest, not_nan lowest ->
    let r := JSMath.min_from lowest coerced in
    (r = lowest \/ In r coerced)
    /\ not_nan r
    /\ (lowest <? r)%float = false
    /\ Forall (fun x => (x <? r)%float = false) coerced.
Proof.
  induction 1 as [|x l Hx Hl IH]; intros h Hh; cbn [JSMath.min_from].
  - repeat split; auto. by_rank.
  - rewrite (proj2 (is_nan_false x) Hx).
    assert (Hstep : forall h', not_nan h' -> (h' = x \/ h' = h) ->
              (h <? h')%float = false -> (x <? h')%float = false ->
              let r := JSMath.min_from h' l in
              (r = h \/ In r (x :: l)) /\ not_nan r /\ (h <? r)%float = false
              /\ Forall (fun x => (x <? r)%float = false) (x :: l)).
    { intros h' Hh' Hor H1 H2. destruct (IH h' Hh') as (Hin & Hr & Hle & Hall).
      cbn zeta. repeat split.
      - destruct Hin as [-> | Hin]; [destruct Hor as [-> | ->] |]; cbn; auto.
      - exact Hr.
      - by_rank.
      - constructor; [by_rank | exact Hall]. }
    destruct (JSMath.is_neg_zero x && JSMath.is_pos_zero h) eqn:Ez.
    + apply andb_prop in Ez as [Ex Eh].
      apply is_neg_zero_rk in Ex. apply is_pos_zero_rk in Eh.
      apply Hstep; auto.
      * rewrite ltb_rk_false by auto. rewrite Ex, Eh. unfold lex_lt. lia.
      * by_rank.
    + destruct (x <? h)%float eqn:Elt.
      * apply Hstep; auto; by_rank.
      * apply Hstep; auto; by_rank.
Qed.

End MathFacts.


(** ** Percentage: comparisons and bounds *)

Section PercentageFacts.

Lemma new_spec (x : float) :
  Percentage.new x
  = if (0 <=? x)%float && JSNumber.isFinite x then Ok (Percentage.Box x)
    else Throw DomainError.
Proof.
  unfold Percentage.new, JSNumber.assertType.
  destruct (0 <=? x)%float, (JSNumber.isFinite x); reflexivity.
Qed.

Lemma constructed_spec (p : Percentage.t) :
  Percentage.constructed p
  <-> (0 <=? Percentage.valueOf p)%float = true
      /\ JSNumber.isFinite (Percentage.valueOf p) = true.
Proof.
  unfold Percentage.constructed. rewrite new_spec. destruct p as [x]. cbn.
  destruct (0 <=? x)%float, (JSNumber.isFinite x); cbn; split;
    intros H; try discriminate; try tauto; destruct H; discriminate.
Qed.

Lemma new_constructed (x : float) (p : Percentage.t) :
  Percentage.new x = Ok p -> p = Percentage.Box x /\ Percentage.constructed p.
Proof.
  intros H. assert (p = Percentage.Box x) as ->.
  { rewrite new_spec in H. destruct (_ && _); congruence. }
  split; [reflexivity | exact H].
Qed.

Lemma constructed_not_nan (p : Percentage.t) :
  Percentage.constructed p -> not_nan (Percentage.valueOf p).
Proof.
  intros H. apply constructed_spec in H as [H _]. apply (leb_not_nan _ _ H).
Qed.

Lemma finite_below_infinity (x : float) :
  JSNumber.isFinite x = true -> (x <? infinity)%float = true.
Proof.
  unfold JSNumber.isFinite. rewrite is_finite_spec, FloatAxioms.ltb_spec, Prim2SF_infinity.
  destruct (Prim2SF x) as [[|]|[|]| |[|] m e]; cbn; congruence.
Qed.

Lemma In_valueOf (v : float) (pcts : list Percentage.t) :
  In v (List.map Percentage.valueOf pcts) -> In (Percentage.Box v) pcts.
Proof.
  rewrite in_map_iff. intros ([x] & <- & Hin). exact Hin.
Qed.

Lemma values_not_nan (pcts : list Percentage.t) :
  Forall Percentage.constructed pcts ->
  Forall not_nan (List.map Percentage.valueOf pcts).
Proof.
  intros H. apply List.Forall_map. eapply Forall_impl; [exact H |].
  exact constructed_not_nan.
Qed.

(** [Math.max] of the values of Percentages, one at least: the value of one of
    them, and none of them is above it. *)
Lemma max_values (p : Percentage.t) (pcts : list Percentage.t) :
  Forall Percentage.constructed (p :: pcts) ->
  let v := JSMath.max (List.map Percentage.valueOf (p :: pcts)) in
  In (Percentage.Box v) (p :: pcts)
  /\ Forall (fun q => (v <? Percentage.valueOf q)%float = false) (p :: pcts).
Proof.
  intros H. pose proof (values_not_nan _ H) as Hn.
  inversion H as [|? ? Hp Hpcts]; subst. inversion Hn as [|? ? Hnp Hnpcts]; subst.
  apply constructed_spec in Hp as [Hp0 Hpf].
  unfold JSMath.max. cbn [List.map JSMath.max_from].
  rewrite (proj2 (is_nan_false _) Hnp).
  replace (JSMath.is_neg_zero neg_infinity) with false by reflexivity.
  rewrite andb_false_r.
  assert ((neg_infinity <? Percentage.valueOf p)%float = true) as -> by by_rank.
  destruct (max_from_spec _ Hnpcts _ Hnp) as (Hin & Hr & Hle & Hall).
  split.
  - apply In_valueOf. cbn [List.map]. destruct Hin as [-> | Hin]; [left | right]; auto.
  - constructor; [exact Hle |]. rewrite List.Forall_map in Hall. exact Hall.
Qed.

Lemma min_values (p : Percentage.t) (pcts : list Percentage.t) :
  Forall Percentage.constructed (p :: pcts) ->
  let v := JSMath.min (List.map Percentage.valueOf (p :: pcts)) in
  In (Percentage.Box v) (p :: pcts)
  /\ Forall (fun q => (Percentage.valueOf q <? v)%float = false) (p :: pcts).
Proof.
  intros H. pose proof (values_not_nan _ H) as Hn.
  inversion H as [|? ? Hp Hpcts]; subst. inversion Hn as [|? ? Hnp Hnpcts]; subst.
  apply constructed_spec in Hp as [Hp0 Hpf].
  unfold JSMath.min. cbn [List.map JSMath.min_from].
  rewrite (proj2 (is_nan_false _) Hnp).
  replace (JSMath.is_pos_zero infinity) with false by reflexivity.
  rewrite andb_false_r.
  rewrite (finite_below_infinity _ Hpf).
  destruct (min_from_spec _ Hnpcts _ Hnp) as (Hin & Hr & Hle & Hall).
  split.
  - apply In_valueOf. cbn [List.map]. destruct Hin as [-> | Hin]; [left | right]; auto.
  - constructor; [exact Hle |]. rewrite List.Forall_map in Hall. exact Hall.
Qed.

Lemma max_spec (p : Percentage.t) (pcts : list Percentage.t) :
  Forall Percentage.constructed (p :: pcts) ->
  exists r, Percentage.max (p :: pcts) = Ok r
    /\ In r (p :: pcts)
    /\ Forall (fun q => (Percentage.valueOf r <? Percentage.valueOf q)%float = false)
              (p :: pcts).
Proof.
  intros H. destruct (max_values p pcts H) as [Hin Hall].
  exists (Percentage.Box (JSMath.max (List.map Percentage.valueOf (p :: pcts)))).
  split; [| split; [exact Hin | exact Hall]].
  unfold Percentage.max. rewrite List.Forall_forall in H. exact (H _ Hin).
Qed.

Lemma min_spec (p : Percentage.t) (pcts : list Percentage.t) :
  Forall Percentage.constructed (p :: pcts) ->
  exists r, Percentage.min (p :: pcts) = Ok r
    /\ In r (p :: pcts)
    /\ Forall (fun q => (Percentage.valueOf q <? Percentage.valueOf r)%float = false)
              (p :: pcts).
Proof.
  intros H. destruct (min_values p pcts H) as [Hin Hall].
  exists (Percentage.Box (JSMath.min (List.map Percentage.valueOf (p :: pcts)))).
  split; [| split; [exact Hin | exact Hall]].
  unfold Percentage.min. rewrite List.Forall_forall in H. exact (H _ Hin).
Qed.

End PercentageFacts.


(** X1: [equals] on constructed Percentages is an equivalence: every Percentage
    equals itself (what the shortcut [this === pct] of the source returns), the
    two sides can be exchanged, and two Percentages equal to a third are equal.
    Comparing with a number is comparing with the Percentage of that number. *)
Theorem equals_equivalence (p q r : Percentage.t) :
  Percentage.constructed p -> Percentage.constructed q -> Percentage.constructed r ->
  Percentage.equals p (Percentage.Pct p) = Ok true
  /\ Percentage.equals p (Percentage.Pct q) = Percentage.equals q (Percentage.Pct p)
  /\ (Percentage.equals p (Percentage.Pct q) = Ok true ->
      Percentage.equals q (Percentage.Pct r) = Ok true ->
      Percentage.equals p (Percentage.Pct r) = Ok true)
  /\ Percentage.equals p (Percentage.Number (Percentage.valueOf q))
     = Percentage.equals p (Percentage.Pct q).
Proof.
  intros Hp Hq Hr.
  pose proof (constructed_not_nan _ Hp). pose proof (constructed_not_nan _ Hq).
  pose proof (constructed_not_nan _ Hr).
  unfold Percentage.equals. repeat split.
  - f_equal. by_rank.
  - f_equal. destruct (Percentage.valueOf q =? Percentage.valueOf p)%float eqn:E; by_rank.
  - intros [= E1] [= E2]. f_equal. by_rank.
  - rewrite Hq. reflexivity.
Qed.

Lemma equals_equivalence_witness :
  Percentage.equals (Percentage.Box 0.5) (Percentage.Pct (Percentage.Box 0.5)) = Ok true
  /\ Percentage.equals (Percentage.Box 0) (Percentage.Pct (Percentage.Box (-0)))
     = Percentage.equals (Percentage.Box (-0)) (Percentage.Pct (Percentage.Box 0)).
Proof.
  split.
  - exact (proj1 (equals_equivalence (Percentage.Box 0.5) (Percentage.Box 0.5)
                    (Percentage.Box 0.5) eq_refl eq_refl eq_refl)).
  - exact (proj1 (proj2 (equals_equivalence (Percentage.Box 0) (Percentage.Box (-0))
                    (Percentage.Box 0.5) eq_refl eq_refl eq_refl))).
Defined.

(** X2: Of two constructed Percentages exactly one of three holds: the first is
    less than the second, they are equal, or the second is less than the first. *)
Theorem lessThan_trichotomy (p q : Percentage.t) :
  Percentage.constructed p -> Percentage.constructed q ->
  (Percentage.lessThan p (Percentage.Pct q) = Ok true
   /\ Percentage.equals p (Percentage.Pct q) = Ok false
   /\ Percentage.lessThan q (Percentage.Pct p) = Ok false)
  \/ (Percentage.lessThan p (Percentage.Pct q) = Ok false
      /\ Percentage.equals p (Percentage.Pct q) = Ok true
      /\ Percentage.lessThan q (Percentage.Pct p) = Ok false)
  \/ (Percentage.lessThan p (Percentage.Pct q) = Ok false
      /\ Percentage.equals p (Percentage.Pct q) = Ok false
      /\ Percentage.lessThan q (Percentage.Pct p) = Ok true).
Proof.
  intros Hp Hq.
  pose proof (constructed_not_nan _ Hp). pose proof (constructed_not_nan _ Hq).
  unfold Percentage.lessThan, Percentage.equals.
  destruct (Percentage.valueOf p <? Percentage.valueOf q)%float eqn:E1,
           (Percentage.valueOf p =? Percentage.valueOf q)%float eqn:E2,
           (Percentage.valueOf q <? Percentage.valueOf p)%float eqn:E3;
    try (exfalso; by_rank); auto.
Qed.

Lemma lessThan_trichotomy_witness :
  (Percentage.lessThan (Percentage.Box 0.25) (Percentage.Pct (Percentage.Box 0.5)) = Ok true
   /\ Percentage.equals (Percentage.Box 0.25) (Percentage.Pct (Percentage.Box 0.5)) = Ok false
   /\ Percentage.lessThan (Percentage.Box 0.5) (Percentage.Pct (Percentage.Box 0.25)) = Ok false)
  \/ (Percentage.lessThan (Percentage.Box 0.25) (Percentage.Pct (Percentage.Box 0.5)) = Ok false
      /\ Percentage.equals (Percentage.Box 0.25) (Percentage.Pct (Percentage.Box 0.5)) = Ok true
      /\ Percentage.lessThan (Percentage.Box 0.5) (Percentage.Pct (Percentage.Box 0.25)) = Ok false)
  \/ (Percentage.lessThan (Percentage.Box 0.25) (Percentage.Pct (Percentage.Box 0.5)) = Ok false
      /\ Percentage.equals (Percentage.Box 0.25) (Percentage.Pct (Percentage.Box 0.5)) = Ok false
      /\ Percentage.lessThan (Percentage.Box 0.5) (Percentage.Pct (Percentage.Box 0.25)) = Ok true).
Proof.
  exact (lessThan_trichotomy (Percentage.Box 0.25) (Percentage.Box 0.5) eq_refl eq_refl).
Defined.

(** X3: [lessThan] on constructed Percentages is a strict order that agrees with
    [equals]: no Percentage is less than itself, less than is transitive, and a
    Percentage can be replaced by an equal one on either side. *)
Theorem lessThan_strict_order (p q r : Percentage.t) :
  Percentage.constructed p -> Percentage.constructed q -> Percentage.constructed r ->
  Percentage.lessThan p (Percentage.Pct p) = Ok false
  /\ (Percentage.lessThan p (Percentage.Pct q) = Ok true ->
      Percentage.lessThan q (Percentage.Pct r) = Ok true ->
      Percentage.lessThan p (Percentage.Pct r) = Ok true)
  /\ (Percentage.equals p (Percentage.Pct q) = Ok true ->
      Percentage.lessThan p (Percentage.Pct r) = Percentage.lessThan q (Percentage.Pct r)
      /\ Percentage.lessThan r (Percentage.Pct p) = Percentage.lessThan r (Percentage.Pct q)).
Proof.
  intros Hp Hq Hr.
  pose proof (constructed_not_nan _ Hp). pose proof (constructed_not_nan _ Hq).
  pose proof (constructed_not_nan _ Hr).
  unfold Percentage.lessThan, Percentage.equals.
  split; [| split].
  - f_equal. by_rank.
  - intros [= E1] [= E2]. f_equal. by_rank.
  - intros [= E]. split; f_equal.
    + destruct (Percentage.valueOf q <? Percentage.valueOf r)%float eqn:E'; by_rank.
    + destruct (Percentage.valueOf r <? Percentage.valueOf q)%float eqn:E'; by_rank.
Qed.

Lemma lessThan_strict_order_witness :
  Percentage.lessThan (Percentage.Box 0.25) (Percentage.Pct (Percentage.Box 0.25)) = Ok false
  /\ Percentage.lessThan (Percentage.Box 0.25) (Percentage.Pct (Percentage.Box 0.75)) = Ok true.
Proof.
  pose proof (lessThan_strict_order (Percentage.Box 0.25) (Percentage.Box 0.5)
                (Percentage.Box 0.75) eq_refl eq_refl eq_refl) as (H1 & H2 & _).
  split; [exact H1 | apply H2; reflexivity].
Defined.

(** X4: [Percentage.max] of no Percentage throws: [Math.max()] is [-Infinity],
    which the constructor refuses. Of one or more constructed Percentages it
    returns one of them, and none of them is greater. *)
Theorem max_greatest (pcts : list Percentage.t) :
  Forall Percentage.constructed pcts ->
  (pcts = [] -> Percentage.max pcts = Throw DomainError)
  /\ (pcts <> [] ->
      exists r, Percentage.max pcts = Ok r
        /\ In r pcts
        /\ forall p, In p pcts -> Percentage.lessThan r (Percentage.Pct p) = Ok false).
Proof.
  intros H. split.
  - intros ->. reflexivity.
  - intros Hne. destruct pcts as [|p pcts]; [congruence |].
    destruct (max_spec p pcts H) as (r & Hr & Hin & Hall).
    exists r. split; [exact Hr | split; [exact Hin |]].
    intros q Hq. rewrite List.Forall_forall in Hall.
    unfold Percentage.lessThan. rewrite (Hall q Hq). reflexivity.
Qed.

Lemma max_greatest_witness :
  Percentage.max [] = Throw DomainError
  /\ exists r, Percentage.max [Percentage.Box 0.25; Percentage.Box 0.75; Percentage.Box 0.5] = Ok r
    /\ In r [Percentage.Box 0.25; Percentage.Box 0.75; Percentage.Box 0.5]
    /\ forall p, In p [Percentage.Box 0.25; Percentage.Box 0.75; Percentage.Box 0.5] ->
         Percentage.lessThan r (Percentage.Pct p) = Ok false.
Proof.
  split.
  - apply (max_greatest []); [constructor | reflexivity].
  - apply (max_greatest [Percentage.Box 0.25; Percentage.Box 0.75; Percentage.Box 0.5]).
    + repeat constructor.
    + discriminate.
Defined.

(** X5: [Percentage.min] of no Percentage throws: [Math.min()] is [Infinity],
    which the constructor refuses. Of one or more constructed Percentages it
    returns one of them, and it is greater than none of them. *)
Theorem min_least (pcts : list Percentage.t) :
  Forall Percentage.constructed pcts ->
  (pcts = [] -> Percentage.min pcts = Throw DomainError)
  /\ (pcts <> [] ->
      exists r, Percentage.min pcts = Ok r
        /\ In r pcts
        /\ forall p, In p pcts -> Percentage.lessThan p (Percentage.Pct r) = Ok false).
Proof.
  intros H. split.
  - intros ->. reflexivity.
  - intros Hne. destruct pcts as [|p pcts]; [congruence |].
    destruct (min_spec p pcts H) as (r & Hr & Hin & Hall).
    exists r. split; [exact Hr | split; [exact Hin |]].
    intros q Hq. rewrite List.Forall_forall in Hall.
    unfold Percentage.lessThan. rewrite (Hall q Hq). reflexivity.
Qed.

Lemma min_least_witness :
  Percentage.min [] = Throw DomainError
  /\ exists r, Percentage.min [Percentage.Box 0.25; Percentage.Box 0.75; Percentage.Box 0.5] = Ok r
    /\ In r [Percentage.Box 0.25; Percentage.Box 0.75; Percentage.Box 0.5]
    /\ forall p, In p [Percentage.Box 0.25; Percentage.Box 0.75; Percentage.Box 0.5] ->
         Percentage.lessThan p (Percentage.Pct r) = Ok false.
Proof.
  split.
  - apply (min_least []); [constructor | reflexivity].
  - apply (min_least [Percentage.Box 0.25; Percentage.Box 0.75; Percentage.Box 0.5]).
    + repeat constructor.
    + discriminate.
Defined.


(** ** Percentage: [clamp] *)

Section ClampFacts.

Variables this lo hi : Percentage.t.
Hypothesis Hthis : Percentage.constructed this.
Hypothesis Hlo : Percentage.constructed lo.
Hypothesis Hhi : Percentage.constructed hi.

(** Bounds in order: the call computes the result at once. *)
Lemma clamp_in_order (fuel : nat) :
  (Percentage.valueOf hi <? Percentage.valueOf lo)%float = false ->
  Percentage.clamp_fuel (S fuel) this (Percentage.Pct lo) (Percentage.Pct hi)
  = let* m := Percentage.max [lo; this] in Percentage.min [m; hi].
Proof.
  intros E.
  pose proof (constructed_not_nan _ Hlo). pose proof (constructed_not_nan _ Hhi).
  cbn [Percentage.clamp_fuel Percentage.lessThan Percentage.equals bind].
  destruct (Percentage.valueOf lo <? Percentage.valueOf hi)%float eqn:E1; cbn [bind].
  - reflexivity.
  - assert ((Percentage.valueOf lo =? Percentage.valueOf hi)%float = true) as -> by by_rank.
    reflexivity.
Qed.

(** Bounds out of order: the call repeats itself with the bounds exchanged. *)
Lemma clamp_out_of_order (fuel : nat) :
  (Percentage.valueOf hi <? Percentage.valueOf lo)%float = true ->
  Percentage.clamp_fuel (S fuel) this (Percentage.Pct lo) (Percentage.Pct hi)
  = Percentage.clamp_fuel fuel this (Percentage.Pct hi) (Percentage.Pct lo).
Proof.
  intros E.
  pose proof (constructed_not_nan _ Hlo). pose proof (constructed_not_nan _ Hhi).
  cbn [Percentage.clamp_fuel Percentage.lessThan Percentage.equals bind].
  assert ((Percentage.valueOf lo <? Percentage.valueOf hi)%float = false) as -> by by_rank.
  assert ((Percentage.valueOf lo =? Percentage.valueOf hi)%float = false) as -> by by_rank.
  reflexivity.
Qed.

(** [Percentage.min(Percentage.max(lo, this), hi)] for bounds in order. *)
Lemma min_max_spec :
  (Percentage.valueOf hi <? Percentage.valueOf lo)%float = false ->
  exists r,
    (let* m := Percentage.max [lo; this] in Percentage.min [m; hi]) = Ok r
    /\ In r [lo; this; hi]
    /\ (Percentage.valueOf r <? Percentage.valueOf lo)%float = false
    /\ (Percentage.valueOf hi <? Percentage.valueOf r)%float = false
    /\ ((Percentage.valueOf this <? Percentage.valueOf lo)%float = true ->
        (Percentage.valueOf r =? Percentage.valueOf lo)%float = true)
    /\ ((Percentage.valueOf hi <? Percentage.valueOf this)%float = true ->
        (Percentage.valueOf r =? Percentage.valueOf hi)%float = true)
    /\ ((Percentage.valueOf this <? Percentage.valueOf lo)%float = false ->
        (Percentage.valueOf hi <? Percentage.valueOf this)%float = false ->
        (Percentage.valueOf r =? Percentage.valueOf this)%float = true).
Proof.
  intros E.
  pose proof (constructed_not_nan _ Hthis). pose proof (constructed_not_nan _ Hlo).
  pose proof (constructed_not_nan _ Hhi).
  destruct (max_spec lo [this]) as (m & Hm & Hmin & Hmall); [repeat constructor; auto |].
  assert (Hmc : Percentage.constructed m).
  { destruct Hmin as [<- | [<- | []]]; auto. }
  pose proof (constructed_not_nan _ Hmc).
  destruct (min_spec m [hi]) as (r & Hr & Hrin & Hrall); [repeat constructor; auto |].
  exists r. rewrite Hm. cbn [bind]. split; [exact Hr |].
  inversion Hmall as [|? ? M1 Hmall']; subst. inversion Hmall' as [|? ? M2 _]; subst.
  inversion Hrall as [|? ? R1 Hrall']; subst. inversion Hrall' as [|? ? R2 _]; subst.
  assert (Hrc : Percentage.constructed r).
  { destruct Hrin as [<- | [<- | []]]; auto. }
  pose proof (constructed_not_nan _ Hrc).
  split.
  { destruct Hrin as [<- | [<- | []]]; [| cbn; auto].
    destruct Hmin as [<- | [<- | []]]; cbn; auto. }
  destruct Hmin as [<- | [<- | []]]; destruct Hrin as [<- | [<- | []]];
    repeat split; intros; by_rank.
Qed.

End ClampFacts.

(** ** Percentage: the depth of [clamp] *)

Section ClampFuel.

Lemma of_arg_constructed (a : Percentage.arg) (p : Percentage.t) :
  Percentage.of_arg a = Ok p -> Percentage.constructed p.
Proof.
  destruct a as [q | x]; cbn [Percentage.of_arg]; intros H;
    exact (proj2 (new_constructed _ _ H)).
Qed.

Lemma of_arg_throws (a : Percentage.arg) (e : error) :
  Percentage.of_arg a = Throw e -> e = DomainError.
Proof.
  destruct a as [q | x]; cbn [Percentage.of_arg]; rewrite new_spec;
    destruct (_ && _); congruence.
Qed.

Lemma clamp_fuel_percentages (this lo hi : Percentage.t) (fuel : nat) :
  Percentage.constructed lo -> Percentage.constructed hi ->
  Percentage.clamp_fuel (S (S fuel)) this (Percentage.Pct lo) (Percentage.Pct hi)
  = Percentage.clamp_fuel 2 this (Percentage.Pct lo) (Percentage.Pct hi).
Proof.
  intros Hlo Hhi.
  destruct (Percentage.valueOf hi <? Percentage.valueOf lo)%float eqn:E.
  - rewrite !(clamp_out_of_order this lo hi Hlo Hhi _ E).
    assert (E2 : (Percentage.valueOf lo <? Percentage.valueOf hi)%float = false).
    { pose proof (constructed_not_nan _ Hlo). pose proof (constructed_not_nan _ Hhi).
      by_rank. }
    rewrite !(clamp_in_order this hi lo Hhi Hlo _ E2). reflexivity.
  - rewrite !(clamp_in_order this lo hi Hlo Hhi _ E). reflexivity.
Qed.

(** Three levels of [clamp] are enough, and more change nothing: for bounds
    that are numbers, or Percentages that were constructed. *)
Lemma clamp_fuel_enough (this : Percentage.t) (min max : Percentage.arg) (fuel : nat) :
  (forall lo hi, min = Percentage.Pct lo -> max = Percentage.Pct hi ->
     Percentage.constructed lo /\ Percentage.constructed hi) ->
  (3 <= fuel)%nat ->
  Percentage.clamp_fuel fuel this min max = Percentage.clamp this min max
  /\ Percentage.clamp this min max <> Throw OutOfFuel.
Proof.
  intros Hc Hfuel. destruct fuel as [|[|[|fuel]]]; try lia. unfold Percentage.clamp.
  assert (Hpct : forall lo hi f,
            Percentage.constructed lo -> Percentage.constructed hi ->
            Percentage.clamp_fuel (S (S f)) this (Percentage.Pct lo) (Percentage.Pct hi)
            <> Throw OutOfFuel).
  { intros lo hi f Hlo Hhi. rewrite clamp_fuel_percentages by assumption.
    pose proof (constructed_not_nan _ Hlo). pose proof (constructed_not_nan _ Hhi).
    destruct (Percentage.valueOf hi <? Percentage.valueOf lo)%float eqn:E.
    - rewrite (clamp_out_of_order this lo hi Hlo Hhi _ E).
      assert (E2 : (Percentage.valueOf lo <? Percentage.valueOf hi)%float = false)
        by by_rank.
      rewrite (clamp_in_order this hi lo Hhi Hlo _ E2).
      unfold Percentage.max, Percentage.min. rewrite !new_spec.
      destruct (_ && _); cbn [bind]; [| discriminate].
      rewrite new_spec. destruct (_ && _); discriminate.
    - rewrite (clamp_in_order this lo hi Hlo Hhi _ E).
      unfold Percentage.max, Percentage.min. rewrite !new_spec.
      destruct (_ && _); cbn [bind]; [| discriminate].
      rewrite new_spec. destruct (_ && _); discriminate. }
  assert (Hnum : forall f,
            (forall lo hi, min = Percentage.Pct lo -> max = Percentage.Pct hi -> False) ->
            Percentage.clamp_fuel (S (S (S f))) this min max
            = let* lo := Percentage.of_arg min in
              let* hi := Percentage.of_arg max in
              Percentage.clamp_fuel (S (S f)) this (Percentage.Pct lo) (Percentage.Pct hi)).
  { intros f Hn. destruct min as [lo | x], max as [hi | y]; try reflexivity.
    destruct (Hn lo hi eq_refl eq_refl). }
  destruct min as [lo | x] eqn:Emin, max as [hi | y] eqn:Emax.
  1: { destruct (Hc lo hi eq_refl eq_refl) as [Hlo Hhi].
       split; [| apply Hpct; assumption].
       rewrite (clamp_fuel_percentages this lo hi (S fuel)),
         (clamp_fuel_percentages this lo hi 1) by assumption. reflexivity. }
  all: rewrite !Hnum by (intros ? ? ? ?; discriminate).
  all: destruct (Percentage.of_arg _) as [lo' | e1] eqn:E1; cbn [bind];
       [| apply of_arg_throws in E1 as ->; split; [reflexivity | discriminate]].
  all: destruct (Percentage.of_arg _) as [hi' | e2] eqn:E2 in |- *; cbn [bind];
       [| apply of_arg_throws in E2 as ->; split; [reflexivity | discriminate]].
  all: pose proof (of_arg_constructed _ _ E1) as Hlo;
       pose proof (of_arg_constructed _ _ E2) as Hhi.
  all: split; [| apply Hpct; assumption].
  all: rewrite (clamp_fuel_percentages this lo' hi' fuel) by assumption; reflexivity.
Qed.

(** [clamp] with numbers as bounds is [clamp] with their Percentages. *)
Lemma clamp_numbers (this : Percentage.t) (x y : float) (lo hi : Percentage.t) :
  Percentage.new x = Ok lo -> Percentage.new y = Ok hi ->
  Percentage.clamp this (Percentage.Number x) (Percentage.Number y)
  = Percentage.clamp this (Percentage.Pct lo) (Percentage.Pct hi).
Proof.
  intros Hx Hy.
  destruct (new_constructed _ _ Hx) as [_ Hlo], (new_constructed _ _ Hy) as [_ Hhi].
  unfold Percentage.clamp.
  change (Percentage.clamp_fuel 3 this (Percentage.Number x) (Percentage.Number y))
    with (let* lo := Percentage.new x in
          let* hi := Percentage.new y in
          Percentage.clamp_fuel 2 this (Percentage.Pct lo) (Percentage.Pct hi)).
  rewrite Hx, Hy. cbn [bind].
  rewrite (clamp_fuel_percentages this lo hi 1) by assumption. reflexivity.
Qed.

(** [clamp] with constructed Percentages as bounds returns one of the three
    Percentages. *)
Lemma clamp_returns (this lo hi : Percentage.t) :
  Percentage.constructed this -> Percentage.constructed lo -> Percentage.constructed hi ->
  exists r, Percentage.clamp this (Percentage.Pct lo) (Percentage.Pct hi) = Ok r
    /\ In r [lo; this; hi].
Proof.
  intros Hthis Hlo Hhi. unfold Percentage.clamp.
  destruct (Percentage.valueOf hi <? Percentage.valueOf lo)%float eqn:E.
  - assert (E2 : (Percentage.valueOf lo <? Percentage.valueOf hi)%float = false).
    { pose proof (constructed_not_nan _ Hlo). pose proof (constructed_not_nan _ Hhi).
      by_rank. }
    rewrite (clamp_out_of_order this lo hi Hlo Hhi _ E).
    rewrite (clamp_in_order this hi lo Hhi Hlo _ E2).
    destruct (min_max_spec this hi lo Hthis Hhi Hlo E2) as (r & Hr & Hin & _).
    exists r. split; [exact Hr |]. cbn in Hin |- *. tauto.
  - rewrite (clamp_in_order this lo hi Hlo Hhi _ E).
    destruct (min_max_spec this lo hi Hthis Hlo Hhi E) as (r & Hr & Hin & _).
    exists r. split; [exact Hr | exact Hin].
Qed.

(** [clamp()]: the bounds are 0% and 100%, in order. *)
Lemma clamp_default_spec (p : Percentage.t) :
  Percentage.constructed p ->
  exists r,
    Percentage.clamp_default p = Ok r
    /\ In r [Percentage.MULT_ABSORB; p; Percentage.MULT_IDEN]
    /\ (1 <? Percentage.valueOf r)%float = false
    /\ ((1 <? Percentage.valueOf p)%float = true ->
        (Percentage.valueOf r =? 1)%float = true)
    /\ ((1 <? Percentage.valueOf p)%float = false ->
        (Percentage.valueOf r =? Percentage.valueOf p)%float = true).
Proof.
  intros Hp.
  pose proof (constructed_not_nan _ Hp) as Np.
  pose proof (constructed_nonneg _ Hp) as H0.
  unfold Percentage.clamp_default.
  rewrite (clamp_numbers p 0 1 Percentage.MULT_ABSORB Percentage.MULT_IDEN eq_refl eq_refl).
  unfold Percentage.clamp.
  rewrite (clamp_in_order p Percentage.MULT_ABSORB Percentage.MULT_IDEN eq_refl eq_refl
             _ eq_refl).
  destruct (min_max_spec p Percentage.MULT_ABSORB Percentage.MULT_IDEN Hp eq_refl eq_refl
              eq_refl) as (r & Hr & Hin & _ & H2 & _ & H4 & H5).
  cbn [Percentage.valueOf Percentage.MULT_IDEN Percentage.MULT_ABSORB] in *.
  exists r. split; [exact Hr | split; [exact Hin | split; [exact H2 | split; [exact H4 |]]]].
  intros E. apply H5; [by_rank | exact E].
Qed.

End ClampFuel.


(** X6: [clamp] between two constructed Percentages in order: it returns one of
    the three Percentages, not below the lower bound and not above the upper
    one; the lower bound (up to [equals]) when this is below it, the upper bound
    when this is above it, and this otherwise. *)
Theorem clamp_between (this lo hi : Percentage.t) :
  Percentage.constructed this -> Percentage.constructed lo -> Percentage.constructed hi ->
  Percentage.lessThan hi (Percentage.Pct lo) = Ok false ->
  exists r,
    Percentage.clamp this (Percentage.Pct lo) (Percentage.Pct hi) = Ok r
    /\ In r [lo; this; hi]
    /\ Percentage.lessThan r (Percentage.Pct lo) = Ok false
    /\ Percentage.lessThan hi (Percentage.Pct r) = Ok false
    /\ (Percentage.lessThan this (Percentage.Pct lo) = Ok true ->
        Percentage.equals r (Percentage.Pct lo) = Ok true)
    /\ (Percentage.lessThan hi (Percentage.Pct this) = Ok true ->
        Percentage.equals r (Percentage.Pct hi) = Ok true)
    /\ (Percentage.lessThan this (Percentage.Pct lo) = Ok false ->
        Percentage.lessThan hi (Percentage.Pct this) = Ok false ->
        Percentage.equals r (Percentage.Pct this) = Ok true).
Proof.
  intros Hthis Hlo Hhi [= E].
  destruct (min_max_spec this lo hi Hthis Hlo Hhi E) as (r & Hr & Hin & H1 & H2 & H3 & H4 & H5).
  exists r. unfold Percentage.clamp. rewrite (clamp_in_order this lo hi Hlo Hhi _ E).
  unfold Percentage.lessThan, Percentage.equals.
  split; [exact Hr | split; [exact Hin |]].
  split; [congruence | split; [congruence |]].
  split; [intros [= E']; rewrite (H3 E'); reflexivity |].
  split; [intros [= E']; rewrite (H4 E'); reflexivity |].
  intros [= E1] [= E2]. rewrite (H5 E1 E2). reflexivity.
Qed.

Lemma clamp_between_witness :
  exists r,
    Percentage.clamp (Percentage.Box 0.75) (Percentage.Pct (Percentage.Box 0.25))
                     (Percentage.Pct (Percentage.Box 0.5)) = Ok r
    /\ In r [Percentage.Box 0.25; Percentage.Box 0.75; Percentage.Box 0.5]
    /\ Percentage.equals r (Percentage.Pct (Percentage.Box 0.5)) = Ok true.
Proof.
  destruct (clamp_between (Percentage.Box 0.75) (Percentage.Box 0.25) (Percentage.Box 0.5)
              eq_refl eq_refl eq_refl eq_refl) as (r & Hr & Hin & _ & _ & _ & H & _).
  exists r. split; [exact Hr | split; [exact Hin | apply H; reflexivity]].
Defined.

(** X7: [clamp] exchanges bounds that are out of order: with constructed
    Percentages as bounds it never throws, and the two orders of the bounds give
    equal results, the same Percentage unless the bounds are equal. *)
Theorem clamp_exchanges_bounds (this a b : Percentage.t) :
  Percentage.constructed this -> Percentage.constructed a -> Percentage.constructed b ->
  exists r r',
    Percentage.clamp this (Percentage.Pct a) (Percentage.Pct b) = Ok r
    /\ Percentage.clamp this (Percentage.Pct b) (Percentage.Pct a) = Ok r'
    /\ Percentage.equals r (Percentage.Pct r') = Ok true
    /\ (Percentage.equals a (Percentage.Pct b) = Ok false -> r = r').
Proof.
  intros Hthis Ha Hb.
  pose proof (constructed_not_nan _ Ha) as Na. pose proof (constructed_not_nan _ Hb) as Nb.
  unfold Percentage.clamp, Percentage.equals.
  destruct (Percentage.valueOf b <? Percentage.valueOf a)%float eqn:E1;
    [| destruct (Percentage.valueOf a <? Percentage.valueOf b)%float eqn:E2].
  - assert (E2 : (Percentage.valueOf a <? Percentage.valueOf b)%float = false) by by_rank.
    destruct (min_max_spec this b a Hthis Hb Ha E2) as (r & Hr & Hin & _).
    assert (Hrc : Percentage.constructed r).
    { destruct Hin as [<- | [<- | [<- | []]]]; auto. }
    pose proof (constructed_not_nan _ Hrc).
    exists r, r.
    rewrite (clamp_out_of_order this a b Ha Hb _ E1).
    rewrite !(clamp_in_order this b a Hb Ha _ E2).
    split; [exact Hr | split; [exact Hr | split; [| reflexivity]]].
    f_equal. by_rank.
  - destruct (min_max_spec this a b Hthis Ha Hb E1) as (r & Hr & Hin & _).
    assert (Hrc : Percentage.constructed r).
    { destruct Hin as [<- | [<- | [<- | []]]]; auto. }
    pose proof (constructed_not_nan _ Hrc).
    exists r, r.
    rewrite (clamp_out_of_order this b a Hb Ha _ E2).
    rewrite !(clamp_in_order this a b Ha Hb _ E1).
    split; [exact Hr | split; [exact Hr | split; [| reflexivity]]].
    f_equal. by_rank.
  - destruct (min_max_spec this a b Hthis Ha Hb E1) as (r & Hr & Hin & R1 & R2 & _).
    destruct (min_max_spec this b a Hthis Hb Ha E2) as (r' & Hr' & Hin' & R1' & R2' & _).
    assert (Hrc : Percentage.constructed r).
    { destruct Hin as [<- | [<- | [<- | []]]]; auto. }
    assert (Hrc' : Percentage.constructed r').
    { destruct Hin' as [<- | [<- | [<- | []]]]; auto. }
    pose proof (constructed_not_nan _ Hrc). pose proof (constructed_not_nan _ Hrc').
    exists r, r'.
    rewrite (clamp_in_order this a b Ha Hb _ E1), (clamp_in_order this b a Hb Ha _ E2).
    split; [exact Hr | split; [exact Hr' | split]].
    + f_equal. by_rank.
    + intros [= E]. exfalso. by_rank.
Qed.

Lemma clamp_exchanges_bounds_witness :
  exists r r',
    Percentage.clamp (Percentage.Box 0.75) (Percentage.Pct (Percentage.Box 0.5))
                     (Percentage.Pct (Percentage.Box 0.25)) = Ok r
    /\ Percentage.clamp (Percentage.Box 0.75) (Percentage.Pct (Percentage.Box 0.25))
                        (Percentage.Pct (Percentage.Box 0.5)) = Ok r'
    /\ Percentage.equals r (Percentage.Pct r') = Ok true
    /\ (Percentage.equals (Percentage.Box 0.5) (Percentage.Pct (Percentage.Box 0.25)) = Ok false ->
        r = r').
Proof.
  exact (clamp_exchanges_bounds (Percentage.Box 0.75) (Percentage.Box 0.5)
           (Percentage.Box 0.25) eq_refl eq_refl eq_refl).
Defined.

(** X8: [clamp] with numbers as bounds: a bound that is negative, infinite or
    [NaN] makes it throw the constructor's error; otherwise the call is the call
    with the Percentages of the two numbers, and returns. *)
Theorem clamp_number_bounds (this : Percentage.t) (x y : float) :
  Percentage.constructed this ->
  (forall lo hi, Percentage.new x = Ok lo -> Percentage.new y = Ok hi ->
     Percentage.clamp this (Percentage.Number x) (Percentage.Number y)
     = Percentage.clamp this (Percentage.Pct lo) (Percentage.Pct hi)
     /\ exists r, Percentage.clamp this (Percentage.Number x) (Percentage.Number y) = Ok r)
  /\ (Percentage.new x = Throw DomainError \/ Percentage.new y = Throw DomainError ->
      Percentage.clamp this (Percentage.Number x) (Percentage.Number y) = Throw DomainError).
Proof.
  intros Hthis. split.
  - intros lo hi Hx Hy.
    destruct (new_constructed _ _ Hx) as [_ Hlo], (new_constructed _ _ Hy) as [_ Hhi].
    pose proof (clamp_numbers this x y lo hi Hx Hy) as E.
    split; [exact E |]. rewrite E.
    destruct (clamp_returns this lo hi Hthis Hlo Hhi) as (r & Hr & _). eauto.
  - unfold Percentage.clamp.
    change (Percentage.clamp_fuel 3 this (Percentage.Number x) (Percentage.Number y))
      with (let* lo := Percentage.new x in
            let* hi := Percentage.new y in
            Percentage.clamp_fuel 2 this (Percentage.Pct lo) (Percentage.Pct hi)).
    intros [Hx | Hy].
    + rewrite Hx. reflexivity.
    + rewrite Hy. rewrite new_spec. destruct (_ && _); reflexivity.
Qed.

Lemma clamp_number_bounds_witness :
  (exists r, Percentage.clamp (Percentage.Box 0.75) (Percentage.Number 0.25)
                              (Percentage.Number 0.5) = Ok r)
  /\ Percentage.clamp (Percentage.Box 0.75) (Percentage.Number (-1)) (Percentage.Number 0.5)
     = Throw DomainError.
Proof.
  destruct (clamp_number_bounds (Percentage.Box 0.75) 0.25 0.5 eq_refl) as [H _].
  destruct (clamp_number_bounds (Percentage.Box 0.75) (-1) 0.5 eq_refl) as [_ H'].
  split.
  - exact (proj2 (H _ _ eq_refl eq_refl)).
  - apply H'. left. reflexivity.
Defined.

(** X9: [clamp()], with the default bounds 0 and 1: a constructed Percentage not
    above 100% is returned (up to [equals]), one above is replaced by 100%. *)
Theorem clamp_default_unit_interval (p : Percentage.t) :
  Percentage.constructed p ->
  ((1 <? Percentage.valueOf p)%float = false ->
     exists r, Percentage.clamp_default p = Ok r
       /\ Percentage.equals r (Percentage.Pct p) = Ok true)
  /\ ((1 <? Percentage.valueOf p)%float = true ->
      Percentage.clamp_default p = Ok Percentage.MULT_IDEN).
Proof.
  intros Hp.
  destruct (clamp_default_spec p Hp) as (r & Hr & Hin & _ & H4 & H5).
  rewrite Hr. split; intros E1.
  - exists r. split; [reflexivity |]. unfold Percentage.equals.
    rewrite (H5 E1). reflexivity.
  - specialize (H4 E1). pose proof (constructed_not_nan _ Hp).
    destruct Hin as [<- | [<- | [<- | []]]].
    + discriminate.
    + exfalso. by_rank.
    + reflexivity.
Qed.

Lemma clamp_default_unit_interval_witness :
  (exists r, Percentage.clamp_default (Percentage.Box 0.25) = Ok r
     /\ Percentage.equals r (Percentage.Pct (Percentage.Box 0.25)) = Ok true)
  /\ Percentage.clamp_default (Percentage.Box 1.5) = Ok Percentage.MULT_IDEN.
Proof.
  split.
  - apply (proj1 (clamp_default_unit_interval (Percentage.Box 0.25) eq_refl)). reflexivity.
  - apply (proj2 (clamp_default_unit_interval (Percentage.Box 1.5) eq_refl)). reflexivity.
Defined.

(** X10: After [clamp()] the conjugate exists: for every constructed Percentage,
    [p.clamp().conjugate] returns a Percentage, itself not above 100%. *)
Theorem clamp_default_conjugate (p : Percentage.t) :
  Percentage.constructed p ->
  exists c q,
    Percentage.clamp_default p = Ok c
    /\ Percentage.conjugate c = Ok q
    /\ Percentage.lessThan Percentage.MULT_IDEN (Percentage.Pct q) = Ok false.
Proof.
  intros Hp.
  destruct (clamp_default_spec p Hp) as (c & Hc & Hin & H2 & _).
  assert (Hcc : Percentage.constructed c).
  { destruct Hin as [<- | [<- | [<- | []]]]; auto; reflexivity. }
  destruct (conjugate_in_range c Hcc H2) as (Hq & _ & Hq1).
  exists c, (Percentage.Box (1 - Percentage.valueOf c)%float).
  split; [exact Hc | split; [exact Hq |]].
  unfold Percentage.lessThan. cbn [Percentage.valueOf Percentage.MULT_IDEN].
  rewrite Hq1. reflexivity.
Qed.

Lemma clamp_default_conjugate_witness :
  exists c q,
    Percentage.clamp_default (Percentage.Box 1.5) = Ok c
    /\ Percentage.conjugate c = Ok q
    /\ Percentage.lessThan Percentage.MULT_IDEN (Percentage.Pct q) = Ok false.
Proof.
  exact (clamp_default_conjugate (Percentage.Box 1.5) eq_refl).
Defined.


(** ** Percentage: products *)

Section Products.

Lemma SFmul_comm (x y : spec_float) : SFmul prec emax x y = SFmul prec emax y x.
Proof.
  destruct x as [[|]|[|]| |sx mx ex], y as [[|]|[|]| |sy my ey];
    cbn [SFmul xorb]; try reflexivity;
    try (destruct sx; reflexivity); try (destruct sy; reflexivity).
  rewrite (Pos.mul_comm mx my), (Z.add_comm ex ey), (xorb_comm sx sy). reflexivity.
Qed.

Lemma mul_comm (x y : float) : (x * y)%float = (y * x)%float.
Proof.
  apply Prim2SF_inj. rewrite !mul_spec. apply SFmul_comm.
Qed.

(** Rounding keeps the sign, and gives a number. *)
Lemma binary_round_aux_sign (s : bool) (mx ex : Z) :
  0 <= mx ->
  match binary_round_aux prec emax s mx ex loc_Exact with
  | S754_nan => False
  | S754_zero s' | S754_infinity s' | S754_finite s' _ _ => s' = s
  end.
Proof.
  intros Hmx. unfold binary_round_aux.
  destruct (shr_fexp_exact mx ex Hmx) as (_ & I1 & _).
  destruct (shr_fexp prec emax mx ex loc_Exact) as [r1 e1]. cbn [fst snd] in *.
  destruct I1 as (I1a & _).
  pose proof (round_nearest_even_bounds r1) as [Hr _].
  set (m1 := round_nearest_even (shr_m r1) (loc_of_shr_record r1)) in *.
  assert (H0m1 : 0 <= m1) by lia.
  destruct (shr_fexp_exact m1 e1 H0m1) as (_ & I2 & _).
  destruct (shr_fexp prec emax m1 e1 loc_Exact) as [r2 e2]. cbn [fst snd] in *.
  destruct I2 as (I2a & _).
  destruct (shr_m r2) as [|m|m]; [reflexivity | | lia].
  destruct (e2 <=? emax - prec); reflexivity.
Qed.

(** The mantissa of 1, times [m]: [m] shifted by 52 bits. *)
Lemma mul_one_mantissa (m : positive) :
  (m * 4503599627370496)%positive = Pos.iter xO m 52.
Proof. rewrite Pos.mul_comm. reflexivity. Qed.

Lemma digits2_shift (m : positive) :
  Zpos (digits2_pos (Pos.iter xO m 52)) = Zpos (digits2_pos m) + 52.
Proof.
  cbn [Pos.iter digits2_pos]. rewrite !Pos2Z.inj_succ. lia.
Qed.

Lemma shr_shift (m : positive) :
  SpecFloat.iter_pos shr_1 52 (Build_shr_record (Zpos (Pos.iter xO m 52)) false false)
  = Build_shr_record (Zpos m) false false.
Proof. reflexivity. Qed.

(** Multiplying by 1 is exact. *)
Lemma SFmul_one_r (s : bool) (m : positive) (e : Z) :
  bounded prec emax m e = true ->
  SFmul prec emax (S754_finite s m e) (S754_finite false 4503599627370496 (-52))
  = S754_finite s m e.
Proof.
  intros Hb. unfold bounded, canonical_mantissa in Hb.
  apply andb_prop in Hb as [Hc He]. apply Z.eqb_eq in Hc.
  cbn [SFmul]. rewrite xorb_false_r, mul_one_mantissa.
  unfold binary_round_aux, shr_fexp. cbn [Zdigits2 shr_record_of_loc].
  rewrite digits2_shift.
  replace (Zpos (digits2_pos m) + 52 + (e + -52)) with (Zpos (digits2_pos m) + e) by lia.
  rewrite Hc. replace (e - (e + -52)) with 52 by lia.
  cbn [shr]. rewrite shr_shift.
  cbn [shr_m shr_r shr_s loc_of_shr_record round_nearest_even Zdigits2 shr_record_of_loc].
  replace (e + -52 + 52) with e by lia.
  rewrite Hc, Z.sub_diag. cbn [shr shr_m]. rewrite He. reflexivity.
Qed.

Lemma mul_one_r (x : float) : (x * 1)%float = x.
Proof.
  apply Prim2SF_inj. rewrite mul_spec, Prim2SF_1.
  pose proof (Prim2SF_valid x) as Hv.
  destruct (Prim2SF x) as [[|]|[|]| |s m e]; try reflexivity.
  apply SFmul_one_r. exact Hv.
Qed.

Lemma mul_one_l (x : float) : (1 * x)%float = x.
Proof. rewrite mul_comm. apply mul_one_r. Qed.

Lemma nonneg_cases (x : float) :
  (0 <=? x)%float = true ->
  (exists s, Prim2SF x = S754_zero s)
  \/ (exists m e, Prim2SF x = S754_finite false m e)
  \/ Prim2SF x = S754_infinity false.
Proof.
  rewrite FloatAxioms.leb_spec, Prim2SF_0.
  destruct (Prim2SF x) as [s|[|]| |[|] m e]; cbn; try discriminate; eauto.
Qed.

Lemma nonneg_spec (x : float) :
  (0 <=? x)%float = match Prim2SF x with
                    | S754_zero _ | S754_finite false _ _ | S754_infinity false => true
                    | _ => false
                    end.
Proof.
  rewrite FloatAxioms.leb_spec, Prim2SF_0.
  destruct (Prim2SF x) as [s|[|]| |[|] m e]; reflexivity.
Qed.

(** The product of two numbers that are finite and not negative is not negative
    (and so no [NaN]); it is [Infinity] if it is not finite. *)
Lemma mul_nonneg (x y : float) :
  (0 <=? x)%float = true -> is_finite x = true ->
  (0 <=? y)%float = true -> is_finite y = true ->
  (0 <=? x * y)%float = true
  /\ (is_finite (x * y) = false -> (x * y)%float = infinity).
Proof.
  rewrite !nonneg_spec, !is_finite_spec, mul_spec. intros Hx Fx Hy Fy.
  unfold SF64mul.
  assert (H : match SFmul prec emax (Prim2SF x) (Prim2SF y) with
              | S754_zero _ | S754_finite false _ _ | S754_infinity false => True
              | _ => False
              end).
  { destruct (Prim2SF x) as [sx|[|]| |[|] mx ex], (Prim2SF y) as [sy|[|]| |[|] my ey];
      try discriminate; cbn [SFmul xorb]; try exact I.
    pose proof (binary_round_aux_sign false (Zpos (mx * my)) (ex + ey)
                  ltac:(apply Pos2Z.is_nonneg)) as Hs.
    destruct (binary_round_aux _ _ _ _ _ _) as [s|s| |s m e]; subst; first [exact I | contradiction]. }
  split.
  - destruct (SFmul _ _ _ _) as [s|[|]| |[|] m e]; first [reflexivity | contradiction].
  - intros Hf. apply Prim2SF_inj. rewrite mul_spec, Prim2SF_infinity. unfold SF64mul.
    destruct (SFmul _ _ _ _) as [s|[|]| |[|] m e]; first [reflexivity | contradiction | discriminate].
Qed.

Lemma mul_zero_r (x : float) :
  is_finite x = true -> ((x * 0)%float =? 0)%float = true.
Proof.
  rewrite is_finite_spec, FloatAxioms.eqb_spec, mul_spec, Prim2SF_0.
  destruct (Prim2SF x) as [[|]|[|]| |[|] m e]; try discriminate; reflexivity.
Qed.

End Products.

(** X11: The product of two constructed Percentages is a Percentage, unless it
    overflows: [times] returns the Percentage of the binary64 product when that
    is finite, and throws the constructor's error when the product is
    [Infinity]; the product is never negative and never [NaN]. *)
Theorem times_product (p q : Percentage.t) :
  Percentage.constructed p -> Percentage.constructed q ->
  let v := (Percentage.valueOf p * Percentage.valueOf q)%float in
  (0 <=? v)%float = true
  /\ (JSNumber.isFinite v = true ->
      Percentage.times p (Percentage.Pct q) = Ok (Percentage.Box v)
      /\ Percentage.constructed (Percentage.Box v))
  /\ (JSNumber.isFinite v = false ->
      v = infinity /\ Percentage.times p (Percentage.Pct q) = Throw DomainError).
Proof.
  intros Hp Hq v.
  apply constructed_spec in Hp as [Hp0 Hpf]. apply constructed_spec in Hq as [Hq0 Hqf].
  destruct (mul_nonneg _ _ Hp0 Hpf Hq0 Hqf) as [Hv Hinf]. fold v in Hv, Hinf.
  assert (E : Percentage.times p (Percentage.Pct q) = Percentage.new v) by reflexivity.
  rewrite E, new_spec, Hv. unfold JSNumber.isFinite in *. cbn [andb].
  split; [reflexivity | split; intros Hf; rewrite Hf].
  - split; [reflexivity |]. apply constructed_spec. cbn [Percentage.valueOf]. auto.
  - split; [exact (Hinf Hf) | reflexivity].
Qed.

Lemma times_product_witness :
  Percentage.times (Percentage.Box 0.5) (Percentage.Pct (Percentage.Box 0.5))
  = Ok (Percentage.Box 0.25)
  /\ Percentage.times (Percentage.Box 0x1p+600) (Percentage.Pct (Percentage.Box 0x1p+600))
     = Throw DomainError.
Proof.
  split.
  - apply (proj1 (proj2 (times_product (Percentage.Box 0.5) (Percentage.Box 0.5)
                           eq_refl eq_refl))). reflexivity.
  - apply (proj2 (proj2 (times_product (Percentage.Box 0x1p+600) (Percentage.Box 0x1p+600)
                           eq_refl eq_refl))). reflexivity.
Defined.

(** X12: 100% is the identity of [times], on both sides, and it is the default
    multiplier: each of the three calls returns the Percentage itself. It is the
    only Percentage that every Percentage can be multiplied by unchanged. *)
Theorem times_identity (p : Percentage.t) :
  Percentage.constructed p ->
  Percentage.times p (Percentage.Pct Percentage.MULT_IDEN) = Ok p
  /\ Percentage.times Percentage.MULT_IDEN (Percentage.Pct p) = Ok p
  /\ Percentage.times_default p = Ok p
  /\ ((forall a, Percentage.constructed a -> Percentage.times a (Percentage.Pct p) = Ok a) ->
      p = Percentage.MULT_IDEN).
Proof.
  intros Hp. unfold Percentage.times_default, Percentage.times.
  rewrite MULT_IDEN_constructed. cbn [bind Percentage.valueOf Percentage.MULT_IDEN].
  rewrite mul_one_r, mul_one_l.
  split; [exact Hp | split; [exact Hp | split; [exact Hp |]]].
  intros H. specialize (H Percentage.MULT_IDEN eq_refl).
  cbn [Percentage.valueOf Percentage.MULT_IDEN] in H. rewrite mul_one_l in H.
  unfold Percentage.constructed in Hp. congruence.
Qed.

Lemma times_identity_witness :
  Percentage.times (Percentage.Box 0.375) (Percentage.Pct Percentage.MULT_IDEN)
  = Ok (Percentage.Box 0.375)
  /\ Percentage.times Percentage.MULT_IDEN (Percentage.Pct (Percentage.Box 0.375))
     = Ok (Percentage.Box 0.375)
  /\ Percentage.times_default (Percentage.Box 0.375) = Ok (Percentage.Box 0.375).
Proof.
  pose proof (times_identity (Percentage.Box 0.375) eq_refl) as (H1 & H2 & H3 & _).
  auto.
Defined.

(** X13: 0% absorbs in [times], on both sides: the product of a constructed
    Percentage and 0% is a Percentage that equals 0%. *)
Theorem times_absorber (p : Percentage.t) :
  Percentage.constructed p ->
  exists z,
    Percentage.times p (Percentage.Pct Percentage.MULT_ABSORB) = Ok z
    /\ Percentage.times Percentage.MULT_ABSORB (Percentage.Pct p) = Ok z
    /\ Percentage.equals z (Percentage.Pct Percentage.MULT_ABSORB) = Ok true.
Proof.
  intros Hp.
  pose proof (constructed_finite _ Hp) as Hf.
  pose proof (mul_zero_r _ Hf) as Hz.
  assert (Hnew : Percentage.new (Percentage.valueOf p * 0)%float
                 = Ok (Percentage.Box (Percentage.valueOf p * 0)%float)).
  { destruct (eqb_zero_inv _ Hz) as [-> | ->]; reflexivity. }
  exists (Percentage.Box (Percentage.valueOf p * 0)%float).
  unfold Percentage.times, Percentage.equals.
  cbn [Percentage.valueOf Percentage.MULT_ABSORB].
  rewrite (mul_comm 0 (Percentage.valueOf p)), Hz. auto.
Qed.

Lemma times_absorber_witness :
  exists z,
    Percentage.times (Percentage.Box 0.375) (Percentage.Pct Percentage.MULT_ABSORB) = Ok z
    /\ Percentage.times Percentage.MULT_ABSORB (Percentage.Pct (Percentage.Box 0.375)) = Ok z
    /\ Percentage.equals z (Percentage.Pct Percentage.MULT_ABSORB) = Ok true.
Proof.
  exact (times_absorber (Percentage.Box 0.375) eq_refl).
Defined.

(** X14: [times] is commutative: exchanging the multiplicand and the multiplier
    gives the same Percentage or the same error. A number as multiplier is the
    Percentage of that number. *)
Theorem times_commutative (p q : Percentage.t) :
  Percentage.times p (Percentage.Pct q) = Percentage.times q (Percentage.Pct p)
  /\ (Percentage.constructed q ->
      Percentage.times p (Percentage.Number (Percentage.valueOf q))
      = Percentage.times p (Percentage.Pct q)).
Proof.
  unfold Percentage.times. split.
  - rewrite mul_comm. reflexivity.
  - intros Hq. rewrite Hq. reflexivity.
Qed.

Lemma times_commutative_witness :
  Percentage.times (Percentage.Box 0.25) (Percentage.Pct (Percentage.Box 0.5))
  = Percentage.times (Percentage.Box 0.5) (Percentage.Pct (Percentage.Box 0.25))
  /\ Percentage.times (Percentage.Box 0.25) (Percentage.Number 0.5)
     = Percentage.times (Percentage.Box 0.25) (Percentage.Pct (Percentage.Box 0.5)).
Proof.
  split.
  - exact (proj1 (times_commutative (Percentage.Box 0.25) (Percentage.Box 0.5))).
  - apply (proj2 (times_commutative (Percentage.Box 0.25) (Percentage.Box 0.5))).
    reflexivity.
Defined.

(** X15: [of]: 100% of a number is that number, whatever the number; a
    Percentage of 1 is the value of the Percentage; and 0% of a finite number is
    zero. *)
Theorem of_identity (p : Percentage.t) (x : float) :
  Percentage.of_ Percentage.MULT_IDEN x = x
  /\ Percentage.of_ p 1 = Percentage.valueOf p
  /\ (JSNumber.isFinite x = true ->
      JSNumber.is_zero (Percentage.of_ Percentage.MULT_ABSORB x) = true).
Proof.
  unfold Percentage.of_. cbn [Percentage.valueOf Percentage.MULT_IDEN Percentage.MULT_ABSORB].
  rewrite mul_one_l, mul_one_r. split; [reflexivity | split; [reflexivity |]].
  intros Hf. rewrite mul_comm. exact (mul_zero_r _ Hf).
Qed.

Lemma of_identity_witness :
  Percentage.of_ Percentage.MULT_IDEN 42 = 42%float
  /\ JSNumber.is_zero (Percentage.of_ Percentage.MULT_ABSORB 42) = true.
Proof.
  split.
  - exact (proj1 (of_identity Percentage.MULT_IDEN 42)).
  - apply (proj2 (proj2 (of_identity Percentage.MULT_IDEN 42))). reflexivity.
Defined.

(** ** MatrixSquare: matrices of numbers *)

Section Signs.

Lemma Prim2SF_neg_1 : Prim2SF (-1) = S754_finite true 4503599627370496 (-52).
Proof. reflexivity. Qed.

(** The sign of what is rounded is the sign of the result, and nothing else
    depends on it. *)
Lemma binary_round_aux_opp (s : bool) (mx ex : Z) (l : location) :
  binary_round_aux prec emax (negb s) mx ex l
  = SFopp (binary_round_aux prec emax s mx ex l).
Proof.
  unfold binary_round_aux.
  destruct (shr_fexp prec emax mx ex l) as [r1 e1].
  destruct (shr_fexp prec emax _ e1 loc_Exact) as [r2 e2].
  destruct (shr_m r2); [reflexivity | | reflexivity].
  destruct (e2 <=? emax - prec); reflexivity.
Qed.

Lemma SFmul_opp_l (x y : spec_float) :
  SFmul prec emax (SFopp x) y = SFopp (SFmul prec emax x y).
Proof.
  destruct x as [sx|sx| |sx mx ex], y as [sy|sy| |sy my ey];
    cbn [SFmul SFopp]; try reflexivity;
    try (destruct sx, sy; reflexivity).
  rewrite <- binary_round_aux_opp. destruct sx, sy; reflexivity.
Qed.

Lemma mul_opp_l (x y : float) : (- x * y)%float = (- (x * y))%float.
Proof.
  apply Prim2SF_inj. rewrite mul_spec, !opp_spec, mul_spec. apply SFmul_opp_l.
Qed.

Lemma mul_neg_one_l (x : float) : (-1 * x)%float = (- x)%float.
Proof.
  change (-1)%float with (- (1))%float. rewrite mul_opp_l, mul_one_l. reflexivity.
Qed.

Lemma SFadd_opp (x y : spec_float) :
  SFadd prec emax x (SFopp y) = SFsub prec emax x y.
Proof.
  destruct x as [sx|sx| |sx mx ex], y as [sy|sy| |sy my ey];
    cbn [SFadd SFsub SFopp]; try reflexivity;
    destruct sx, sy; reflexivity.
Qed.

Lemma add_opp (x y : float) : (x + - y)%float = (x - y)%float.
Proof.
  apply Prim2SF_inj. rewrite add_spec, opp_spec, sub_spec. apply SFadd_opp.
Qed.

Lemma mul_nan_l (x : float) : (nan * x)%float = nan.
Proof. apply Prim2SF_inj. rewrite mul_spec. reflexivity. Qed.

End Signs.

Section DenseFacts.

Lemma dense_cells (m : list (list slot)) :
  MatrixSquare.dense m -> exists g, m = Spec.cells g.
Proof.
  induction 1 as [|row m Hrow Hm [g ->]].
  - exists []. reflexivity.
  - assert (exists r, row = List.map Cell r) as [r ->].
    { clear -Hrow. induction Hrow as [|s row [x ->] _ [r ->]].
      - exists []. reflexivity.
      - exists (x :: r). reflexivity. }
    exists (r :: g). reflexivity.
Qed.

Lemma cells_square_inv (g : list (list float)) :
  MatrixSquare.square (Spec.cells g) -> Spec.square (length g) g.
Proof.
  unfold MatrixSquare.square, Spec.square, Spec.cells. intros H.
  split; [reflexivity |].
  rewrite List.Forall_map in H. rewrite length_map in H.
  eapply Forall_impl; [exact H |]. cbn. intros row. rewrite length_map. auto.
Qed.

Lemma det_dense (m : MatrixSquare.t) :
  MatrixSquare.square m -> MatrixSquare.dense m -> length m <> 0%nat ->
  exists x, MatrixSquare.det m = Ok (VNum x).
Proof.
  intros Hsq Hd Hne. destruct (dense_cells _ Hd) as [g ->].
  pose proof (cells_square_inv _ Hsq) as Hg.
  unfold Spec.cells in Hne. rewrite length_map in Hne.
  destruct (length g) as [|k] eqn:Ek; [lia |].
  exists (Spec.det k g). apply det_refines. exact Hg.
Qed.

(** A minor of a square matrix of numbers, at a cell of the matrix, is a
    square matrix of numbers with one row less. *)
Lemma minor_dense (this : MatrixSquare.t) (i j : nat) :
  MatrixSquare.square this -> MatrixSquare.dense this ->
  (i < length this)%nat -> (j < length this)%nat ->
  exists m, MatrixSquare.minor this (Z.of_nat i) (Z.of_nat j) = Ok m
    /\ MatrixSquare.square m /\ MatrixSquare.dense m
    /\ S (length m) = length this.
Proof.
  intros Hsq Hd Hi Hj.
  set (m' := List.map (delete j) (delete i this)).
  assert (E : Matrix.minor this (Z.of_nat i) (Z.of_nat j) = Ok m').
  { unfold Matrix.minor, Matrix.height. rewrite (square_width _ Hsq). zcompare.
    cbn [orb]. rewrite !Nat2Z.id. reflexivity. }
  assert (Hlen : S (length m') = length this).
  { unfold m'. rewrite length_map, length_delete; [lia |].
    apply lookup_lt_is_Some. exact Hi. }
  assert (Hsq' : MatrixSquare.square m').
  { unfold MatrixSquare.square.
    assert (length m' = pred (length this)) as -> by lia.
    unfold m'. apply List.Forall_map.
    apply Forall_delete. eapply Forall_impl; [exact Hsq |]. cbn. intros row Hrow.
    rewrite length_delete; [lia |]. apply lookup_lt_is_Some. lia. }
  assert (Hd' : MatrixSquare.dense m').
  { unfold MatrixSquare.dense, m'. apply List.Forall_map.
    apply Forall_delete. eapply Forall_impl; [exact Hd |]. cbn. intros row Hrow.
    apply Forall_delete. exact Hrow. }
  exists m'. unfold MatrixSquare.minor. rewrite E. cbn [bind].
  rewrite (new_FromMatrix_dense m' Hsq' Hd'). auto.
Qed.

Lemma map_from_ok (f : value -> nat -> result float) (a : list slot) :
  forall i,
    (forall v j, (j < length a)%nat -> exists y, f v (i + j)%nat = Ok y) ->
    exists r, JSArray.map_from i f a = Ok r /\ length r = length a.
Proof.
  induction a as [|s a IH]; intros i Hf; cbn [JSArray.map_from].
  - exists []. auto.
  - destruct (IH (S i)) as (r & Hr & Hlen).
    { intros v j Hj. replace (S i + j)%nat with (i + S j)%nat by lia.
      apply Hf. cbn. lia. }
    destruct (Hf (read s) 0%nat ltac:(cbn; lia)) as [y Hy].
    rewrite Nat.add_0_r in Hy.
    destruct s; rewrite ?Hy, Hr; cbn [bind]; eexists; (split; [reflexivity | cbn; lia]).
Qed.

Lemma map_rows_from_ok {A B : Type} (f : A -> nat -> result B) (P : B -> Prop)
      (rows : list A) :
  forall i,
    (forall row j, (j < length rows)%nat -> In row rows ->
       exists y, f row (i + j)%nat = Ok y /\ P y) ->
    exists r, JSArray.map_rows_from i f rows = Ok r
      /\ length r = length rows /\ Forall P r.
Proof.
  induction rows as [|row rows IH]; intros i Hf; cbn [JSArray.map_rows_from].
  - exists []. auto.
  - destruct (IH (S i)) as (r & Hr & Hlen & HP).
    { intros row' j Hj Hin. replace (S i + j)%nat with (i + S j)%nat by lia.
      apply Hf; [cbn; lia | right; exact Hin]. }
    destruct (Hf row 0%nat ltac:(cbn; lia) ltac:(left; reflexivity)) as (y & Hy & Py).
    rewrite Nat.add_0_r in Hy. rewrite Hy, Hr. cbn [bind].
    exists (y :: r). split; [reflexivity | split; [cbn; lia | constructor; auto]].
Qed.

End DenseFacts.

(** X16: The constructor stores rows of numbers as they are exactly when they
    form a square: as many slots in each row as there are rows. *)
Theorem constructor_identity_iff_square (m : list (list slot)) :
  MatrixSquare.new (MatrixSquare.FromRows (List.map MatrixSquare.RowArray m)) = m
  <-> MatrixSquare.square m.
Proof.
  split.
  - intros <-. apply new_square.
  - intros H. unfold MatrixSquare.new, Matrix.new. rewrite rawdata_of_arrays.
    apply forEach_body_square. exact H.
Qed.

Lemma constructor_identity_iff_square_witness :
  MatrixSquare.new (MatrixSquare.FromRows
    (List.map MatrixSquare.RowArray [[Cell 1; Undef]; [Hole; Cell 4]]))
  = [[Cell 1; Undef]; [Hole; Cell 4]].
Proof.
  apply (proj2 (constructor_identity_iff_square [[Cell 1; Undef]; [Hole; Cell 4]])).
  repeat constructor.
Defined.

(** X17: The determinant of a square matrix of numbers: it throws only when the
    matrix is empty, and is a number otherwise. *)
Theorem det_of_numbers (this : MatrixSquare.t) :
  MatrixSquare.square this -> MatrixSquare.dense this ->
  (MatrixSquare.size this = 0 -> MatrixSquare.det this = Throw TypeError)
  /\ (MatrixSquare.size this <> 0 -> exists x, MatrixSquare.det this = Ok (VNum x)).
Proof.
  intros Hsq Hd. rewrite size_length. split.
  - intros H0. destruct this; [reflexivity | cbn in H0; lia].
  - intros Hne. apply det_dense; auto. lia.
Qed.

Lemma det_of_numbers_witness :
  exists x, MatrixSquare.det [[Cell 1; Cell 2]; [Cell 3; Cell 4]] = Ok (VNum x).
Proof.
  apply (det_of_numbers [[Cell 1; Cell 2]; [Cell 3; Cell 4]]).
  - repeat constructor.
  - repeat constructor; eauto.
  - discriminate.
Defined.

(** X18: The determinant of a 2 x 2 matrix of numbers is [a * d - b * c], in
    binary64 arithmetic, whatever the four numbers. *)
Theorem det_2x2 (a b c d : float) :
  MatrixSquare.det [[Cell a; Cell b]; [Cell c; Cell d]]
  = Ok (VNum (a * d - b * c)%float).
Proof.
  assert (E : MatrixSquare.det [[Cell a; Cell b]; [Cell c; Cell d]]
              = Ok (VNum (1 * a * d + -1 * b * c)%float)) by reflexivity.
  rewrite E, mul_one_l, mul_neg_one_l, mul_opp_l, add_opp. reflexivity.
Qed.

(** X19: The reciprocal of a 1 x 1 matrix of one number: a TypeError when the
    number is a zero, and the matrix of [1 / a] otherwise. *)
Theorem reciprocal_1x1 (a : float) :
  MatrixSquare.reciprocal [[Cell a]]
  = if JSNumber.is_zero a then Throw TypeError else Ok [[Cell (1 / a)%float]].
Proof.
  unfold MatrixSquare.reciprocal.
  assert (E : MatrixSquare.det [[Cell a]] = Ok (VNum a)) by reflexivity.
  rewrite E. cbn [bind].
  change (strict_eq_zero (VNum a)) with (JSNumber.is_zero a).
  destruct (JSNumber.is_zero a); reflexivity.
Qed.

(** X20: The reciprocal of a 2 x 2 matrix of numbers whose determinant is not
    zero: every cell is [NaN], whatever the four numbers.  The minors are those
    of [this.transposition], instances of Matrix, of which [det] reads as
    [undefined]. *)
Theorem reciprocal_2x2 (a b c d : float) :
  let det := (a * d - b * c)%float in
  MatrixSquare.reciprocal [[Cell a; Cell b]; [Cell c; Cell d]]
  = if JSNumber.is_zero det then Throw TypeError
    else Ok [[Cell nan; Cell nan]; [Cell nan; Cell nan]].
Proof.
  intros det. unfold MatrixSquare.reciprocal.
  assert (Ed : MatrixSquare.det [[Cell a; Cell b]; [Cell c; Cell d]] = Ok (VNum det)).
  { assert (E : MatrixSquare.det [[Cell a; Cell b]; [Cell c; Cell d]]
                = Ok (VNum (1 * a * d + -1 * b * c)%float)) by reflexivity.
    rewrite E, mul_one_l, mul_neg_one_l, mul_opp_l, add_opp. reflexivity. }
  rewrite Ed. cbn [bind].
  change (strict_eq_zero (VNum det)) with (JSNumber.is_zero det).
  destruct (JSNumber.is_zero det); [reflexivity |].
  assert (E : MatrixSquare.size [[Cell a; Cell b]; [Cell c; Cell d]] = 2) by reflexivity.
  rewrite E. cbn [Z.eqb Pos.eqb].
  assert (E' : JSArray.map_rows_from 0
                 (fun row i =>
                    JSArray.map (fun _ j =>
                      let* m := MatrixSquare.invoke_minor
                                  (MatrixSquare.transposition
                                     [[Cell a; Cell b]; [Cell c; Cell d]])
                                  (Z.of_nat i) (Z.of_nat j) in
                      let* d0 := MatrixSquare.invoke_det m in
                      Ok (sign (i + j) * ToNumber d0)%float) row)
                 [[Cell a; Cell b]; [Cell c; Cell d]]
               = Ok [[Cell nan; Cell nan]; [Cell nan; Cell nan]]) by reflexivity.
  rewrite E'. cbn [bind ToNumber].
  assert (Es : forall s : float,
             MatrixSquare.scale
               (MatrixSquare.new (MatrixSquare.FromRows
                  (List.map MatrixSquare.RowArray
                     [[Cell nan; Cell nan]; [Cell nan; Cell nan]]))) s
             = [[Cell (nan * s)%float; Cell (nan * s)%float];
                [Cell (nan * s)%float; Cell (nan * s)%float]]) by reflexivity.
  rewrite Es, mul_nan_l. reflexivity.
Qed.

(** X21: The reciprocal of a square matrix of numbers that is not empty: a
    TypeError when the determinant is a zero, and otherwise a square matrix of
    the same size. It throws nothing else. *)
Theorem reciprocal_of_numbers (this : MatrixSquare.t) :
  MatrixSquare.square this -> MatrixSquare.dense this ->
  MatrixSquare.size this <> 0 ->
  exists x, MatrixSquare.det this = Ok (VNum x)
    /\ (JSNumber.is_zero x = true -> MatrixSquare.reciprocal this = Throw TypeError)
    /\ (JSNumber.is_zero x = false ->
        exists m, MatrixSquare.reciprocal this = Ok m
          /\ MatrixSquare.square m
          /\ MatrixSquare.size m = MatrixSquare.size this).
Proof.
  intros Hsq Hd Hne. rewrite size_length in Hne.
  destruct (det_dense this Hsq Hd ltac:(lia)) as [x Hx].
  exists x. split; [exact Hx |].
  unfold MatrixSquare.reciprocal. rewrite Hx. cbn [bind].
  change (strict_eq_zero (VNum x)) with (JSNumber.is_zero x).
  split; intros Hz; rewrite Hz; [reflexivity |].
  rewrite !size_length.
  destruct (Z.of_nat (length this) =? 0) eqn:E0; [apply Z.eqb_eq in E0; lia |].
  destruct (Z.of_nat (length this) =? 1) eqn:E1.
  - apply Z.eqb_eq in E1. eexists. split; [reflexivity |].
    split; [apply new_square |]. rewrite size_length, new_length. cbn. lia.
  - apply Z.eqb_neq in E1.
    pose proof (transposition_square _ Hsq) as Htsq.
    pose proof (transposition_length _ Hsq) as Htlen.
    destruct (map_rows_from_ok
                (fun row i =>
                   JSArray.map (fun _cell j =>
                     let* m := MatrixSquare.invoke_minor (MatrixSquare.transposition this)
                                 (Z.of_nat i) (Z.of_nat j) in
                     let* d := MatrixSquare.invoke_det m in
                     Ok (sign (i + j) * ToNumber d)%float) row)
                (fun _ => True) this 0) as (cofactors & Hc & Hlen & _).
    { intros row i Hi Hin. cbn [Nat.add].
      assert (Hrow : length row = length this).
      { unfold MatrixSquare.square in Hsq. rewrite List.Forall_forall in Hsq. auto. }
      destruct (map_from_ok
                  (fun _cell j =>
                     let* m := MatrixSquare.invoke_minor (MatrixSquare.transposition this)
                                 (Z.of_nat i) (Z.of_nat j) in
                     let* d := MatrixSquare.invoke_det m in
                     Ok (sign (i + j) * ToNumber d)%float) row 0) as (r & Hr & _).
      { intros v j Hj. cbn [Nat.add].
        assert (E : exists m', Matrix.minor (Matrix.transposition this)
                                 (Z.of_nat i) (Z.of_nat j) = Ok m').
        { unfold Matrix.minor, Matrix.height. rewrite (square_width _ Htsq). zcompare.
          cbn [orb]. eauto. }
        destruct E as [m' E].
        unfold MatrixSquare.invoke_minor, MatrixSquare.transposition, Matrix.instance.
        cbn [class_of data_of]. rewrite E.
        cbn [bind MatrixSquare.invoke_det class_of]. eauto. }
      exists r. split; [exact Hr | exact I]. }
    rewrite Hc. cbn [bind]. eexists. split; [reflexivity |].
    split; [apply new_square |].
    rewrite size_length, scale_length, new_length. cbn [MatrixSquare.rawdata_of].
    rewrite !length_map. lia.
Qed.

Lemma reciprocal_of_numbers_witness :
  exists x, MatrixSquare.det [[Cell 1; Cell 2]; [Cell 3; Cell 4]] = Ok (VNum x)
    /\ (JSNumber.is_zero x = true ->
        MatrixSquare.reciprocal [[Cell 1; Cell 2]; [Cell 3; Cell 4]] = Throw TypeError)
    /\ (JSNumber.is_zero x = false ->
        exists m, MatrixSquare.reciprocal [[Cell 1; Cell 2]; [Cell 3; Cell 4]] = Ok m
          /\ MatrixSquare.square m
          /\ MatrixSquare.size m = MatrixSquare.size [[Cell 1; Cell 2]; [Cell 3; Cell 4]]).
Proof.
  apply (reciprocal_of_numbers [[Cell 1; Cell 2]; [Cell 3; Cell 4]]).
  - repeat constructor.
  - repeat constructor; eauto.
  - discriminate.
Defined.

(** X22: [multIden]: a RangeError for a size that is no array length; otherwise
    the square matrix of that size whose cell is 1 on the main diagonal and 0
    elsewhere. *)
Theorem multIden_cells (size : Z) :
  (size < 0 \/ 4294967295 < size -> MatrixSquare.multIden size = Throw RangeError)
  /\ (0 <= size <= 4294967295 ->
      exists I, MatrixSquare.multIden size = Ok I
        /\ MatrixSquare.size I = size
        /\ MatrixSquare.square I
        /\ forall i j, (i < Z.to_nat size)%nat -> (j < Z.to_nat size)%nat ->
             exists row, I !! i = Some row
               /\ row !! j = Some (Cell (if Nat.eqb i j then 1%float else 0%float))).
Proof.
  split.
  - intros H. unfold MatrixSquare.multIden.
    destruct (size <? 0) eqn:E1; [reflexivity |].
    destruct (4294967295 <? size) eqn:E2; [reflexivity |]. lia.
  - intros H. rewrite (multIden_identity size H).
    set (n := Z.to_nat size). exists (Spec.cells (Spec.identity n)).
    destruct (cells_square n _ (identity_square n)) as [Hsq Hlen].
    split; [reflexivity |]. split; [rewrite size_length, Hlen; lia |].
    split; [exact Hsq |].
    intros i j Hi Hj.
    exists (List.map Cell (List.map (fun j => if Nat.eqb i j then 1%float else 0%float)
                                    (seq 0 n))).
    unfold Spec.cells, Spec.identity. split.
    + rewrite !list_lookup_fmap. rewrite lookup_seq_lt by exact Hi. reflexivity.
    + rewrite !list_lookup_fmap. rewrite lookup_seq_lt by exact Hj. reflexivity.
Qed.

Lemma multIden_cells_witness :
  MatrixSquare.multIden (-1) = Throw RangeError
  /\ exists I, MatrixSquare.multIden 3 = Ok I
       /\ MatrixSquare.size I = 3
       /\ MatrixSquare.square I
       /\ forall i j, (i < Z.to_nat 3)%nat -> (j < Z.to_nat 3)%nat ->
            exists row, I !! i = Some row
              /\ row !! j = Some (Cell (if Nat.eqb i j then 1%float else 0%float)).
Proof.
  split.
  - apply (proj1 (multIden_cells (-1))). left. lia.
  - apply (proj2 (multIden_cells 3)). lia.
Defined.

(** ** The constructor on the store: the caller's arrays *)

Section StoreRowFacts.

Lemma full_rows_arrays (rows : list Store.row_ref) :
  forall (h h1 : Store.store) (ls : list nat),
    Store.full_rows rows h = (h1, ls) ->
    length ls = length rows
    /\ forall l, In (Store.RefArray l) rows -> l ∈ ls.
Proof.
  induction rows as [|[raw | l0] rows IH]; intros h h1 ls; cbn [Store.full_rows].
  - intros [= <- <-]. split; [reflexivity | intros l []].
  - destruct (Store.alloc _ h) as [h2 l1].
    destruct (Store.full_rows rows h2) as [h3 ls'] eqn:E. intros [= <- <-].
    destruct (IH _ _ _ E) as [Hlen Hin]. split; [cbn; lia |].
    intros l [Hl | Hl]; [discriminate |]. right. auto.
  - destruct (Store.full_rows rows h) as [h3 ls'] eqn:E. intros [= <- <-].
    destruct (IH _ _ _ E) as [Hlen Hin]. split; [cbn; lia |].
    intros l [[= ->] | Hl]; [left | right; auto].
Qed.

Lemma rawdata_fresh (d : Store.data_ref) (h h1 : Store.store) (ls : list nat) :
  Store.valid h d ->
  Store.rawdata_of d h = (h1, ls) ->
  forall l, l ∈ ls -> l ∈ dom h ->
    match d with
    | Store.RefMatrix _ => False
    | Store.RefRows rs => In (Store.RefArray l) rs
    end.
Proof.
  intros Hv E l Hl Hd. destruct d as [rows | rows]; cbn [Store.rawdata_of] in E.
  - destruct (copy_rows_spec rows h h1 ls Hv E) as (_ & _ & _ & Hfresh).
    rewrite Forall_forall in Hfresh. exact (Hfresh l Hl Hd).
  - destruct (full_rows_spec rows h h1 ls Hv E) as (_ & _ & _ & Hin). exact (Hin l Hl Hd).
Qed.

End StoreRowFacts.

(** X23: The constructor writes to, and keeps for the new instance, only the
    arrays that are passed to it directly as rows. An array that the caller
    holds and that is no such row is left as it is and is no row of the
    instance: data given as a Matrix or as Vectors is copied. *)
Theorem constructor_keeps_other_arrays
    (d : Store.data_ref) (h h' : Store.store) (rows : list nat) :
  Store.valid h d ->
  Store.constructor d h = (h', rows) ->
  forall l, l ∈ dom h ->
    match d with
    | Store.RefMatrix _ => True
    | Store.RefRows rs => ~ In (Store.RefArray l) rs
    end ->
    h' !! l = h !! l /\ l ∉ rows.
Proof.
  intros Hv Hc l Hl Hd.
  assert (Hnot : l ∉ rows).
  { revert Hc. unfold Store.constructor.
    destruct (Store.rawdata_of d h) as [h1 rawdata] eqn:E. intros [= <- <-] Hin.
    pose proof (rawdata_fresh d h h1 rawdata Hv E l Hin Hl) as H.
    destruct d; [exact H | exact (Hd H)]. }
  split; [| exact Hnot].
  exact (proj2 (constructor_refines d h h' rows Hv Hc) l Hl Hnot).
Qed.

Lemma constructor_keeps_other_arrays_witness :
  let h : gmap nat (list slot) :=
    <[0%nat := [Cell 1; Cell 2; Cell 3]]> (<[1%nat := [Cell 4; Cell 5; Cell 6]]> ∅) in
  let r := Store.constructor (Store.RefMatrix [0%nat; 1%nat]) h in
  r.1 !! 0%nat = h !! 0%nat /\ 0%nat ∉ r.2.
Proof.
  intros h r.
  apply (constructor_keeps_other_arrays (Store.RefMatrix [0%nat; 1%nat]) h r.1 r.2).
  - repeat constructor; vm_compute; reflexivity.
  - reflexivity.
  - vm_compute. reflexivity.
  - exact I.
Defined.

(** X24: An array passed to the constructor as a row is the row of the new
    instance, not a copy of it, and the constructor sets its length to the
    number of rows: the caller's array is cut, or lengthened by empty slots. *)
Theorem constructor_resizes_row_arrays
    (rs : list Store.row_ref) (h h' : Store.store) (rows : list nat) (l : nat) :
  Store.valid h (Store.RefRows rs) ->
  Store.constructor (Store.RefRows rs) h = (h', rows) ->
  In (Store.RefArray l) rs ->
  l ∈ rows
  /\ length rows = length rs
  /\ h' !!! l = JSArray.set_length (length rs) (h !!! l).
Proof.
  intros Hv. unfold Store.constructor. cbn [Store.rawdata_of].
  destruct (Store.full_rows rs h) as [h1 rawdata] eqn:E. intros [= <- <-] Hin.
  destruct (full_rows_arrays rs h h1 rawdata E) as [Hlen Hrows].
  destruct (full_rows_spec rs h h1 rawdata Hv E) as (He & _ & Hdom & _).
  assert (Hl : l ∈ dom h).
  { cbn [Store.valid] in Hv. rewrite List.Forall_forall in Hv. exact (Hv _ Hin). }
  split; [exact (Hrows l Hin) | split; [exact Hlen |]].
  rewrite (proj1 (forEach_spec (length rawdata) rawdata h1 Hdom l
                    (extends_dom _ _ _ He Hl)) (Hrows l Hin)).
  rewrite Hlen, (extends_total _ _ _ He Hl). reflexivity.
Qed.

Lemma constructor_resizes_row_arrays_witness :
  let h : gmap nat (list slot) :=
    <[0%nat := [Cell 1; Cell 2; Cell 3]]> (<[1%nat := [Cell 4]]> ∅) in
  let r := Store.constructor (Store.RefRows [Store.RefArray 0; Store.RefArray 1]) h in
  1%nat ∈ r.2
  /\ length r.2 = 2%nat
  /\ r.1 !!! 1%nat = JSArray.set_length 2 (h !!! 1%nat).
Proof.
  intros h r.
  apply (constructor_resizes_row_arrays [Store.RefArray 0; Store.RefArray 1] h r.1 r.2 1).
  - repeat constructor; vm_compute; reflexivity.
  - reflexivity.
  - right. left. reflexivity.
Defined.

(** ** Percentage: products in the unit interval *)

Section UnitInterval.

Variable K : Z.
Hypothesis HK : 0 <= K.

Lemma le_pow_exp (m e : Z) : 0 < m -> le_pow K m e -> e <= 0.
Proof.
  intros Hm [He Hv].
  assert (Hp : 0 < 2 ^ (e + K)) by (apply Z.pow_pos_nonneg; lia).
  assert (H : 2 ^ (e + K) <= 2 ^ K) by nia.
  apply Z.pow_le_mono_r_iff in H; lia.
Qed.

Lemma le_pow_digits (p : positive) (e : Z) :
  le_pow K (Zpos p) e -> Zpos (digits2_pos p) + e <= 1.
Proof.
  intros [He Hv]. pose proof (digits2_pos_bounds p) as [Hd _].
  assert (Hp : 0 < 2 ^ (e + K)) by (apply Z.pow_pos_nonneg; lia).
  assert (H : 2 ^ (Zpos (digits2_pos p) - 1 + (e + K)) <= 2 ^ K).
  { rewrite Z.pow_add_r by lia. nia. }
  apply Z.pow_le_mono_r_iff in H; lia.
Qed.

Lemma le_pow_shift (m' mx k e : Z) :
  0 <= k -> 0 <= m' -> m' * 2 ^ k <= mx -> le_pow K mx e -> le_pow K m' (e + k).
Proof.
  intros Hk Hm' Hle [He Hv]. split; [lia |].
  replace (e + k + K) with (k + (e + K)) by lia.
  rewrite Z.pow_add_r by lia.
  assert (Hp : 0 < 2 ^ (e + K)) by (apply Z.pow_pos_nonneg; lia).
  nia.
Qed.

Lemma le_pow_round_up (m' mx k e : Z) :
  0 <= k -> e + k <= 0 -> 0 <= m' -> m' * 2 ^ k < mx -> le_pow K mx e ->
  le_pow K (m' + 1) (e + k).
Proof.
  intros Hk He' Hm' Hlt [He Hv]. split; [lia |].
  assert (HB : 2 ^ K = 2 ^ (e + K) * (2 ^ k * 2 ^ (- (e + k)))).
  { rewrite <- !Z.pow_add_r by lia. f_equal. lia. }
  replace (e + k + K) with ((e + K) + k) by lia.
  rewrite Z.pow_add_r by lia. rewrite HB in Hv |- *.
  assert (HA : 0 < 2 ^ (e + K)) by (apply Z.pow_pos_nonneg; lia).
  assert (HK' : 0 < 2 ^ k) by (apply Z.pow_pos_nonneg; lia).
  assert (HC : 0 < 2 ^ (- (e + k))) by (apply Z.pow_pos_nonneg; lia).
  assert (H1 : mx <= 2 ^ k * 2 ^ (- (e + k))).
  { apply (Z.mul_le_mono_pos_r _ _ (2 ^ (e + K)) HA). lia. }
  assert (H2 : m' < 2 ^ (- (e + k))).
  { apply (Z.mul_lt_mono_pos_r (2 ^ k) _ _ HK'). lia. }
  assert (H3 : (m' + 1) * 2 ^ k <= 2 ^ (- (e + k)) * 2 ^ k).
  { apply Z.mul_le_mono_nonneg_r; lia. }
  nia.
Qed.

(** Rounding a positive value that is at most 1 gives a zero or a positive
    number that is at most 1, however small its exponent. *)
Lemma binary_round_aux_le_pow (mx ex : Z) :
  0 < mx -> le_pow K mx ex ->
  binary_round_aux prec emax false mx ex loc_Exact = S754_zero false
  \/ exists m e,
       binary_round_aux prec emax false mx ex loc_Exact = S754_finite false m e
       /\ le_pow K (Zpos m) e.
Proof.
  intros Hpos Hone. unfold binary_round_aux.
  destruct (shr_fexp_exact mx ex ltac:(lia)) as (E1 & I1 & X1).
  destruct (shr_fexp prec emax mx ex loc_Exact) as [r1 e1]. cbn [fst snd] in *.
  set (n1 := fexp prec emax (Zdigits2 mx + ex) - ex) in *.
  destruct I1 as (I1a & I1b & I1c).
  pose proof (round_nearest_even_bounds r1) as [Hr Hrx].
  set (m1 := round_nearest_even (shr_m r1) (loc_of_shr_record r1)) in *.
  assert (Hm1 : le_pow K m1 e1).
  { destruct (shr_r r1) eqn:Er.
    - assert (Hn1 : 0 < n1).
      { destruct (Z_lt_le_dec 0 n1) as [H|H]; [exact H |].
        rewrite (X1 H) in Er. discriminate. }
      assert (He1 : e1 <= 0).
      { destruct mx as [|p|p]; try lia. cbn [Zdigits2] in n1.
        pose proof (le_pow_digits p ex Hone).
        unfold n1, fexp, SpecFloat.emin, prec, emax in *. lia. }
      destruct (Z.eq_dec m1 (shr_m r1)) as [-> | Hne].
      + rewrite E1. apply (le_pow_shift _ mx); auto; lia.
      + replace m1 with (shr_m r1 + 1) by lia. rewrite E1.
        apply (le_pow_round_up _ mx); auto; lia.
    - rewrite (Hrx eq_refl). rewrite E1. apply (le_pow_shift _ mx); auto; lia. }
  assert (H0m1 : 0 <= m1) by lia.
  destruct (shr_fexp_exact m1 e1 H0m1) as (E2 & I2 & _).
  destruct (shr_fexp prec emax m1 e1 loc_Exact) as [r2 e2]. cbn [fst snd] in *.
  set (n2 := fexp prec emax (Zdigits2 m1 + e1) - e1) in *.
  destruct I2 as (I2a & I2b & _).
  assert (Hm2 : le_pow K (shr_m r2) e2).
  { rewrite E2. apply (le_pow_shift _ m1); auto; lia. }
  destruct (shr_m r2) as [|m|m] eqn:Em; [now left | | lia].
  right. exists m, e2.
  pose proof (le_pow_exp _ _ (Pos2Z.is_pos m) Hm2) as He2.
  replace (e2 <=? emax - prec) with true; [auto |].
  symmetry. apply Z.leb_le. unfold emax, prec. lia.
Qed.

End UnitInterval.

Section UnitProducts.

Lemma le_pow_mul (K1 K2 a b e1 e2 : Z) :
  0 <= K1 -> 0 <= K2 -> 0 <= a -> 0 <= b ->
  le_pow K1 a e1 -> le_pow K2 b e2 -> le_pow (K1 + K2) (a * b) (e1 + e2).
Proof.
  intros H1 H2 Ha Hb [He1 Hv1] [He2 Hv2]. split; [lia |].
  replace (e1 + e2 + (K1 + K2)) with ((e1 + K1) + (e2 + K2)) by lia.
  rewrite (Z.pow_add_r 2 (e1 + K1) (e2 + K2)), (Z.pow_add_r 2 K1 K2) by lia.
  assert (0 < 2 ^ (e1 + K1)) by (apply Z.pow_pos_nonneg; lia).
  assert (0 < 2 ^ (e2 + K2)) by (apply Z.pow_pos_nonneg; lia).
  replace (a * b * (2 ^ (e1 + K1) * 2 ^ (e2 + K2)))
    with ((a * 2 ^ (e1 + K1)) * (b * 2 ^ (e2 + K2))) by ring.
  apply Z.mul_le_mono_nonneg; lia.
Qed.

Lemma le_pow_weaken (K1 K2 m e : Z) :
  0 <= K1 -> 0 <= K2 -> - K1 <= e -> le_pow (K1 + K2) m e -> le_pow K1 m e.
Proof.
  intros H1 H2 He [_ Hv]. split; [exact He |].
  replace (e + (K1 + K2)) with ((e + K1) + K2) in Hv by lia.
  rewrite (Z.pow_add_r 2 (e + K1) K2), (Z.pow_add_r 2 K1 K2) in Hv by lia.
  assert (0 < 2 ^ K2) by (apply Z.pow_pos_nonneg; lia).
  apply (Z.mul_le_mono_pos_r _ _ (2 ^ K2)); [lia |]. lia.
Qed.

(** A positive number that is not above 1 has a value that is at most 1. *)
Lemma not_above_le_one (m : positive) (e : Z) :
  bounded prec emax m e = true ->
  SFltb (S754_finite false 4503599627370496 (-52)) (S754_finite false m e) = false ->
  le_one (Zpos m) e.
Proof.
  intros Hb Hlt.
  destruct (bounded_inv m e Hb) as [He Hm].
  destruct (not_above_one_inv m e Hlt) as [He' Hm'].
  split; [exact He |].
  assert (Hp : 0 < 2 ^ (e + 1074)) by (apply Z.pow_pos_nonneg; lia).
  destruct (Z.eq_dec e (-52)) as [-> | Hne].
  - specialize (Hm' eq_refl).
    replace (2 ^ 1074) with (2 ^ 52 * 2 ^ (-52 + 1074))
      by (rewrite <- Z.pow_add_r by lia; reflexivity).
    apply Z.mul_le_mono_nonneg_r; lia.
  - assert (H : 2 ^ (e + 1074) <= 2 ^ 1021) by (apply Z.pow_le_mono_r; lia).
    replace (2 ^ 1074) with (2 ^ 53 * 2 ^ 1021)
      by (rewrite <- Z.pow_add_r by lia; reflexivity).
    apply Z.mul_le_mono_nonneg; lia.
Qed.

(** The product of two numbers of [0, 1] is a number of [0, 1]. *)
Lemma mul_unit_interval (x y : float) :
  (0 <=? x)%float = true -> (1 <? x)%float = false ->
  (0 <=? y)%float = true -> (1 <? y)%float = false ->
  (0 <=? x * y)%float = true
  /\ is_finite (x * y) = true
  /\ (1 <? x * y)%float = false.
Proof.
  rewrite !FloatAxioms.leb_spec, !FloatAxioms.ltb_spec, is_finite_spec, mul_spec.
  rewrite Prim2SF_0, Prim2SF_1.
  pose proof (Prim2SF_valid x) as Vx. pose proof (Prim2SF_valid y) as Vy.
  pose proof (Prim2SF_valid (x * y)) as Vxy. rewrite mul_spec in Vxy.
  unfold SF64mul in *.
  destruct (Prim2SF x) as [sx|[|]| |[|] mx ex], (Prim2SF y) as [sy|[|]| |[|] my ey];
    try discriminate; cbn [SFmul xorb] in *; intros Hx0 Hx1 Hy0 Hy1;
    try (repeat split; reflexivity).
  pose proof (not_above_le_one mx ex Vx Hx1) as Lx.
  pose proof (not_above_le_one my ey Vy Hy1) as Ly.
  assert (L : le_pow (1074 + 1074) (Zpos (mx * my)) (ex + ey)).
  { rewrite Pos2Z.inj_mul. apply le_pow_mul; try lia; assumption. }
  destruct (binary_round_aux_le_pow (1074 + 1074) ltac:(lia) (Zpos (mx * my)) (ex + ey)
              (Pos2Z.is_pos _) L) as [E | (m & e & E & Lm)]; rewrite E in Vxy |- *.
  - repeat split; reflexivity.
  - cbn [SpecFloat.valid_binary] in Vxy.
    destruct (bounded_inv m e Vxy) as [He _].
    pose proof (le_pow_weaken 1074 1074 (Zpos m) e ltac:(lia) ltac:(lia) He Lm) as L1.
    split; [reflexivity | split; [reflexivity |]].
    exact (le_one_not_above m e Vxy L1).
Qed.

End UnitProducts.

(** X25: The product of two constructed Percentages that are not above 100%
    is a Percentage that is not above 100%: [times] returns, whatever the two
    values. *)
Theorem times_unit_interval (p q : Percentage.t) :
  Percentage.constructed p -> Percentage.constructed q ->
  Percentage.lessThan Percentage.MULT_IDEN (Percentage.Pct p) = Ok false ->
  Percentage.lessThan Percentage.MULT_IDEN (Percentage.Pct q) = Ok false ->
  exists r,
    Percentage.times p (Percentage.Pct q) = Ok r
    /\ Percentage.constructed r
    /\ Percentage.lessThan Percentage.MULT_IDEN (Percentage.Pct r) = Ok false.
Proof.
  intros Hp Hq [= Hp1] [= Hq1].
  pose proof (constructed_nonneg _ Hp) as Hp0. pose proof (constructed_nonneg _ Hq) as Hq0.
  destruct (mul_unit_interval _ _ Hp0 Hp1 Hq0 Hq1) as (H0 & Hf & H1).
  exists (Percentage.Box (Percentage.valueOf p * Percentage.valueOf q)%float).
  assert (Hr : Percentage.new (Percentage.valueOf p * Percentage.valueOf q)%float
               = Ok (Percentage.Box (Percentage.valueOf p * Percentage.valueOf q)%float)).
  { unfold Percentage.new, JSNumber.assertType, JSNumber.isFinite.
    rewrite H0, Hf. reflexivity. }
  split; [exact Hr | split; [exact Hr |]].
  unfold Percentage.lessThan. cbn [Percentage.valueOf Percentage.MULT_IDEN].
  rewrite H1. reflexivity.
Qed.

Lemma times_unit_interval_witness :
  exists r,
    Percentage.times (Percentage.Box 0.5) (Percentage.Pct (Percentage.Box 0.75)) = Ok r
    /\ Percentage.constructed r
    /\ Percentage.lessThan Percentage.MULT_IDEN (Percentage.Pct r) = Ok false.
Proof.
  exact (times_unit_interval (Percentage.Box 0.5) (Percentage.Box 0.75)
           eq_refl eq_refl eq_refl eq_refl).
Defined.

(** ** MatrixSquare: the rows of a new instance *)

Section RowFacts.

Lemma set_length_lookup (n : nat) (a : list slot) (j : nat) :
  (j < n)%nat ->
  JSArray.set_length n a !! j = if (j <? length a)%nat then a !! j else Some Hole.
Proof.
  intros Hj. unfold JSArray.set_length.
  destruct (j <? length a)%nat eqn:E.
  - apply Nat.ltb_lt in E. rewrite lookup_app_l by (rewrite length_take; lia).
    apply lookup_take_lt. exact Hj.
  - apply Nat.ltb_ge in E. rewrite lookup_app_r by (rewrite length_take; lia).
    apply lookup_replicate_2. rewrite length_take. lia.
Qed.

End RowFacts.

(** X26: What the constructor makes of a row of the data, whatever its length:
    the row of the instance has as many slots as there are rows; the slots that the
    data has are kept, those beyond the number of rows are dropped, and the
    slots that the data lacks are left empty, not set to 0. *)
Theorem constructor_cuts_and_pads
    (rows : list MatrixSquare.row_data) (i : nat) (row : MatrixSquare.row_data) :
  rows !! i = Some row ->
  exists r,
    MatrixSquare.new (MatrixSquare.FromRows rows) !! i = Some r
    /\ length r = length rows
    /\ forall j, (j < length rows)%nat ->
         r !! j = if (j <? length (MatrixSquare.full_row row))%nat
                  then MatrixSquare.full_row row !! j
                  else Some Hole.
Proof.
  intros Hi.
  exists (JSArray.set_length (length rows) (MatrixSquare.full_row row)).
  split; [| split].
  - unfold MatrixSquare.new, Matrix.new, MatrixSquare.forEach_body.
    cbn [MatrixSquare.rawdata_of]. rewrite length_map.
    change (List.map ?f ?l) with (f <$> l).
    rewrite !list_lookup_fmap, Hi. reflexivity.
  - apply set_length_length.
  - intros j Hj. apply set_length_lookup. exact Hj.
Qed.

Lemma constructor_cuts_and_pads_witness :
  exists r,
    MatrixSquare.new (MatrixSquare.FromRows
      [MatrixSquare.RowArray [Cell 1; Cell 2; Cell 3]; MatrixSquare.RowArray [Cell 4]])
      !! 1%nat = Some r
    /\ length r = 2%nat
    /\ forall j, (j < 2)%nat ->
         r !! j = if (j <? 1)%nat then [Cell 4] !! j else Some Hole.
Proof.
  exact (constructor_cuts_and_pads
           [MatrixSquare.RowArray [Cell 1; Cell 2; Cell 3]; MatrixSquare.RowArray [Cell 4]]
           1 (MatrixSquare.RowArray [Cell 4]) eq_refl).
Defined.
